(** * Obsidian-To-Org: the regex-driven text transforms of the three scripts

    The repository holds three Python scripts:
      - [obsidian-to-org.py]                  (module [Root] below),
      - [Obsidian-To-Org/obsidian-to-org.py]  (module [Org]),
      - [Obsidian-To-Roam/obsidian-to-roam.py] (module [Roam]).
    Their text transforms are calls of [re.sub], [re.search] and
    [re.findall] on six patterns.  Module [Re] embeds the part of Python's
    backtracking matcher that these patterns use; the patterns are written
    as syntax trees next to their source text, and the functions of the
    scripts are defined on top of them, with the source's names.

    Text is a [string] whose characters are code points below 256; the
    classes [\s] and [\w] are those of Python 3 [str] patterns on that
    range. *)

From Stdlib Require Import Ascii String List Bool Arith Lia.
From stdpp Require Import base option gmap strings.

Local Open Scope nat_scope.

(** ** Strings *)

Definition LF : string := String "010"%char "".

Fixpoint str_drop (n : nat) (s : string) : string :=
  match n, s with
  | S k, String _ s' => str_drop k s'
  | _, _ => s
  end.

Fixpoint str_take (n : nat) (s : string) : string :=
  match n, s with
  | S k, String c s' => String c (str_take k s')
  | _, _ => ""
  end.

Fixpoint str_forall (p : ascii -> bool) (s : string) : bool :=
  match s with
  | "" => true
  | String c s' => p c && str_forall p s'
  end.

(** [sep.join(l)] *)
Fixpoint join (sep : string) (l : list string) : string :=
  match l with
  | [] => ""
  | [x] => x
  | x :: l' => x +:+ sep +:+ join sep l'
  end.

(** ** The matcher *)

Module Re.

(** Character classes of [str] patterns, on code points below 256. *)
Definition is_space (c : ascii) : bool :=
  let n := nat_of_ascii c in
  ((9 <=? n) && (n <=? 13)) || ((28 <=? n) && (n <=? 32))
  || (n =? 133) || (n =? 160).

Definition is_word (c : ascii) : bool :=
  let n := nat_of_ascii c in
  ((48 <=? n) && (n <=? 57)) || ((65 <=? n) && (n <=? 90)) || (n =? 95)
  || ((97 <=? n) && (n <=? 122))
  || (n =? 170) || (n =? 178) || (n =? 179) || (n =? 181) || (n =? 185)
  || (n =? 186) || ((188 <=? n) && (n <=? 190))
  || ((192 <=? n) && (n <=? 214)) || ((216 <=? n) && (n <=? 246))
  || (248 <=? n).

Definition not_space (c : ascii) : bool := negb (is_space c).
(** [.] without DOTALL, and with it *)
Definition dot (c : ascii) : bool := negb (Ascii.eqb c "010").
Definition any (_ : ascii) : bool := true.

Inductive greed := Greedy | Lazy.

Inductive regex :=
| Eps
| Bol                                   (* ^ (no MULTILINE) *)
| Cls (p : ascii -> bool)               (* one character of a class *)
| Seq (r1 r2 : regex)
| Alt (r1 r2 : regex)                   (* r1 tried first *)
| Star (g : greed) (r : regex)          (* r* and r*? *)
| Grp (n : nat) (r : regex).            (* capturing group number n *)

Definition Chr (c : ascii) : regex := Cls (Ascii.eqb c).
Fixpoint Lit (s : string) : regex :=
  match s with
  | "" => Eps
  | String c s' => Seq (Chr c) (Lit s')
  end.
(** [r+] is [r] followed by [r*]; [r?] prefers [r] to nothing. *)
Definition Plus (g : greed) (r : regex) : regex := Seq r (Star g r).
Definition Opt (r : regex) : regex := Alt r Eps.

(** A position of the matcher: whether it is the start of the subject,
    what is left of the subject, and the groups captured so far (the most
    recent capture of a group first). *)
Record mstate := MState {
  bos : bool;
  rest : string;
  caps : list (nat * string)
}.

Definition advance (st : mstate) (s' : string) : mstate :=
  MState false s' (caps st).

Definition set_cap (n : nat) (from : string) (st : mstate) : mstate :=
  MState (bos st) (rest st)
    ((n, str_take (String.length from - String.length (rest st)) from) :: caps st).

Definition progress (st st' : mstate) : bool :=
  String.length (rest st') <? String.length (rest st).

(** The iterations of a repeat: every result of one more round of [step]
    that consumed something, then (greedy) or after (lazy) stopping here. *)
Fixpoint star_loop (g : greed) (step : mstate -> list mstate)
    (fuel : nat) (st : mstate) : list mstate :=
  match fuel with
  | 0 => [st]
  | S fuel' =>
      let more :=
        flat_map (star_loop g step fuel') (List.filter (progress st) (step st)) in
      match g with
      | Greedy => more ++ [st]
      | Lazy => st :: more
      end
  end.

(** All the ways [r] matches at [st], in the order in which the
    backtracking matcher tries them. The first one is the match. *)
Fixpoint matches (r : regex) (st : mstate) : list mstate :=
  match r with
  | Eps => [st]
  | Bol => if bos st then [st] else []
  | Cls p =>
      match rest st with
      | String c s' => if p c then [advance st s'] else []
      | "" => []
      end
  | Seq r1 r2 => flat_map (matches r2) (matches r1 st)
  | Alt r1 r2 => matches r1 st ++ matches r2 st
  | Star g r1 => star_loop g (matches r1) (S (String.length (rest st))) st
  | Grp n r1 => map (set_cap n (rest st)) (matches r1 st)
  end.

(** A match object: [group(0)] and the captured groups. *)
Record rmatch := RMatch {
  group0 : string;
  groups : list (nat * string)
}.

Fixpoint assoc (n : nat) (l : list (nat * string)) : option string :=
  match l with
  | [] => None
  | (k, v) :: l' => if n =? k then Some v else assoc n l'
  end.

(** [m.group(n)]: [None] when the group took no part in the match. *)
Definition group (m : rmatch) (n : nat) : option string := assoc n (groups m).

Definition mk_match (s : string) (st : mstate) : rmatch * nat :=
  let n := String.length s - String.length (rest st) in
  (RMatch (str_take n s) (caps st), n).

(** The match that starts exactly here, with its length. [nonempty] asks
    for the first way that consumes something. *)
Definition match_here (r : regex) (nonempty : bool) (b : bool) (s : string)
    : option (rmatch * nat) :=
  let st := MState b s [] in
  let ways := matches r st in
  match (if nonempty then List.filter (progress st) ways else ways) with
  | [] => None
  | st' :: _ => Some (mk_match s st')
  end.

(** [re.search]: the match at the leftmost position that has one. *)
Fixpoint search_from (r : regex) (b : bool) (s : string) : option rmatch :=
  match match_here r false b s with
  | Some (m, _) => Some m
  | None =>
      match s with
      | "" => None
      | String _ s' => search_from r false s'
      end
  end.

Definition search (r : regex) (s : string) : option rmatch :=
  search_from r true s.

Section Sub.
Context {St : Type}.
Variable r : regex.
(** The replacement callback, with the state it may update. *)
Variable repl : rmatch -> St -> string * St.

Definition prepend (out : string) (p : string * St) : string * St :=
  (out +:+ fst p, snd p).

(** [re.sub] with a callable, left to right. [skip] characters still
    belong to the match found last. Where a match is empty its
    replacement is emitted and a non-empty match is looked for at the
    same place before the character there is copied. *)
Fixpoint sub_from (b : bool) (skip : nat) (s : string) (acc : St)
    : string * St :=
  match skip, s with
  | S k, String _ s' => sub_from false k s' acc
  | S _, "" => ("", acc)
  | 0, _ =>
      (* the text after a match of [n] characters replaced by [out] *)
      let after n out acc :=
        match n, s with
        | S k, String _ s' => prepend out (sub_from false k s' acc)
        | _, String c s' =>
            prepend (out +:+ String c "") (sub_from false 0 s' acc)
        | _, "" => (out, acc)
        end in
      match match_here r false b s with
      | None => after 0 "" acc
      | Some (m, S k) => let '(out, acc1) := repl m acc in after (S k) out acc1
      | Some (m, 0) =>
          let '(out, acc1) := repl m acc in
          match match_here r true b s with
          | Some (m2, n2) =>
              let '(out2, acc2) := repl m2 acc1 in after n2 (out +:+ out2) acc2
          | None => after 0 out acc1
          end
      end
  end.

Definition sub_st (s : string) (acc : St) : string * St :=
  sub_from true 0 s acc.
End Sub.

(** [re.sub] with a callable that keeps no state. *)
Definition sub (r : regex) (repl : rmatch -> string) (s : string) : string :=
  fst (sub_st r (fun m (_ : unit) => (repl m, tt)) s tt).

(** [pattern.findall] for a pattern with one group: the group of every
    match, in order (the empty string where it took no part). *)
Definition findall (r : regex) (s : string) : list string :=
  snd (sub_st r (fun m acc => ("", acc ++ [default "" (group m 1)])) s []).

End Re.

Import Re.

Declare Scope regex_scope.
Delimit Scope regex_scope with re.
Bind Scope regex_scope with regex.
Infix ">>" := Seq (at level 60, right associativity) : regex_scope.

(** ** The patterns of the scripts *)

(** [tags_block_pattern], written [tags_block_source] in the scripts *)
Definition tags_block_source : string := "tags:\s*(-\s+\w+\s*)+".
Definition tags_item : regex :=
  (Chr "-" >> Plus Greedy (Cls is_space) >> Plus Greedy (Cls is_word)
   >> Star Greedy (Cls is_space))%re.
Definition tags_block_pattern : regex :=
  (Lit "tags:" >> Star Greedy (Cls is_space) >> Plus Greedy (Grp 1 tags_item))%re.

(** [tag_pattern] *)
Definition tag_source : string := "-\s+(\S+)".
Definition tag_pattern : regex :=
  (Chr "-" >> Plus Greedy (Cls is_space) >> Grp 1 (Plus Greedy (Cls not_space)))%re.

(** [md_header_pattern], compiled with [re.DOTALL] *)
Definition md_header_source : string := "^---\n.*?\n---\n".
Definition md_header_pattern : regex :=
  (Bol >> Lit ("---" +:+ LF) >> Star Lazy (Cls any) >> Lit (LF +:+ "---" +:+ LF))%re.

(** [link_pattern] *)
Definition link_source : string := "\[\[(.*?)(?:#(.*?))?(?:\|(.*?))?\]\]".
Definition link_pattern : regex :=
  (Lit "[[" >> Grp 1 (Star Lazy (Cls dot))
   >> Opt (Chr "#" >> Grp 2 (Star Lazy (Cls dot)))
   >> Opt (Chr "|" >> Grp 3 (Star Lazy (Cls dot)))
   >> Lit "]]")%re.

(** [image_pattern] *)
Definition image_source : string := "!\[(.*?)\]\((.*?)\)".
Definition image_pattern : regex :=
  (Lit "![" >> Grp 1 (Star Lazy (Cls dot)) >> Lit "]("
   >> Grp 2 (Star Lazy (Cls dot)) >> Chr ")")%re.

(** The pattern of the [re.search] in [build_existing_ids_map] *)
Definition id_source : string := ":ID:\s+(\S+)".
Definition id_pattern : regex :=
  (Lit ":ID:" >> Plus Greedy (Cls is_space) >> Grp 1 (Plus Greedy (Cls not_space)))%re.

(** ** Python values in conditions and f-strings *)

(** [if x:] for [x] a group: neither [None] nor empty. *)
Definition truthy (x : option string) : bool :=
  match x with
  | Some (String _ _) => true
  | _ => false
  end.

(** [f"{x}"] *)
Definition fmt (x : option string) : string := default "None" x.

Definition nonempty (s : string) : bool :=
  match s with "" => false | _ => true end.

(** [os.path.splitext(name)[0]] for a file name without directory part:
    the name up to its last dot, unless only dots come before that dot. *)
Fixpoint rindex_dot (s : string) : option nat :=
  match s with
  | "" => None
  | String c s' =>
      match rindex_dot s' with
      | Some i => Some (S i)
      | None => if Ascii.eqb c "." then Some 0 else None
      end
  end.

Definition splitext_root (name : string) : string :=
  match rindex_dot name with
  | Some i =>
      if str_forall (Ascii.eqb ".") (str_take i name) then name
      else str_take i name
  | None => name
  end.

(** [name.endswith(suffix)] *)
Definition endswith (name suffix : string) : bool :=
  String.eqb (str_drop (String.length name - String.length suffix) name) suffix.

(** ** What [main] is given *)

(** [sys.argv[1]] names a directory, whose files [os.walk] meets in the
    order of [files], or one file, or neither. A file is given by what
    the script reads of it ([A]). *)
Inductive input (A : Type) :=
| Directory (files : list A)
| File (f : A)
| Neither.
Arguments Directory {A} files.
Arguments File {A} f.
Arguments Neither {A}.

Definition message : string :=
  "Please provide a valid Markdown file or directory.".

(** ** Obsidian-To-Roam/obsidian-to-roam.py *)

Module Roam.

(** [uuid.uuid4()] is an input: the token the run drew for this note. *)
Definition generate_org_roam_header (file_path tags unique_id : string)
    : string * string :=
  let title := splitext_root file_path in
  let header :=
    ":PROPERTIES:" +:+ LF +:+ ":ID: " +:+ unique_id +:+ LF +:+ ":END:" +:+ LF
    +:+ "#+title: " +:+ title +:+ LF
    +:+ "#+ROAM_TAGS: " +:+ (if nonempty tags then tags else "") +:+ LF +:+ LF in
  (header, unique_id).

(** The callback assigns the [nonlocal] variable [tags], the state here. *)
Definition transform_tags_block (m : rmatch) (tags : string) : string * string :=
  let tags_block := group0 m in
  let tag_list := findall tag_pattern tags_block in
  ("", ":" +:+ join ":" tag_list +:+ ":").

Definition extract_and_convert_tags (content : string) : string * string :=
  sub_st tags_block_pattern transform_tags_block content "".

Definition remove_md_header (content : string) : string :=
  sub md_header_pattern (fun _ => "") content.

Definition transform_link (existing_ids : gmap string string) (m : rmatch)
    : string :=
  let target := group m 1 in
  let subheading := group m 2 in
  let alias := group m 3 in
  match target ≫= (existing_ids !!.) with
  | Some id =>
      let id_link := "id:" +:+ id in
      let id_link :=
        if truthy subheading then id_link +:+ "::" +:+ fmt subheading
        else id_link in
      let display_text := if truthy alias then alias else target in
      "[[" +:+ id_link +:+ "][" +:+ fmt display_text +:+ "]]"
  | None => group0 m
  end.

Definition transform_image (m : rmatch) : string :=
  let alt_text := group m 1 in
  let image_path := group m 2 in
  "[[file:" +:+ fmt image_path +:+ "][" +:+ fmt alt_text +:+ "]]".

Definition convert_links_and_images (content : string)
    (existing_ids : gmap string string) : string :=
  let content := sub link_pattern (transform_link existing_ids) content in
  let content := sub image_pattern transform_image content in
  content.

(** The files met by [os.walk(out_dir)], in order, each with its name and
    its content. *)
Fixpoint scan_files (files : list (string * string))
    (existing_ids : gmap string string) : gmap string string :=
  match files with
  | [] => existing_ids
  | (file, content) :: files' =>
      let existing_ids :=
        if endswith file ".org" then
          match search id_pattern content with
          | Some id_match =>
              let title := splitext_root file in
              match group id_match 1 with
              | Some id => <[title := id]> existing_ids
              | None => existing_ids
              end
          | None => existing_ids
          end
        else existing_ids in
      scan_files files' existing_ids
  end.

Definition build_existing_ids_map (files : list (string * string))
    : gmap string string :=
  scan_files files ∅.

Section Driver.
(** The external renderer, from the text handed to it to the text of the
    file it writes. *)
Variable pandoc : string -> string.

(** One note: the name of its file, its content and the identifier
    drawn for it. The result is the output file (name and content) and
    the updated index. *)
Definition convert_file (md_file content unique_id : string)
    (existing_ids : gmap string string)
    : (string * string) * gmap string string :=
  let org_file := splitext_root md_file +:+ ".org" in
  let '(content, tags) := extract_and_convert_tags content in
  let content := remove_md_header content in
  let content := convert_links_and_images content existing_ids in
  let content := pandoc content in
  let '(header, unique_id) := generate_org_roam_header org_file tags unique_id in
  let content := header +:+ content in
  ((org_file, content), <[splitext_root md_file := unique_id]> existing_ids).

(** The loop of [main] over the notes of the input directory. *)
Fixpoint convert_all (notes : list (string * string * string))
    (existing_ids : gmap string string)
    : list (string * string) * gmap string string :=
  match notes with
  | [] => ([], existing_ids)
  | (md_file, content, unique_id) :: notes' =>
      let '(out, existing_ids) :=
        convert_file md_file content unique_id existing_ids in
      let '(outs, existing_ids) := convert_all notes' existing_ids in
      (out :: outs, existing_ids)
  end.

(** The loop of [main] over every file of the input directory: name,
    content, and the identifier that is drawn if the file is converted. *)
Fixpoint walk (files : list (string * string * string))
    (existing_ids : gmap string string)
    : list (string * string) * gmap string string :=
  match files with
  | [] => ([], existing_ids)
  | (file, content, unique_id) :: files' =>
      if endswith file ".md" then
        let '(out, existing_ids) :=
          convert_file file content unique_id existing_ids in
        let '(outs, existing_ids) := walk files' existing_ids in
        (out :: outs, existing_ids)
      else walk files' existing_ids
  end.

(** [main]: the files written and the index at the end, or the message
    printed. [out_dir] is what [os.walk("out/")] meets before the run. *)
Definition main (out_dir : list (string * string))
    (input_path : input (string * string * string))
    : list (string * string) * gmap string string + string :=
  let existing_ids := build_existing_ids_map out_dir in
  match input_path with
  | Directory files => inl (walk files existing_ids)
  | File (name, content, unique_id) =>
      if endswith name ".md" then
        let '(out, existing_ids) :=
          convert_file name content unique_id existing_ids in
        inl ([out], existing_ids)
      else inr message
  | Neither => inr message
  end.
End Driver.

End Roam.

(** ** Obsidian-To-Org/obsidian-to-org.py *)

Module Org.

Definition transform_tags_block (m : rmatch) (filetags : string) : string * string :=
  let tags_block := group0 m in
  let tag_list := findall tag_pattern tags_block in
  ("", "#+FILETAGS: " +:+ join " " (map (fun tag => ":" +:+ tag +:+ ":") tag_list)).

Definition extract_and_convert_tags (content : string) : string * string :=
  sub_st tags_block_pattern transform_tags_block content "".

Definition remove_md_header (content : string) : string :=
  sub md_header_pattern (fun _ => "") content.

Definition transform_link (m : rmatch) : string :=
  let target := group m 1 in
  let subheading := group m 2 in
  let alias := group m 3 in
  let org_link := "[[" +:+ fmt target +:+ "]]" in
  let org_link :=
    if truthy subheading
    then "[[" +:+ fmt target +:+ "::" +:+ fmt subheading +:+ "]]"
    else org_link in
  let org_link :=
    if truthy alias
    then (if truthy subheading
          then "[[" +:+ fmt target +:+ "::" +:+ fmt subheading +:+ "]["
               +:+ fmt alias +:+ "]]"
          else "[[" +:+ fmt target +:+ "][" +:+ fmt alias +:+ "]]")
    else org_link in
  org_link.

Definition convert_links (content : string) : string :=
  sub link_pattern transform_link content.

Section Driver.
Variable pandoc : string -> string.

(** One note: the name of its file and its content; the result is the
    output file. *)
Definition convert_file (md_file content : string) : string * string :=
  let org_file := splitext_root md_file +:+ ".org" in
  let '(content, filetags) := extract_and_convert_tags content in
  let content := remove_md_header content in
  let content := convert_links content in
  let content := pandoc content in
  let content :=
    if nonempty filetags then filetags +:+ LF +:+ LF +:+ content else content in
  (org_file, content).

Fixpoint walk (files : list (string * string)) : list (string * string) :=
  match files with
  | [] => []
  | (file, content) :: files' =>
      if endswith file ".md" then convert_file file content :: walk files'
      else walk files'
  end.

Definition main (input_path : input (string * string))
    : list (string * string) + string :=
  match input_path with
  | Directory files => inl (walk files)
  | File (name, content) =>
      if endswith name ".md" then inl [convert_file name content]
      else inr message
  | Neither => inr message
  end.
End Driver.

End Org.

(** ** obsidian-to-org.py *)

Module Root.

Definition generate_org_roam_header (file_path tags unique_id : string) : string :=
  let title := splitext_root file_path in
  let tags_line :=
    if nonempty tags then "#+filetags: " +:+ tags else "#+filetags:" in
  "#+title: " +:+ title +:+ LF +:+ tags_line +:+ LF +:+ "#+roam_aliases: " +:+ LF
  +:+ "#+id: " +:+ unique_id +:+ LF +:+ LF.

Definition extract_and_convert_tags : string -> string * string :=
  Roam.extract_and_convert_tags.

Definition remove_md_header : string -> string := Roam.remove_md_header.

Section Driver.
Variable pandoc : string -> string.

(** One note: the name of its file, its content and the identifier
    drawn for it. This script rewrites no links. *)
Definition convert_file (md_file content unique_id : string) : string * string :=
  let org_file := splitext_root md_file +:+ ".org" in
  let '(content, tags) := extract_and_convert_tags content in
  let content := remove_md_header content in
  let content := pandoc content in
  let header := generate_org_roam_header org_file tags unique_id in
  let content := header +:+ content in
  (org_file, content).

Fixpoint walk (files : list (string * string * string)) : list (string * string) :=
  match files with
  | [] => []
  | (file, content, unique_id) :: files' =>
      if endswith file ".md" then convert_file file content unique_id :: walk files'
      else walk files'
  end.

Definition main (input_path : input (string * string * string))
    : list (string * string) + string :=
  match input_path with
  | Directory files => inl (walk files)
  | File (name, content, unique_id) =>
      if endswith name ".md" then inl [convert_file name content unique_id]
      else inr message
  | Neither => inr message
  end.
End Driver.

End Root.

(** ** Shapes of text, used to state the properties *)

Fixpoint take_while (p : ascii -> bool) (s : string) : string :=
  match s with
  | String c s' => if p c then String c (take_while p s') else ""
  | "" => ""
  end.

Fixpoint drop_while (p : ascii -> bool) (s : string) : string :=
  match s with
  | String c s' => if p c then drop_while p s' else s
  | "" => ""
  end.

Definition starts_with (p : ascii -> bool) (s : string) : bool :=
  match s with
  | String c _ => p c
  | "" => false
  end.

(** The character [c] occurs nowhere in [s]. *)
Definition lacks (c : ascii) (s : string) : bool :=
  str_forall (fun x => negb (Ascii.eqb c x)) s.

(** [s] starts a list item that the tags pattern accepts: a hyphen,
    whitespace, a word character. *)
Definition tags_item_at (s : string) : bool :=
  match s with
  | String c s1 =>
      Ascii.eqb "-" c && starts_with is_space s1
      && starts_with is_word (drop_while is_space s1)
  | "" => false
  end.

(** What is left of [s] after the list item it starts. *)
Definition item_end (s : string) : string :=
  drop_while is_space (drop_while is_word (drop_while is_space (str_drop 1 s))).

(** [items_to s s']: the list items that [s] starts, one after the other
    and as many as there are, end where [s'] starts. *)
Inductive items_to : string -> string -> Prop :=
| items_stop s : tags_item_at s = false -> items_to s s
| items_more s s' :
    tags_item_at s = true -> items_to (item_end s) s' -> items_to s s'.

(** [s] starts a tags block: [tags:], optional whitespace, a list item. *)
Definition tags_block_at (s : string) : bool :=
  String.prefix "tags:" s && tags_item_at (drop_while is_space (str_drop 5 s)).

(** A tags block starts somewhere in [s]. *)
Fixpoint has_tags_block (s : string) : bool :=
  tags_block_at s
  || match s with
     | String _ s' => has_tags_block s'
     | "" => false
     end.

(** No tags block starts inside [pre] when [s] follows it. *)
Fixpoint no_tags_start (pre s : string) : bool :=
  match pre with
  | "" => true
  | String _ pre' => negb (tags_block_at (pre +:+ s)) && no_tags_start pre' s
  end.

(** A list item as written: the hyphen, the whitespace [lead], the tag
    [word] and the whitespace [trail] up to the next item. *)
Record tag_item := TagItem { lead : string; word : string; trail : string }.

Definition item_text (i : tag_item) : string :=
  "-" +:+ lead i +:+ word i +:+ trail i.

Fixpoint items_text (l : list tag_item) : string :=
  match l with
  | [] => ""
  | i :: l' => item_text i +:+ items_text l'
  end.

(** A tags block as written: [tags:], the whitespace [gap], the items. *)
Record tags_block := TagsBlock { gap : string; items : list tag_item }.

Definition block_text (B : tags_block) : string :=
  "tags:" +:+ gap B +:+ items_text (items B).

Definition item_ok (i : tag_item) : bool :=
  nonempty (lead i) && str_forall is_space (lead i)
  && nonempty (word i) && str_forall is_word (word i)
  && str_forall is_space (trail i).

(** Whitespace stands between an item and the next one. *)
Fixpoint separated (l : list tag_item) : bool :=
  match l with
  | i :: (_ :: _) as l' => nonempty (trail i) && separated l'
  | _ => true
  end.

Definition block_ok (B : tags_block) : bool :=
  str_forall is_space (gap B)
  && negb (Nat.eqb (List.length (items B)) 0)
  && forallb item_ok (items B) && separated (items B).

(** The whitespace after the last item of [l]. *)
Fixpoint last_trail (l : list tag_item) : string :=
  match l with
  | [] => ""
  | [i] => trail i
  | _ :: l' => last_trail l'
  end.

(** The block ends before [post]: no whitespace, no further item and no
    further character of the last word comes next. *)
Definition block_ends (B : tags_block) (post : string) : bool :=
  negb (starts_with is_space post) && negb (tags_item_at post)
  && (nonempty (last_trail (items B)) || negb (starts_with is_word post)).

Definition tag_words (B : tags_block) : list string := map word (items B).

(** A text as a sequence of tags blocks, each with the text after it. *)
Fixpoint doc_text (blocks : list (tags_block * string)) : string :=
  match blocks with
  | [] => ""
  | (B, t) :: bs => block_text B +:+ t +:+ doc_text bs
  end.

Fixpoint doc_ok (blocks : list (tags_block * string)) : bool :=
  match blocks with
  | [] => true
  | (B, t) :: bs =>
      block_ok B && block_ends B (t +:+ doc_text bs)
      && no_tags_start t (doc_text bs) && doc_ok bs
  end.

(** The text between the blocks. *)
Fixpoint doc_body (blocks : list (tags_block * string)) : string :=
  match blocks with
  | [] => ""
  | (_, t) :: bs => t +:+ doc_body bs
  end.

Fixpoint last_block (blocks : list (tags_block * string)) : option tags_block :=
  match blocks with
  | [] => None
  | [(B, _)] => Some B
  | _ :: bs => last_block bs
  end.

(** The delimiters of a front-matter header, as the header pattern reads
    them: the opening line and the closing line with the line end before
    it. *)
Definition OPEN : string := "---" +:+ LF.
Definition CLOSE : string := LF +:+ "---" +:+ LF.

(** What follows the first closing delimiter in [s]. *)
Fixpoint after_close (s : string) : option string :=
  if String.prefix CLOSE s then Some (str_drop 5 s)
  else match s with
       | String _ s' => after_close s'
       | "" => None
       end.

(** [s] starts with a delimited header. *)
Definition header_at (s : string) : bool :=
  String.prefix OPEN s
  && match after_close (str_drop 4 s) with Some _ => true | None => false end.

(** [s.split("\n")] *)
Fixpoint lines (s : string) : list string :=
  match s with
  | "" => [""]
  | String c s' =>
      if Ascii.eqb c "010" then "" :: lines s'
      else match lines s' with
           | l :: ls => String c l :: ls
           | [] => [String c ""]
           end
  end.

(** A line of [s] consists solely of three hyphens. *)
Definition has_dash_line (s : string) : bool :=
  existsb (String.eqb "---") (lines s).

(** [re.finditer]: the matches that [re.sub] replaces, in order. *)
Definition finditer (r : regex) (s : string) : list rmatch :=
  snd (sub_st r (fun m acc => ("", acc ++ [m])) s []).

(** A wiki-link as written: [[[target#subheading|alias]]], the last two
    parts optional. *)
Definition sub_text (subheading : option string) : string :=
  match subheading with
  | Some s => "#" +:+ s
  | None => ""
  end.

Definition alias_text (alias : option string) : string :=
  match alias with
  | Some a => "|" +:+ a
  | None => ""
  end.

Definition wikilink (target : string) (subheading alias : option string) : string :=
  "[[" +:+ target +:+ sub_text subheading +:+ alias_text alias +:+ "]]".

(** The characters a part may hold so that the link reads only one way:
    no line end; in the target no [#], [|] or []]; in the subheading no
    [|] or []]; in the alias no []]. *)
Definition alias_char (c : ascii) : bool := dot c && negb (Ascii.eqb "]" c).
Definition sub_char (c : ascii) : bool := alias_char c && negb (Ascii.eqb "|" c).
Definition target_char (c : ascii) : bool := sub_char c && negb (Ascii.eqb "#" c).

Definition opt_forall (p : ascii -> bool) (x : option string) : bool :=
  match x with
  | Some s => str_forall p s
  | None => true
  end.

Definition link_ok (target : string) (subheading alias : option string) : bool :=
  str_forall target_char target && opt_forall sub_char subheading
  && opt_forall alias_char alias.

(** [pre] holds no two opening brackets in a row and does not end with
    one: no wiki-link starts in it, whatever follows. *)
Fixpoint free_of_open (pre : string) : bool :=
  match pre with
  | "" => true
  | String c pre' =>
      negb (Ascii.eqb "[" c
            && match pre' with
               | "" => true
               | String c' _ => Ascii.eqb "[" c'
               end)
      && free_of_open pre'
  end.

(** * Vocabulary of the proofs *)

(** What a state starts with, and that it kept the captures [cs]. *)
Definition at_class (p : ascii -> bool) (cs : list (nat * string)) (st : mstate) : Prop :=
  starts_with p (rest st) = true /\ caps st = cs.

(** No match of [r] starts inside [pre] when [s] follows it. *)
Fixpoint quiet (r : regex) (b : bool) (pre s : string) : Prop :=
  match pre with
  | "" => True
  | String c pre' =>
      match_here r false b (pre +:+ s) = None /\ quiet r false pre' s
  end.

(** The matches replaced at one place, and the characters they take. *)
Definition step_matches (r : regex) (b : bool) (s : string) : list rmatch * nat :=
  match match_here r false b s with
  | None => ([], 0)
  | Some (m, S k) => ([m], S k)
  | Some (m, 0) =>
      match match_here r true b s with
      | Some (m2, n2) => ([m; m2], n2)
      | None => ([m], 0)
      end
  end.

(** The texts of matches, one after the other. *)
Fixpoint texts (ms : list rmatch) : string :=
  match ms with
  | [] => ""
  | m :: ms' => group0 m +:+ texts ms'
  end.

(** The callback run over the matches of one place, the state threaded
    through. *)
Fixpoint fold_repl {St : Type} (repl : rmatch -> St -> string * St)
    (ms : list rmatch) (acc : St) : string * St :=
  match ms with
  | [] => ("", acc)
  | m :: ms' =>
      prepend (fst (repl m acc)) (fold_repl repl ms' (snd (repl m acc)))
  end.

(** The callback of [finditer]: it collects the matches. *)
Definition keep (m : rmatch) (acc : list rmatch) : string * list rmatch :=
  ("", acc ++ [m]).

(** The callback of [findall]: it collects the first group. *)
Definition collect (m : rmatch) (acc : list string) : string * list string :=
  ("", acc ++ [default "" (group m 1)]).

(** Callbacks that drop the match; the second sets the state. *)
Definition drop_match (_ : rmatch) (_ : unit) : string * unit := ("", tt).

Definition set_state {St : Type} (g : rmatch -> St) (m : rmatch) (_ : St)
    : string * St :=
  ("", g m).

(** Both scripts' callbacks for a tags block drop the block and set the
    state to a rendering of the tags found in it. *)
Definition tags_callback (render : list string -> string) (m : rmatch)
    (_ : string) : string * string :=
  ("", render (findall tag_pattern (group0 m))).

Definition roam_render (tag_list : list string) : string :=
  ":" +:+ join ":" tag_list +:+ ":".

Definition org_render (tag_list : list string) : string :=
  "#+FILETAGS: " +:+ join " " (map (fun tag => ":" +:+ tag +:+ ":") tag_list).

(** The link pattern after its target, in three steps. *)
Definition link_close : regex := Lit "]]".
Definition link_alias : regex :=
  (Opt (Chr "|" >> Grp 3 (Star Lazy (Cls dot))) >> link_close)%re.
Definition link_sub : regex :=
  (Opt (Chr "#" >> Grp 2 (Star Lazy (Cls dot))) >> link_alias)%re.

(** The groups a wiki-link sets. *)
Definition alias_caps (alias : option string) (cs : list (nat * string)) :=
  match alias with
  | Some a => (3, a) :: cs
  | None => cs
  end.

Definition sub_caps (subheading : option string) (cs : list (nat * string)) :=
  match subheading with
  | Some s => (2, s) :: cs
  | None => cs
  end.

Definition link_caps (target : string) (subheading alias : option string)
    : list (nat * string) :=
  alias_caps alias (sub_caps subheading [(1, target)]).

(** The target of the match is not a key of the index. *)
Definition unresolved (existing_ids : gmap string string) (m : rmatch) : bool :=
  match group m 1 ≫= (existing_ids !!.) with
  | Some _ => false
  | None => true
  end.

(** The identifier drawn for the last of [notes] whose title is [t]. *)
Fixpoint last_id (t : string) (notes : list (string * string * string))
    : option string :=
  match notes with
  | [] => None
  | (md_file, _, unique_id) :: notes' =>
      match last_id t notes' with
      | Some u => Some u
      | None => if String.eqb (splitext_root md_file) t then Some unique_id else None
      end
  end.

(** The token that [\s+(\S+)] reads at the start of [s], and whether
    there is one: whitespace, then a character that is none. *)
Definition token_at (s : string) : bool :=
  starts_with is_space s && starts_with not_space (drop_while is_space s).

Definition token_of (s : string) : string :=
  take_while not_space (drop_while is_space s).

(** What an identifier or a tag is: not empty, no whitespace. *)
Definition is_token (u : string) : bool :=
  nonempty u && str_forall not_space u.

(** The identifier that the Index Builder reads in [content]: the token
    after the first [:ID:] that has one. *)
Fixpoint first_id (content : string) : option string :=
  if String.prefix ":ID:" content && token_at (str_drop 4 content)
  then Some (token_of (str_drop 4 content))
  else match content with
       | String _ content' => first_id content'
       | "" => None
       end.

(** The identifier read in the last of [files] that is an [.org] file of
    title [t] and holds an identifier. *)
Fixpoint last_scanned (t : string) (files : list (string * string))
    : option string :=
  match files with
  | [] => None
  | (file, content) :: files' =>
      match last_scanned t files' with
      | Some u => Some u
      | None =>
          if endswith file ".org" && String.eqb (splitext_root file) t
          then first_id content
          else None
      end
  end.

(** The files that [main] converts, and the name of the file written. *)
Definition md_note (n : string * string * string) : bool :=
  endswith (fst (fst n)) ".md".

Definition md_name (n : string * string) : bool := endswith (fst n) ".md".

Definition org_name (md_file : string) : string :=
  splitext_root md_file +:+ ".org".

(** The identifier drawn for a note is a token, as [uuid.uuid4()] gives. *)
Definition uid_ok (n : string * string * string) : bool := is_token (snd n).

(** A text as a sequence of wiki-links, each with the text before it,
    and the text after the last one. *)
Record link_seg := LinkSeg {
  seg_before : string;
  seg_target : string;
  seg_sub : option string;
  seg_alias : option string
}.

Fixpoint links_text (l : list link_seg) (tail : string) : string :=
  match l with
  | [] => tail
  | g :: l' =>
      seg_before g +:+ wikilink (seg_target g) (seg_sub g) (seg_alias g)
      +:+ links_text l' tail
  end.

Definition seg_ok (g : link_seg) : bool :=
  free_of_open (seg_before g)
  && link_ok (seg_target g) (seg_sub g) (seg_alias g).

(** The same text with every link replaced by [f] of its parts. *)
Fixpoint links_render (f : string -> option string -> option string -> string)
    (l : list link_seg) (tail : string) : string :=
  match l with
  | [] => tail
  | g :: l' =>
      seg_before g +:+ f (seg_target g) (seg_sub g) (seg_alias g)
      +:+ links_render f l' tail
  end.

(** The Org link of the plain script, and of the identifier-resolving
    script under an index. An empty subheading or alias is left out. *)
Definition org_link (target : string) (subheading alias : option string) : string :=
  "[[" +:+ target
  +:+ (if truthy subheading then "::" +:+ fmt subheading else "")
  +:+ (if truthy alias then "][" +:+ fmt alias else "")
  +:+ "]]".

Definition roam_link (existing_ids : gmap string string)
    (target : string) (subheading alias : option string) : string :=
  match existing_ids !! target with
  | Some U =>
      "[[id:" +:+ U
      +:+ (if truthy subheading then "::" +:+ fmt subheading else "")
      +:+ "][" +:+ (if truthy alias then fmt alias else target) +:+ "]]"
  | None => wikilink target subheading alias
  end.

(** A Markdown image as written, and the characters its parts may hold
    so that it reads only one way. *)
Definition image (alt path : string) : string :=
  "![" +:+ alt +:+ "](" +:+ path +:+ ")".

Definition path_char (c : ascii) : bool := dot c && negb (Ascii.eqb ")" c).

Definition image_ok (alt path : string) : bool :=
  str_forall alias_char alt && str_forall path_char path.

(** The marker [:ID:] stands somewhere in [s]. *)
Fixpoint holds_id_marker (s : string) : bool :=
  String.prefix ":ID:" s
  || match s with
     | String _ s' => holds_id_marker s'
     | "" => false
     end.

(** The titles of the [.org] files of a directory, and that no two
    members of a list are the same. *)
Definition is_org (f : string * string) : bool := endswith (fst f) ".org".

Definition org_titles (dir : list (string * string)) : list string :=
  map (fun f => splitext_root (fst f)) (List.filter is_org dir).

Fixpoint distinct (l : list string) : bool :=
  match l with
  | [] => true
  | x :: l' => negb (existsb (String.eqb x) l') && distinct l'
  end.










(** * Lemmas *)

#[local] Arguments String.append : simpl nomatch.

(** * Properties *)

(** ** Strings *)

Lemma sapp_nil_r (s : string) : s +:+ "" = s.
Proof. induction s as [|c s IH]; simpl; [reflexivity | now rewrite IH]. Qed.

Lemma sapp_assoc (a b c : string) : (a +:+ b) +:+ c = a +:+ (b +:+ c).
Proof. induction a as [|x a IH]; simpl; [reflexivity | now rewrite IH]. Qed.

Lemma slength_app (a b : string) :
  String.length (a +:+ b) = String.length a + String.length b.
Proof. induction a as [|x a IH]; simpl; [reflexivity | now rewrite IH]. Qed.

Lemma str_take_app (a b : string) : str_take (String.length a) (a +:+ b) = a.
Proof. induction a as [|x a IH]; simpl; [now destruct b | now rewrite IH]. Qed.

Lemma str_drop_app (a b : string) : str_drop (String.length a) (a +:+ b) = b.
Proof. induction a as [|x a IH]; simpl; [now destruct b | exact IH]. Qed.

Lemma consumed_length (a b : string) :
  String.length (a +:+ b) - String.length b = String.length a.
Proof. rewrite slength_app. lia. Qed.

Lemma str_forall_app (p : ascii -> bool) (a b : string) :
  str_forall p (a +:+ b) = str_forall p a && str_forall p b.
Proof.
  induction a as [|x a IH]; simpl; [reflexivity|].
  rewrite IH. now rewrite andb_assoc.
Qed.

Lemma take_drop_while (p : ascii -> bool) (s : string) :
  take_while p s +:+ drop_while p s = s.
Proof.
  induction s as [|c s IH]; simpl; [reflexivity|].
  destruct (p c); simpl; [now rewrite IH | reflexivity].
Qed.

Lemma take_while_all (p : ascii -> bool) (s : string) :
  str_forall p (take_while p s) = true.
Proof.
  induction s as [|c s IH]; simpl; [reflexivity|].
  destruct (p c) eqn:E; simpl; [now rewrite E | reflexivity].
Qed.


Lemma drop_while_app (p : ascii -> bool) (w s : string) :
  str_forall p w = true -> starts_with p s = false ->
  drop_while p (w +:+ s) = s.
Proof.
  induction w as [|c w IH]; simpl; intros Hw Hs.
  - destruct s as [|c s]; [reflexivity|]. simpl in *. now rewrite Hs.
  - apply andb_prop in Hw as [-> Hw]. auto.
Qed.

Lemma drop_while_none (p : ascii -> bool) (s : string) :
  starts_with p s = false -> drop_while p s = s.
Proof. destruct s as [|c s]; [reflexivity|]. simpl. now intros ->. Qed.

Lemma take_while_app (p : ascii -> bool) (w s : string) :
  str_forall p w = true -> starts_with p s = false ->
  take_while p (w +:+ s) = w.
Proof.
  induction w as [|c w IH]; simpl; intros Hw Hs.
  - destruct s as [|c s]; [reflexivity|]. simpl in *. now rewrite Hs.
  - apply andb_prop in Hw as [-> Hw]. now rewrite IH.
Qed.

(** ** The matcher *)

Lemma flat_map_nil_l {A B} (f : A -> list B) (l : list A) :
  (forall x, In x l -> f x = []) -> flat_map f l = [].
Proof.
  induction l as [|x l IH]; simpl; intros H; [reflexivity|].
  rewrite (H x) by now left. apply IH. intros y Hy. apply H. now right.
Qed.

Lemma flat_map_ext_In {A B} (f g : A -> list B) (l : list A) :
  (forall x, In x l -> f x = g x) -> flat_map f l = flat_map g l.
Proof.
  induction l as [|x l IH]; simpl; intros H; [reflexivity|].
  rewrite (H x) by now left. f_equal. apply IH. intros y Hy. apply H. now right.
Qed.

(** More fuel than the subject is long changes nothing. *)
Lemma star_loop_fuel g step : forall n m st,
  String.length (rest st) < n -> String.length (rest st) < m ->
  star_loop g step n st = star_loop g step m st.
Proof.
  induction n as [|n IH]; intros m st Hn Hm; [lia|].
  destruct m as [|m]; [lia|]. simpl.
  assert (E : flat_map (star_loop g step n) (List.filter (progress st) (step st))
            = flat_map (star_loop g step m) (List.filter (progress st) (step st))).
  { apply flat_map_ext_In. intros st' Hin.
    apply filter_In in Hin as [_ Hp]. unfold progress in Hp.
    apply Nat.ltb_lt in Hp. apply IH; lia. }
  now rewrite E.
Qed.

Lemma matches_star (g : greed) (r : regex) (st : mstate) :
  matches (Star g r) st =
    let more :=
      flat_map (matches (Star g r)) (List.filter (progress st) (matches r st)) in
    match g with
    | Greedy => more ++ [st]
    | Lazy => st :: more
    end.
Proof.
  cbn [matches]. cbn [star_loop].
  assert (E : flat_map (star_loop g (matches r) (String.length (rest st)))
                (List.filter (progress st) (matches r st))
            = flat_map (fun st' => star_loop g (matches r) (S (String.length (rest st'))) st')
                (List.filter (progress st) (matches r st))).
  { apply flat_map_ext_In. intros st' Hin.
    apply filter_In in Hin as [_ Hp]. unfold progress in Hp.
    apply Nat.ltb_lt in Hp. apply star_loop_fuel; lia. }
  cbv zeta. now rewrite E.
Qed.

Lemma matches_seq (r1 r2 : regex) (st : mstate) :
  matches (r1 >> r2) st = flat_map (matches r2) (matches r1 st).
Proof. reflexivity. Qed.

Lemma matches_chr_cons (c x : ascii) (b : bool) (s : string) cs :
  matches (Chr c) (MState b (String x s) cs) =
    if Ascii.eqb c x then [MState false s cs] else [].
Proof. reflexivity. Qed.

Lemma matches_cls_cons p (x : ascii) (b : bool) (s : string) cs :
  matches (Cls p) (MState b (String x s) cs) =
    if p x then [MState false s cs] else [].
Proof. reflexivity. Qed.

(** A literal matches exactly when it is a prefix of what is left. *)
Lemma matches_lit_app (w : string) (b : bool) (s : string) cs :
  matches (Lit w) (MState b (w +:+ s) cs) =
    [MState (b && negb (nonempty w)) s cs].
Proof.
  revert b. induction w as [|c w IH]; intros b; simpl.
  - now rewrite andb_true_r.
  - rewrite Ascii.eqb_refl. unfold advance. simpl. rewrite IH.
    now rewrite andb_false_r.
Qed.

Lemma matches_lit_no (w : string) (st : mstate) :
  String.prefix w (rest st) = false -> matches (Lit w) st = [].
Proof.
  revert st. induction w as [|c w IH]; intros [b s cs]; simpl.
  - now destruct s.
  - destruct s as [|x s]; [reflexivity|]. simpl.
    destruct (Ascii.ascii_dec c x) as [->|Hne].
    + rewrite Ascii.eqb_refl. simpl. intros H. rewrite IH; [reflexivity | exact H].
    + intros _. apply Ascii.eqb_neq in Hne. now rewrite Hne.
Qed.

Lemma prefix_app (w s : string) : String.prefix w (w +:+ s) = true.
Proof.
  induction w as [|c w IH]; simpl; [now destruct s|].
  destruct (Ascii.ascii_dec c c); [exact IH | contradiction].
Qed.

Lemma prefix_split (w s : string) :
  String.prefix w s = true -> s = w +:+ str_drop (String.length w) s.
Proof.
  revert s. induction w as [|c w IH]; intros s; simpl.
  - now destruct s.
  - destruct s as [|x s]; simpl; [discriminate|].
    destruct (Ascii.ascii_dec c x) as [->|]; [|discriminate].
    intros H. now rewrite <- IH.
Qed.

Lemma matches_alt (r1 r2 : regex) (st : mstate) :
  matches (Alt r1 r2) st = matches r1 st ++ matches r2 st.
Proof. reflexivity. Qed.

Lemma matches_eps (st : mstate) : matches Eps st = [st].
Proof. reflexivity. Qed.

Lemma matches_grp (n : nat) (r : regex) (st : mstate) :
  matches (Grp n r) st = map (set_cap n (rest st)) (matches r st).
Proof. reflexivity. Qed.

Lemma progress_cons b c s cs b' cs' :
  progress (MState b (String c s) cs) (MState b' s cs') = true.
Proof. unfold progress. simpl. apply Nat.ltb_lt. lia. Qed.

#[local] Arguments matches : simpl never.
#[local] Arguments Ascii.eqb : simpl never.

(** ** Repeats of one character class *)

Lemma space_not_word (c : ascii) : is_space c = true -> is_word c = false.
Proof. destruct c as [[] [] [] [] [] [] [] []]; vm_compute; congruence. Qed.

Lemma space_not_hyphen (c : ascii) : is_space c = true -> Ascii.eqb "-" c = false.
Proof. destruct c as [[] [] [] [] [] [] [] []]; vm_compute; congruence. Qed.

Lemma word_not_hyphen (c : ascii) : is_word c = true -> Ascii.eqb "-" c = false.
Proof. destruct c as [[] [] [] [] [] [] [] []]; vm_compute; congruence. Qed.

(** A greedy repeat of a class first takes every character of the class;
    each way it can give some back leaves a character of the class next. *)
Lemma star_greedy_cls (p : ascii -> bool) (cs : list (nat * string)) :
  forall (s : string) (b : bool), exists tl,
    matches (Star Greedy (Cls p)) (MState b s cs) =
      MState (b && negb (starts_with p s)) (drop_while p s) cs :: tl
    /\ Forall (at_class p cs) tl.
Proof.
  induction s as [|c s IH]; intros b; rewrite matches_star; cbv zeta.
  - exists []. simpl. rewrite andb_true_r. auto.
  - rewrite matches_cls_cons. simpl. destruct (p c) eqn:E.
    + simpl. rewrite progress_cons. simpl.
      destruct (IH false) as (tl & -> & Htl).
      exists (tl ++ [MState b (String c s) cs]). split.
      * simpl. now rewrite andb_false_r, List.app_nil_r.
      * apply Forall_app. split; [exact Htl|].
        constructor; [|constructor]. split; [exact E | reflexivity].
    + exists []. simpl. rewrite andb_true_r. auto.
Qed.

(** A continuation that fails after a character of the class sees only
    the longest repeat. *)
Lemma star_greedy_cls_then {X} (p : ascii -> bool) (K : mstate -> list X)
    (b : bool) (s : string) (cs : list (nat * string)) :
  (forall st, at_class p cs st -> K st = []) ->
  flat_map K (matches (Star Greedy (Cls p)) (MState b s cs)) =
    K (MState (b && negb (starts_with p s)) (drop_while p s) cs).
Proof.
  intros HK. destruct (star_greedy_cls p cs s b) as (tl & -> & Htl).
  simpl. rewrite flat_map_nil_l; [apply List.app_nil_r|].
  intros st Hin. apply HK. rewrite List.Forall_forall in Htl. now apply Htl.
Qed.

Lemma plus_greedy_cls_then {X} (p : ascii -> bool) (K : mstate -> list X)
    (b : bool) (s : string) (cs : list (nat * string)) :
  (forall st, at_class p cs st -> K st = []) ->
  flat_map K (matches (Plus Greedy (Cls p)) (MState b s cs)) =
    if starts_with p s then K (MState false (drop_while p s) cs) else [].
Proof.
  intros HK. unfold Plus. rewrite matches_seq.
  destruct s as [|c s]; [reflexivity|]. rewrite matches_cls_cons. simpl.
  destruct (p c) eqn:E; [|reflexivity].
  simpl. rewrite List.app_nil_r.
  now rewrite star_greedy_cls_then.
Qed.

Lemma plus_greedy_cls (p : ascii -> bool) (cs : list (nat * string))
    (s : string) (b : bool) :
  starts_with p s = true ->
  exists tl,
    matches (Plus Greedy (Cls p)) (MState b s cs) =
      MState false (drop_while p s) cs :: tl
    /\ Forall (at_class p cs) tl.
Proof.
  intros Hs. unfold Plus. rewrite matches_seq.
  destruct s as [|c s]; [discriminate|]. rewrite matches_cls_cons.
  simpl in *. rewrite Hs. simpl. rewrite List.app_nil_r.
  destruct (star_greedy_cls p cs s false) as (tl & -> & Htl).
  now exists tl.
Qed.

Lemma plus_cls_none g (p : ascii -> bool) (st : mstate) :
  starts_with p (rest st) = false -> matches (Plus g (Cls p)) st = [].
Proof.
  destruct st as [b [|c s] cs]; unfold Plus; rewrite matches_seq.
  - reflexivity.
  - rewrite matches_cls_cons. simpl. now intros ->.
Qed.

(** A lazy repeat of a class stops here first, then one character on. *)
Lemma star_lazy_cls (p : ascii -> bool) (b : bool) (s : string) cs :
  matches (Star Lazy (Cls p)) (MState b s cs) =
    MState b s cs ::
      match s with
      | String c s' =>
          if p c then matches (Star Lazy (Cls p)) (MState false s' cs) else []
      | "" => []
      end.
Proof.
  rewrite matches_star. cbv zeta. destruct s as [|c s]; [reflexivity|].
  rewrite matches_cls_cons. destruct (p c); [|reflexivity].
  simpl. rewrite progress_cons. simpl.
  now rewrite List.app_nil_r.
Qed.

(** ** [re.sub] and [re.search] *)

Section SubFacts.
Context {St : Type}.
Variable r : regex.
Variable repl : rmatch -> St -> string * St.

Lemma prepend_nil (p : string * St) : prepend "" p = p.
Proof. now destruct p. Qed.

Lemma prepend_prepend (a b : string) (p : string * St) :
  prepend a (prepend b p) = prepend (a +:+ b) p.
Proof. unfold prepend. simpl. now rewrite sapp_assoc. Qed.

(** The characters of a match are passed over. *)
Lemma sub_from_skip (w s : string) (acc : St) :
  sub_from r repl false (String.length w) (w +:+ s) acc =
  sub_from r repl false 0 s acc.
Proof. induction w as [|c w IH]; simpl; [now destruct s | exact IH]. Qed.

Lemma sub_from_none_nil (b : bool) (acc : St) :
  match_here r false b "" = None ->
  sub_from r repl b 0 "" acc = ("", acc).
Proof. intros H. simpl. now rewrite H. Qed.

Lemma sub_from_none_cons (b : bool) (c : ascii) (s : string) (acc : St) :
  match_here r false b (String c s) = None ->
  sub_from r repl b 0 (String c s) acc =
  prepend (String c "") (sub_from r repl false 0 s acc).
Proof. intros H. simpl. now rewrite H. Qed.

(** A match that is not empty: its replacement, then the text after it. *)
Lemma sub_from_some (b : bool) (w s : string) (m : rmatch) (acc : St) :
  w <> "" ->
  match_here r false b (w +:+ s) = Some (m, String.length w) ->
  sub_from r repl b 0 (w +:+ s) acc =
  prepend (fst (repl m acc)) (sub_from r repl false 0 s (snd (repl m acc))).
Proof.
  intros Hw H. destruct w as [|c w]; [contradiction|].
  simpl. simpl in H. rewrite H. destruct (repl m acc) as [out acc1].
  simpl. now rewrite sub_from_skip.
Qed.

Lemma sub_from_quiet (pre s : string) : forall (b : bool) (acc : St),
  quiet r b pre s ->
  sub_from r repl b 0 (pre +:+ s) acc =
  prepend pre (sub_from r repl (b && negb (nonempty pre)) 0 s acc).
Proof.
  induction pre as [|c pre IH]; intros b acc Hq.
  - simpl. rewrite andb_true_r. now rewrite prepend_nil.
  - destruct Hq as [Hm Hq]. change (String c pre +:+ s) with (String c (pre +:+ s)).
    rewrite sub_from_none_cons by exact Hm.
    rewrite IH by exact Hq. rewrite prepend_prepend. simpl.
    now rewrite andb_false_r.
Qed.

(** Where [re.search] finds nothing, [re.sub] changes nothing and the
    callback is never called. *)
Lemma sub_from_search_none (s : string) : forall (b : bool) (acc : St),
  search_from r b s = None -> sub_from r repl b 0 s acc = (s, acc).
Proof.
  induction s as [|c s IH]; intros b acc H; simpl in H.
  - destruct (match_here r false b "") as [[m n]|] eqn:E; [discriminate|].
    now apply sub_from_none_nil.
  - destruct (match_here r false b (String c s)) as [[m n]|] eqn:E; [discriminate|].
    rewrite sub_from_none_cons by exact E. now rewrite IH.
Qed.

(** A property of the state that every call of the callback establishes
    holds at the end when it held at the start or a match was found. *)
Variable P : St -> Prop.
Hypothesis repl_P : forall m acc, P (snd (repl m acc)).

Lemma sub_from_keeps (s : string) : forall (b : bool) (skip : nat) (acc : St),
  P acc -> P (snd (sub_from r repl b skip s acc)).
Proof.
  induction s as [|c s IH]; intros b skip acc Hacc.
  - destruct skip as [|k]; simpl; [|exact Hacc].
    destruct (match_here r false b "") as [[m [|n]]|]; simpl; [| |exact Hacc].
    + pose proof (repl_P m acc) as H1. destruct (repl m acc) as [out acc1].
      destruct (match_here r true b "") as [[m2 n2]|].
      * pose proof (repl_P m2 acc1) as H2. destruct (repl m2 acc1) as [out2 acc2].
        now destruct n2.
      * exact H1.
    + pose proof (repl_P m acc) as H1. now destruct (repl m acc).
  - destruct skip as [|k]; simpl; [|now apply IH].
    destruct (match_here r false b (String c s)) as [[m [|n]]|]; simpl.
    + pose proof (repl_P m acc) as H1. destruct (repl m acc) as [out acc1].
      destruct (match_here r true b (String c s)) as [[m2 n2]|].
      * pose proof (repl_P m2 acc1) as H2. destruct (repl m2 acc1) as [out2 acc2].
        destruct n2; simpl; now apply IH.
      * simpl. now apply IH.
    + pose proof (repl_P m acc) as H1. destruct (repl m acc) as [out acc1].
      simpl. now apply IH.
    + now apply IH.
Qed.

Lemma sub_from_found (s : string) : forall (b : bool) (acc : St),
  search_from r b s <> None -> P (snd (sub_from r repl b 0 s acc)).
Proof.
  induction s as [|c s IH]; intros b acc H; simpl in H.
  - simpl. destruct (match_here r false b "") as [[m [|n]]|]; [| |contradiction].
    + pose proof (repl_P m acc) as H1. destruct (repl m acc) as [out acc1].
      destruct (match_here r true b "") as [[m2 n2]|].
      * pose proof (repl_P m2 acc1) as H2. destruct (repl m2 acc1) as [out2 acc2].
        now destruct n2.
      * exact H1.
    + pose proof (repl_P m acc) as H1. now destruct (repl m acc).
  - simpl. destruct (match_here r false b (String c s)) as [[m [|n]]|].
    + pose proof (repl_P m acc) as H1. destruct (repl m acc) as [out acc1].
      destruct (match_here r true b (String c s)) as [[m2 n2]|].
      * pose proof (repl_P m2 acc1) as H2. destruct (repl m2 acc1) as [out2 acc2].
        destruct n2; simpl; now apply sub_from_keeps.
      * simpl. now apply sub_from_keeps.
    + pose proof (repl_P m acc) as H1. destruct (repl m acc) as [out acc1].
      simpl. now apply sub_from_keeps.
    + simpl. now apply IH.
Qed.

End SubFacts.

(** ** The tags block pattern *)

Lemma drop_while_length (p : ascii -> bool) (s : string) :
  String.length (drop_while p s) <= String.length s.
Proof.
  induction s as [|c s IH]; simpl; [lia|]. destruct (p c); simpl; lia.
Qed.

Lemma str_drop_length (n : nat) (s : string) :
  String.length (str_drop n s) <= String.length s.
Proof.
  revert s. induction n as [|n IH]; intros [|c s]; simpl; try lia.
  specialize (IH s). lia.
Qed.

Lemma item_end_shorter (s : string) :
  tags_item_at s = true -> String.length (item_end s) < String.length s.
Proof.
  destruct s as [|c s]; [discriminate|]. intros _. unfold item_end. simpl.
  pose proof (drop_while_length is_space (drop_while is_word (drop_while is_space s))).
  pose proof (drop_while_length is_word (drop_while is_space s)).
  pose proof (drop_while_length is_space s). lia.
Qed.

Lemma items_to_total : forall s, exists s', items_to s s'.
Proof.
  intros s. remember (String.length s) as n eqn:Hn.
  revert s Hn. induction n as [n IH] using lt_wf_ind. intros s ->.
  destruct (tags_item_at s) eqn:E.
  - destruct (IH _ (item_end_shorter s E) (item_end s) eq_refl) as [s' Hs'].
    exists s'. now apply items_more.
  - exists s. now apply items_stop.
Qed.

Lemma items_to_length (s s' : string) :
  items_to s s' -> String.length s' <= String.length s.
Proof.
  induction 1 as [s H|s s' H _ IH]; [lia|].
  pose proof (item_end_shorter s H). lia.
Qed.

Lemma word_then_space_dies (cs : list (nat * string)) (st : mstate) :
  at_class is_space cs st ->
  matches (Plus Greedy (Cls is_word) >> Star Greedy (Cls is_space)) st = [].
Proof.
  intros [H _]. rewrite matches_seq, plus_cls_none; [reflexivity|].
  destruct (rest st) as [|c s]; [reflexivity|]. now apply space_not_word.
Qed.

Lemma tags_item_none (b : bool) (s : string) cs :
  tags_item_at s = false -> matches tags_item (MState b s cs) = [].
Proof.
  intros H. unfold tags_item. rewrite matches_seq.
  destruct s as [|c s]; [reflexivity|]. rewrite matches_chr_cons.
  simpl in H. destruct (Ascii.eqb "-" c); [|reflexivity].
  simpl. rewrite List.app_nil_r, matches_seq.
  rewrite plus_greedy_cls_then by apply word_then_space_dies.
  destruct (starts_with is_space s); [|reflexivity].
  simpl in H. rewrite matches_seq, plus_cls_none; [reflexivity | exact H].
Qed.

Lemma tags_item_some (b : bool) (s : string) cs :
  tags_item_at s = true ->
  exists tl, matches tags_item (MState b s cs) = MState false (item_end s) cs :: tl.
Proof.
  intros H. unfold tags_item. rewrite matches_seq.
  destruct s as [|c s]; [discriminate|]. rewrite matches_chr_cons.
  simpl in H. apply andb_prop in H as [H Hw]. apply andb_prop in H as [-> Hs].
  simpl. rewrite List.app_nil_r, matches_seq.
  rewrite plus_greedy_cls_then by apply word_then_space_dies.
  rewrite Hs, matches_seq.
  destruct (plus_greedy_cls is_word cs _ false Hw) as (tl & -> & _).
  simpl.
  destruct (star_greedy_cls is_space cs
              (drop_while is_word (drop_while is_space s)) false) as (tl' & -> & _).
  eexists. reflexivity.
Qed.

(** The repeat of the group takes all the list items there are. *)
Lemma star_items (s s' : string) :
  items_to s s' ->
  forall b cs, exists b' cs' tl,
    matches (Star Greedy (Grp 1 tags_item)) (MState b s cs) =
      MState b' s' cs' :: tl.
Proof.
  induction 1 as [s H|s s' H _ IH]; intros b cs; rewrite matches_star; cbv zeta;
    rewrite matches_grp.
  - rewrite tags_item_none by exact H. simpl. eauto.
  - destruct (tags_item_some b s cs H) as [tl ->]. simpl.
    unfold progress at 1. simpl.
    pose proof (item_end_shorter s H) as Hlt. apply Nat.ltb_lt in Hlt.
    rewrite Hlt. simpl. unfold set_cap. simpl.
    edestruct IH as (b' & cs' & tl' & Heq). rewrite Heq.
    simpl. eauto.
Qed.

Lemma item_dies_at_space (cs : list (nat * string)) (st : mstate) :
  at_class is_space cs st -> matches (Plus Greedy (Grp 1 tags_item)) st = [].
Proof.
  intros [H _]. unfold Plus. rewrite matches_seq, matches_grp.
  destruct st as [b s c0]. rewrite tags_item_none; [reflexivity|].
  destruct s as [|c s]; [reflexivity|]. simpl in *.
  now rewrite space_not_hyphen.
Qed.

Lemma tags_match_none (b : bool) (s : string) :
  tags_block_at s = false -> match_here tags_block_pattern false b s = None.
Proof.
  intros H. unfold match_here, tags_block_pattern. rewrite matches_seq.
  unfold tags_block_at in H.
  destruct (String.prefix "tags:" s) eqn:Hp.
  - rewrite (prefix_split _ _ Hp) at 1. rewrite matches_lit_app.
    simpl in H. simpl. rewrite List.app_nil_r, matches_seq.
    rewrite star_greedy_cls_then by apply item_dies_at_space.
    unfold Plus. rewrite matches_seq, matches_grp.
    now rewrite tags_item_none.
  - now rewrite matches_lit_no.
Qed.

Lemma tags_match_some (b : bool) (s s' : string) :
  tags_block_at s = true ->
  items_to (item_end (drop_while is_space (str_drop 5 s))) s' ->
  exists cs,
    match_here tags_block_pattern false b s =
      Some (RMatch (str_take (String.length s - String.length s') s) cs,
            String.length s - String.length s').
Proof.
  intros H Hto.
  unfold tags_block_at in H. apply andb_prop in H as [Hp Hi].
  pose proof (prefix_split _ _ Hp) as Hs.
  change (String.length "tags:") with 5 in Hs.
  set (s1 := str_drop 5 s) in *. clearbody s1. subst s.
  unfold match_here, tags_block_pattern. rewrite matches_seq, matches_lit_app.
  simpl. rewrite List.app_nil_r, matches_seq.
  rewrite star_greedy_cls_then by apply item_dies_at_space.
  unfold Plus. rewrite matches_seq, matches_grp.
  destruct (tags_item_some (b && false && negb (starts_with is_space s1)) _ [] Hi)
    as [tl ->].
  simpl. unfold set_cap. simpl.
  edestruct (star_items _ _ Hto) as (b' & cs' & tl' & Heq). rewrite Heq.
  simpl. eauto.
Qed.

(** A match of the tags pattern is never empty. *)
Lemma tags_block_shorter (s s' : string) :
  tags_block_at s = true ->
  items_to (item_end (drop_while is_space (str_drop 5 s))) s' ->
  String.length s' < String.length s.
Proof.
  intros H Hto. unfold tags_block_at in H. apply andb_prop in H as [Hp Hi].
  apply items_to_length in Hto. apply item_end_shorter in Hi.
  pose proof (drop_while_length is_space (str_drop 5 s)).
  pose proof (str_drop_length 5 s). lia.
Qed.

Lemma tags_search_none (s : string) : forall b,
  has_tags_block s = false -> search_from tags_block_pattern b s = None.
Proof.
  induction s as [|c s IH]; intros b H.
  - cbn [search_from]. now rewrite tags_match_none.
  - cbn [has_tags_block] in H. apply orb_false_elim in H as [H1 H2].
    cbn [search_from]. rewrite tags_match_none by exact H1. now apply IH.
Qed.

Lemma tags_search_some (s : string) : forall b,
  has_tags_block s = true -> search_from tags_block_pattern b s <> None.
Proof.
  induction s as [|c s IH]; intros b H; cbn [has_tags_block] in H.
  - discriminate.
  - destruct (tags_block_at (String c s)) eqn:E.
    + destruct (items_to_total (item_end (drop_while is_space (str_drop 5 (String c s)))))
        as [s' Hs'].
      destruct (tags_match_some b _ _ E Hs') as [cs Hm].
      cbn [search_from]. rewrite Hm. discriminate.
    + simpl in H. cbn [search_from]. rewrite tags_match_none by exact E.
      now apply IH.
Qed.

(** ** Well-formed tags blocks *)

Lemma starts_with_app (p : ascii -> bool) (a b : string) :
  starts_with p (a +:+ b) = if nonempty a then starts_with p a else starts_with p b.
Proof. now destruct a. Qed.

Lemma starts_with_all (p : ascii -> bool) (a : string) :
  nonempty a = true -> str_forall p a = true -> starts_with p a = true.
Proof. destruct a as [|c a]; [discriminate|]. simpl. intros _ H. now apply andb_prop in H. Qed.

Lemma word_not_space (c : ascii) : is_word c = true -> is_space c = false.
Proof.
  intros H. destruct (is_space c) eqn:E; [|reflexivity].
  apply space_not_word in E. congruence.
Qed.

Lemma starts_word_not_space (s : string) :
  starts_with is_word s = true -> starts_with is_space s = false.
Proof. destruct s as [|c s]; [reflexivity|]. apply word_not_space. Qed.

Lemma starts_space_not_word (s : string) :
  starts_with is_space s = true -> starts_with is_word s = false.
Proof. destruct s as [|c s]; [reflexivity|]. apply space_not_word. Qed.

Lemma item_ok_parts (i : tag_item) :
  item_ok i = true ->
  starts_with is_space (lead i) = true /\ str_forall is_space (lead i) = true
  /\ starts_with is_word (word i) = true /\ str_forall is_word (word i) = true
  /\ str_forall is_space (trail i) = true.
Proof.
  unfold item_ok. intros H.
  apply andb_prop in H as [H Ht]. apply andb_prop in H as [H Hw].
  apply andb_prop in H as [H Hwn]. apply andb_prop in H as [Hln Hl].
  repeat split; auto using starts_with_all.
Qed.

Lemma item_text_cons (i : tag_item) (rest : string) :
  item_text i +:+ rest =
  String "-" (lead i +:+ word i +:+ trail i +:+ rest).
Proof. unfold item_text. simpl. now rewrite !sapp_assoc. Qed.

(** One well-formed item is accepted as a whole. *)
Lemma item_step (i : tag_item) (rest : string) :
  item_ok i = true ->
  starts_with is_space rest = false ->
  nonempty (trail i) || negb (starts_with is_word rest) = true ->
  tags_item_at (item_text i +:+ rest) = true
  /\ item_end (item_text i +:+ rest) = rest.
Proof.
  intros Hok Hs Hw. destruct (item_ok_parts i Hok) as (Hl1 & Hl & Hw1 & Hwd & Ht).
  rewrite item_text_cons.
  assert (Hx : starts_with is_space (word i +:+ trail i +:+ rest) = false).
  { rewrite starts_with_app. destruct (nonempty (word i)) eqn:E.
    - now apply starts_word_not_space.
    - destruct (word i); discriminate. }
  assert (Hy : starts_with is_word (trail i +:+ rest) = false).
  { rewrite starts_with_app. destruct (nonempty (trail i)) eqn:E.
    - apply starts_space_not_word. now apply starts_with_all.
    - simpl in Hw. now apply negb_true_iff in Hw. }
  assert (Hz : starts_with is_space (trail i +:+ rest) = false \/ True) by now right.
  split.
  - unfold tags_item_at. rewrite Ascii.eqb_refl. simpl.
    rewrite starts_with_app.
    assert (nonempty (lead i) = true) as -> by (destruct (lead i); [discriminate|reflexivity]).
    rewrite Hl1. simpl. rewrite drop_while_app by assumption.
    rewrite starts_with_app.
    assert (nonempty (word i) = true) as -> by (destruct (word i); [discriminate|reflexivity]).
    exact Hw1.
  - unfold item_end. cbn [str_drop].
    rewrite drop_while_app by assumption.
    rewrite drop_while_app by assumption.
    now rewrite drop_while_app.
Qed.

Lemma items_text_starts (p : ascii -> bool) (l : list tag_item) (post : string) :
  p "-"%char = false -> l <> [] ->
  starts_with p (items_text l +:+ post) = false.
Proof.
  intros Hp Hl. destruct l as [|i l]; [contradiction|].
  cbn [items_text]. rewrite sapp_assoc, item_text_cons. exact Hp.
Qed.

(** The items of a well-formed block end where the block ends. *)
Lemma items_to_block (l : list tag_item) (post : string) :
  forallb item_ok l = true -> separated l = true ->
  starts_with is_space post = false -> tags_item_at post = false ->
  nonempty (last_trail l) || negb (starts_with is_word post) = true ->
  items_to (items_text l +:+ post) post.
Proof.
  intros Hok Hsep Hs Hi Hw. induction l as [|i l IH].
  - now apply items_stop.
  - cbn [forallb] in Hok. apply andb_prop in Hok as [Hi1 Hok].
    destruct l as [|i' l].
    + cbn [items_text]. rewrite sapp_nil_r.
      destruct (item_step i post Hi1 Hs Hw) as [H1 H2].
      apply items_more; [exact H1|]. rewrite H2. now apply items_stop.
    + change (items_text (i :: i' :: l)) with (item_text i +:+ items_text (i' :: l)).
      rewrite sapp_assoc.
      cbn [separated] in Hsep. apply andb_prop in Hsep as [Hne Hsep].
      assert (Hs' : starts_with is_space (items_text (i' :: l) +:+ post) = false)
        by now apply items_text_starts.
      assert (Hw' : nonempty (trail i)
                    || negb (starts_with is_word (items_text (i' :: l) +:+ post)) = true)
        by now rewrite Hne.
      destruct (item_step i _ Hi1 Hs' Hw') as [H1 H2].
      apply items_more; [exact H1|]. rewrite H2. now apply IH.
Qed.

Lemma block_ok_parts (B : tags_block) :
  block_ok B = true ->
  str_forall is_space (gap B) = true /\ items B <> []
  /\ forallb item_ok (items B) = true /\ separated (items B) = true.
Proof.
  unfold block_ok. intros H.
  apply andb_prop in H as [H Hsep]. apply andb_prop in H as [H Hok].
  apply andb_prop in H as [Hg Hn]. repeat split; auto.
  intros E. rewrite E in Hn. discriminate.
Qed.

Lemma items_text_item_at (l : list tag_item) (post : string) :
  forallb item_ok l = true -> separated l = true -> l <> [] ->
  starts_with is_space post = false ->
  nonempty (last_trail l) || negb (starts_with is_word post) = true ->
  tags_item_at (items_text l +:+ post) = true.
Proof.
  intros Hok Hsep Hl Hs Hw. destruct l as [|i l]; [contradiction|].
  cbn [forallb] in Hok. apply andb_prop in Hok as [Hi1 Hok].
  destruct l as [|i' l].
  - cbn [items_text]. rewrite sapp_nil_r. now apply item_step.
  - change (items_text (i :: i' :: l)) with (item_text i +:+ items_text (i' :: l)).
    rewrite sapp_assoc.
    cbn [separated] in Hsep. apply andb_prop in Hsep as [Hne Hsep].
    apply item_step; [exact Hi1 | now apply items_text_starts | now rewrite Hne].
Qed.

(** A well-formed block that ends before [post] is the match at its start. *)
Lemma tags_block_match (b : bool) (B : tags_block) (post : string) :
  block_ok B = true -> block_ends B post = true ->
  exists cs,
    match_here tags_block_pattern false b (block_text B +:+ post) =
      Some (RMatch (block_text B) cs, String.length (block_text B)).
Proof.
  intros Hok Hend. destruct (block_ok_parts B Hok) as (Hg & Hne & Hitems & Hsep).
  unfold block_ends in Hend. apply andb_prop in Hend as [Hend Hw].
  apply andb_prop in Hend as [Hs Hi].
  apply negb_true_iff in Hs. apply negb_true_iff in Hi.
  assert (Hat : tags_item_at (items_text (items B) +:+ post) = true)
    by now apply items_text_item_at.
  assert (Hd : drop_while is_space (str_drop 5 (block_text B +:+ post))
               = items_text (items B) +:+ post).
  { unfold block_text. rewrite !sapp_assoc. cbn [String.append str_drop].
    apply drop_while_app; [exact Hg|].
    now apply items_text_starts. }
  assert (Hblock : tags_block_at (block_text B +:+ post) = true).
  { unfold tags_block_at. rewrite Hd, Hat.
    unfold block_text. rewrite !sapp_assoc. now rewrite prefix_app. }
  assert (Hto : items_to (item_end (drop_while is_space
                   (str_drop 5 (block_text B +:+ post)))) post).
  { rewrite Hd.
    pose proof (items_to_block (items B) post Hitems Hsep Hs Hi Hw) as Hto.
    inversion Hto as [s E|s s' E Hto']; subst; [congruence | exact Hto']. }
  destruct (tags_match_some b _ _ Hblock Hto) as [cs Hm].
  exists cs. rewrite Hm. rewrite consumed_length. now rewrite str_take_app.
Qed.

Lemma block_text_nonempty (B : tags_block) : block_text B <> "".
Proof. unfold block_text. discriminate. Qed.

(** ** The tag pattern on a block *)

Lemma str_forall_impl (p q : ascii -> bool) (s : string) :
  (forall c, p c = true -> q c = true) ->
  str_forall p s = true -> str_forall q s = true.
Proof.
  intros Hpq. induction s as [|c s IH]; simpl; [reflexivity|].
  intros H. apply andb_prop in H as [H1 H2]. now rewrite (Hpq c H1), IH.
Qed.

Lemma word_is_not_space (c : ascii) : is_word c = true -> not_space c = true.
Proof. intros H. unfold not_space. now rewrite (word_not_space c H). Qed.

Lemma space_lacks_hyphen (c : ascii) :
  is_space c = true -> negb (Ascii.eqb "-" c) = true.
Proof. intros H. now rewrite (space_not_hyphen c H). Qed.

(** A pattern that starts with a literal character has no match where
    another character stands. *)
Lemma chr_first_none (c : ascii) (r : regex) (b : bool) (s : string) :
  starts_with (Ascii.eqb c) s = false ->
  match_here (Chr c >> r) false b s = None.
Proof.
  intros H. unfold match_here. rewrite matches_seq.
  destruct s as [|x s]; [reflexivity|]. rewrite matches_chr_cons.
  simpl in H. now rewrite H.
Qed.

Lemma quiet_lacks (c : ascii) (r : regex) (pre s : string) : forall b,
  lacks c pre = true -> quiet (Chr c >> r) b pre s.
Proof.
  induction pre as [|x pre IH]; intros b H; simpl; [exact I|].
  unfold lacks in H. simpl in H. apply andb_prop in H as [H1 H2].
  split; [|now apply IH].
  apply chr_first_none. simpl. now apply negb_true_iff in H1.
Qed.

Lemma not_space_dies_at_space (cs : list (nat * string)) (st : mstate) :
  at_class is_space cs st ->
  matches (Grp 1 (Plus Greedy (Cls not_space))) st = [].
Proof.
  intros [H _]. rewrite matches_grp, plus_cls_none; [reflexivity|].
  destruct (rest st) as [|c s]; [reflexivity|]. simpl in *.
  unfold not_space. now rewrite H.
Qed.

(** The tag pattern at a well-formed item whose word is followed by
    whitespace or by nothing: the match is the item up to the end of its
    word, and the group is the word. *)
Lemma tag_match_item (b : bool) (i : tag_item) (rest : string) :
  item_ok i = true ->
  starts_with not_space (trail i +:+ rest) = false ->
  match_here tag_pattern false b (item_text i +:+ rest) =
    Some (RMatch ("-" +:+ lead i +:+ word i) [(1, word i)],
          String.length ("-" +:+ lead i +:+ word i)).
Proof.
  intros Hok Hns. destruct (item_ok_parts i Hok) as (Hl1 & Hl & Hw1 & Hwd & Ht).
  assert (Hx : starts_with is_space (word i +:+ trail i +:+ rest) = false).
  { rewrite starts_with_app. destruct (nonempty (word i)) eqn:E.
    - now apply starts_word_not_space.
    - destruct (word i); discriminate. }
  assert (Hwn : str_forall not_space (word i) = true)
    by (eapply str_forall_impl; [apply word_is_not_space | exact Hwd]).
  assert (Hw1n : starts_with not_space (word i +:+ trail i +:+ rest) = true).
  { rewrite starts_with_app.
    assert (nonempty (word i) = true) as -> by (destruct (word i); [discriminate|reflexivity]).
    destruct (word i) as [|c w]; [discriminate|]. simpl in *.
    now apply word_is_not_space. }
  unfold match_here. rewrite item_text_cons.
  unfold tag_pattern. rewrite matches_seq, matches_chr_cons, Ascii.eqb_refl.
  cbn [flat_map]. rewrite List.app_nil_r, matches_seq.
  rewrite plus_greedy_cls_then by apply not_space_dies_at_space.
  rewrite starts_with_app.
  assert (nonempty (lead i) = true) as -> by (destruct (lead i); [discriminate|reflexivity]).
  rewrite Hl1. rewrite drop_while_app by assumption.
  rewrite matches_grp.
  destruct (plus_greedy_cls not_space [] _ false Hw1n) as (tl & -> & _).
  rewrite drop_while_app by assumption.
  cbn [map]. unfold mk_match, set_cap. cbn [Re.rest Re.caps].
  rewrite consumed_length, str_take_app.
  replace (String "-" (lead i +:+ word i +:+ trail i +:+ rest))
    with (("-" +:+ lead i +:+ word i) +:+ trail i +:+ rest)
    by (simpl; now rewrite !sapp_assoc).
  now rewrite consumed_length, str_take_app.
Qed.

Lemma findall_items (l : list tag_item) : forall (b : bool) (acc : list string),
  forallb item_ok l = true -> separated l = true ->
  snd (sub_from tag_pattern collect b 0 (items_text l) acc) = acc ++ map word l.
Proof.
  induction l as [|i l IH]; intros b acc Hok Hsep.
  - simpl. now rewrite List.app_nil_r.
  - cbn [forallb] in Hok. apply andb_prop in Hok as [Hi Hok].
    destruct (item_ok_parts i Hi) as (_ & _ & _ & _ & Ht).
    assert (Hns : starts_with not_space (trail i +:+ items_text l) = false).
    { rewrite starts_with_app. destruct (nonempty (trail i)) eqn:E.
      - destruct (trail i) as [|c t]; [discriminate|]. simpl in *.
        apply andb_prop in Ht as [Hc _]. unfold not_space. now rewrite Hc.
      - destruct l as [|i' l]; [reflexivity|].
        cbn [separated] in Hsep. rewrite E in Hsep. discriminate. }
    assert (Hsep' : separated l = true).
    { destruct l as [|i' l]; [reflexivity|].
      cbn [separated] in Hsep. now apply andb_prop in Hsep. }
    pose proof (tag_match_item b i (items_text l) Hi Hns) as Hm.
    cbn [items_text].
    replace (item_text i +:+ items_text l)
      with (("-" +:+ lead i +:+ word i) +:+ trail i +:+ items_text l) in *
      by (unfold item_text; now rewrite !sapp_assoc).
    erewrite sub_from_some; [|simpl; discriminate|exact Hm].
    cbn [prepend snd fst collect group groups assoc Nat.eqb default].
    rewrite sub_from_quiet.
    + cbn [prepend snd]. rewrite IH by assumption.
      simpl. now rewrite <- List.app_assoc.
    + apply quiet_lacks. eapply str_forall_impl; [apply space_lacks_hyphen | exact Ht].
Qed.

(** [findall] on a well-formed block yields its words, in order. *)
Lemma findall_block (B : tags_block) :
  block_ok B = true -> findall tag_pattern (block_text B) = tag_words B.
Proof.
  intros Hok. destruct (block_ok_parts B Hok) as (Hg & Hne & Hitems & Hsep).
  unfold findall, sub_st, block_text. rewrite <- sapp_assoc.
  fold collect.
  rewrite sub_from_quiet.
  - cbn [prepend snd]. now rewrite findall_items.
  - apply quiet_lacks. unfold lacks. rewrite str_forall_app.
    apply andb_true_intro. split; [reflexivity|].
    eapply str_forall_impl; [apply space_lacks_hyphen | exact Hg].
Qed.

(** ** The Tag Extractor on a text of well-formed blocks *)

Lemma quiet_tags (pre s : string) : forall b,
  no_tags_start pre s = true -> quiet tags_block_pattern b pre s.
Proof.
  induction pre as [|c pre IH]; intros b H; [exact I|].
  cbn [no_tags_start] in H. apply andb_prop in H as [H1 H2].
  split; [|now apply IH].
  apply tags_match_none. now apply negb_true_iff in H1.
Qed.

Lemma no_tags_start_nil (s : string) :
  no_tags_start s "" = negb (has_tags_block s).
Proof.
  induction s as [|c s IH]; [reflexivity|].
  cbn [no_tags_start has_tags_block]. rewrite sapp_nil_r, IH.
  now rewrite negb_orb.
Qed.

Lemma last_block_cons (p q : tags_block * string) (bs : list (tags_block * string)) :
  last_block (p :: q :: bs) = last_block (q :: bs).
Proof. now destruct p. Qed.

Lemma last_block_some (q : tags_block * string) (bs : list (tags_block * string)) :
  exists B, last_block (q :: bs) = Some B.
Proof.
  revert q. induction bs as [|p bs IH]; intros [B t].
  - now exists B.
  - rewrite last_block_cons. apply IH.
Qed.

Section TagsExtract.
(** Both scripts' callbacks drop the block and set the state to a
    rendering of the tags found in it. *)
Variable render : list string -> string.

Lemma extract_doc (blocks : list (tags_block * string)) :
  forall (b : bool) (acc : string),
  doc_ok blocks = true ->
  sub_from tags_block_pattern (tags_callback render) b 0 (doc_text blocks) acc =
    (doc_body blocks,
     match last_block blocks with
     | Some B => render (tag_words B)
     | None => acc
     end).
Proof.
  induction blocks as [|[B t] bs IH]; intros b acc Hok.
  - reflexivity.
  - cbn [doc_ok] in Hok. apply andb_prop in Hok as [Hok Hbs].
    apply andb_prop in Hok as [Hok Hq]. apply andb_prop in Hok as [HB Hend].
    cbn [doc_text].
    destruct (tags_block_match b B _ HB Hend) as [cs Hm].
    erewrite sub_from_some; [|apply block_text_nonempty|exact Hm].
    cbn [tags_callback fst snd group0]. rewrite (findall_block B HB).
    rewrite sub_from_quiet by now apply quiet_tags.
    rewrite IH by exact Hbs.
    unfold prepend. cbn [fst snd doc_body]. f_equal.
    destruct bs as [|q bs]; [reflexivity|].
    rewrite last_block_cons.
    destruct (last_block_some q bs) as [B' ->]. reflexivity.
Qed.

Lemma extract_pre_doc (pre : string) (blocks : list (tags_block * string)) :
  no_tags_start pre (doc_text blocks) = true -> doc_ok blocks = true ->
  sub_st tags_block_pattern (tags_callback render) (pre +:+ doc_text blocks) "" =
    (pre +:+ doc_body blocks,
     match last_block blocks with
     | Some B => render (tag_words B)
     | None => ""
     end).
Proof.
  intros Hpre Hok. unfold sub_st.
  rewrite sub_from_quiet by now apply quiet_tags.
  now rewrite extract_doc.
Qed.

Lemma extract_one_block (pre : string) (B : tags_block) (post : string) :
  no_tags_start pre (block_text B +:+ post) = true ->
  block_ok B = true -> block_ends B post = true ->
  has_tags_block post = false ->
  sub_st tags_block_pattern (tags_callback render) (pre +:+ block_text B +:+ post) "" =
    (pre +:+ post, render (tag_words B)).
Proof.
  intros Hpre HB Hend Hpost.
  pose proof (extract_pre_doc pre [(B, post)]) as H.
  cbn [doc_text doc_ok doc_body last_block] in H.
  rewrite !sapp_nil_r in H. apply H; [exact Hpre|].
  rewrite HB, Hend, no_tags_start_nil, Hpost. reflexivity.
Qed.

(** Without a tags block nothing changes and the callback is not called;
    with one, the callback is called. *)
Lemma extract_none (s : string) :
  has_tags_block s = false ->
  sub_st tags_block_pattern (tags_callback render) s "" = (s, "").
Proof.
  intros H. apply sub_from_search_none. now apply tags_search_none.
Qed.

End TagsExtract.

Lemma roam_extract_eq (content : string) :
  Roam.extract_and_convert_tags content =
  sub_st tags_block_pattern (tags_callback roam_render) content "".
Proof. reflexivity. Qed.

Lemma org_extract_eq (content : string) :
  Org.extract_and_convert_tags content =
  sub_st tags_block_pattern (tags_callback org_render) content "".
Proof. reflexivity. Qed.

(** Once a block was found the tags are not empty. *)
Lemma roam_extract_found (s : string) :
  has_tags_block s = true -> snd (Roam.extract_and_convert_tags s) <> "".
Proof.
  intros H. rewrite roam_extract_eq. unfold sub_st.
  apply (sub_from_found tags_block_pattern (tags_callback roam_render)
           (fun acc => acc <> "")).
  - intros m acc. discriminate.
  - now apply tags_search_some.
Qed.

Lemma org_extract_found (s : string) :
  has_tags_block s = true -> snd (Org.extract_and_convert_tags s) <> "".
Proof.
  intros H. rewrite org_extract_eq. unfold sub_st.
  apply (sub_from_found tags_block_pattern (tags_callback org_render)
           (fun acc => acc <> "")).
  - intros m acc. discriminate.
  - now apply tags_search_some.
Qed.

(** ** The header pattern *)

Lemma prefix_cons (a b : ascii) (w s : string) :
  String.prefix (String a w) (String b s) = Ascii.eqb a b && String.prefix w s.
Proof.
  simpl. destruct (Ascii.ascii_dec a b) as [->|Hne].
  - now rewrite Ascii.eqb_refl.
  - apply Ascii.eqb_neq in Hne. now rewrite Hne.
Qed.

Lemma matches_bol (st : mstate) :
  matches Bol st = if bos st then [st] else [].
Proof. reflexivity. Qed.

Lemma first_match_hd (s : string) (l : list mstate) :
  match l with [] => None | st' :: _ => Some (mk_match s st') end =
  option_map (mk_match s) (hd_error l).
Proof. now destruct l. Qed.

(** The lazy repeat of any character before the closing delimiter stops
    at the first place where the delimiter stands. *)
Lemma lazy_any_close (cs : list (nat * string)) (s : string) : forall b,
  hd_error (flat_map (matches (Lit CLOSE))
              (matches (Star Lazy (Cls any)) (MState b s cs))) =
  option_map (fun s' => MState false s' cs) (after_close s).
Proof.
  induction s as [|c s IH]; intros b; rewrite star_lazy_cls; cbn [flat_map].
  - reflexivity.
  - cbn [after_close any]. destruct (String.prefix CLOSE (String c s)) eqn:Hp.
    + rewrite (prefix_split _ _ Hp) at 1. rewrite matches_lit_app.
      cbn [List.app hd_error option_map nonempty CLOSE negb].
      now rewrite andb_false_r.
    + rewrite matches_lit_no by exact Hp. cbn [List.app]. apply IH.
Qed.

Lemma header_first (b : bool) (s : string) :
  hd_error (matches md_header_pattern (MState b s [])) =
    if b && String.prefix OPEN s
    then option_map (fun s' => MState false s' []) (after_close (str_drop 4 s))
    else None.
Proof.
  unfold md_header_pattern. rewrite matches_seq, matches_bol. cbn [bos].
  destruct b; [|reflexivity].
  cbn [flat_map andb]. rewrite List.app_nil_r, matches_seq.
  fold OPEN. fold CLOSE.
  destruct (String.prefix OPEN s) eqn:Hp.
  - pose proof (prefix_split _ _ Hp) as Hs.
    change (String.length OPEN) with 4 in Hs.
    set (s1 := str_drop 4 s) in *. clearbody s1. subst s.
    rewrite matches_lit_app.
    cbn [flat_map]. rewrite List.app_nil_r, matches_seq. apply lazy_any_close.
  - now rewrite matches_lit_no.
Qed.

Lemma header_match (b : bool) (s : string) :
  match_here md_header_pattern false b s =
    if b && String.prefix OPEN s
    then option_map (fun s' => mk_match s (MState false s' []))
           (after_close (str_drop 4 s))
    else None.
Proof.
  unfold match_here. rewrite first_match_hd, header_first.
  destruct (b && String.prefix OPEN s); [|reflexivity].
  now destruct (after_close (str_drop 4 s)).
Qed.

Lemma header_search_inside (s : string) :
  search_from md_header_pattern false s = None.
Proof.
  induction s as [|c s IH]; cbn [search_from]; now rewrite header_match.
Qed.

Lemma after_close_split (s s' : string) :
  after_close s = Some s' -> exists w, s = w +:+ CLOSE +:+ s'.
Proof.
  induction s as [|c s IH]; cbn [after_close].
  - discriminate.
  - destruct (String.prefix CLOSE (String c s)) eqn:Hp.
    + intros [= <-]. exists "". exact (prefix_split _ _ Hp).
    + intros H. destruct (IH H) as [w ->]. now exists (String c w).
Qed.

(** The Header Stripper as a function of the text. *)
Lemma remove_md_header_spec (s : string) :
  Roam.remove_md_header s =
    if String.prefix OPEN s
    then match after_close (str_drop 4 s) with
         | Some s' => s'
         | None => s
         end
    else s.
Proof.
  unfold Roam.remove_md_header, sub, sub_st.
  pose proof (header_match true s) as Hm. cbn [andb] in Hm.
  destruct (String.prefix OPEN s) eqn:Hp.
  - destruct (after_close (str_drop 4 s)) as [s'|] eqn:Hc.
    + destruct (after_close_split _ _ Hc) as [w Hw].
      pose proof (prefix_split _ _ Hp) as Hs.
      change (String.length OPEN) with 4 in Hs. rewrite Hw in Hs.
      assert (Hs' : s = (OPEN +:+ w +:+ CLOSE) +:+ s') by now rewrite !sapp_assoc.
      cbn [option_map] in Hm. unfold mk_match in Hm. cbn [Re.rest Re.caps] in Hm.
      rewrite Hs' in Hm at 2 3 4. rewrite consumed_length, str_take_app in Hm.
      rewrite Hs' at 1.
      erewrite sub_from_some; [| discriminate |].
      * rewrite sub_from_search_none by apply header_search_inside. reflexivity.
      * rewrite <- Hs'. exact Hm.
    + cbn [option_map] in Hm. rewrite sub_from_search_none; [reflexivity|].
      destruct s as [|c s]; cbn [search_from]; rewrite Hm;
        [reflexivity | apply header_search_inside].
  - rewrite sub_from_search_none; [reflexivity|].
    destruct s as [|c s]; cbn [search_from]; rewrite Hm;
      [reflexivity | apply header_search_inside].
Qed.

Lemma lines_nonempty (s : string) : lines s <> [].
Proof.
  induction s as [|c s IH]; simpl; [discriminate|].
  destruct (Ascii.eqb c "010"); [discriminate|].
  now destruct (lines s).
Qed.

(** A text that starts with [w] and a line end has [w] as first line. *)
Lemma line_prefix (w : string) : forall (x y : string),
  lacks "010" w = true ->
  String.prefix (w +:+ LF) (x +:+ LF +:+ y) = true ->
  hd "" (lines x) = w.
Proof.
  induction w as [|c w IH]; intros x y Hw Hp.
  - destruct x as [|a x]; [reflexivity|].
    change (String.prefix (String "010" "") (String a (x +:+ LF +:+ y)) = true) in Hp.
    rewrite prefix_cons in Hp. apply andb_prop in Hp as [Ha _].
    apply Ascii.eqb_eq in Ha. subst a. reflexivity.
  - unfold lacks in Hw. cbn [str_forall] in Hw. apply andb_prop in Hw as [Hc Hw].
    apply negb_true_iff in Hc.
    destruct x as [|a x].
    + change (String.prefix (String c (w +:+ LF)) (String "010" y) = true) in Hp.
      rewrite prefix_cons in Hp. apply andb_prop in Hp as [Ha _].
      rewrite Ascii.eqb_sym in Hc. congruence.
    + change (String.prefix (String c (w +:+ LF)) (String a (x +:+ LF +:+ y)) = true) in Hp.
      rewrite prefix_cons in Hp. apply andb_prop in Hp as [Ha Hp].
      apply Ascii.eqb_eq in Ha. subst a.
      cbn [lines]. rewrite Ascii.eqb_sym, Hc.
      specialize (IH x y Hw Hp).
      destruct (lines x) as [|l ls] eqn:E; [now apply lines_nonempty in E|].
      simpl in *. now subst l.
Qed.

(** Where no line after the first is three hyphens, the closing delimiter
    that follows is the first one. *)
Lemma after_close_first (x rest : string) :
  existsb (String.eqb "---") (tl (lines x)) = false ->
  after_close (x +:+ CLOSE +:+ rest) = Some rest.
Proof.
  induction x as [|c x IH]; intros H.
  - now destruct rest.
  - change (String c x +:+ CLOSE +:+ rest) with (String c (x +:+ CLOSE +:+ rest)).
    cbn [after_close].
    destruct (String.prefix CLOSE (String c (x +:+ CLOSE +:+ rest))) eqn:Hp.
    + exfalso. unfold CLOSE at 1 in Hp.
      change (LF +:+ "---" +:+ LF) with (String "010" ("---" +:+ LF)) in Hp.
      rewrite prefix_cons in Hp. apply andb_prop in Hp as [Hc Hp].
      apply Ascii.eqb_eq in Hc. subst c.
      unfold CLOSE in Hp. rewrite sapp_assoc in Hp.
      apply line_prefix in Hp; [|reflexivity].
      cbn [lines] in H. rewrite Ascii.eqb_refl in H. cbn [tl] in H.
      destruct (lines x) as [|l ls]; simpl in *; subst; discriminate.
    + apply IH. cbn [lines] in H.
      destruct (Ascii.eqb c "010").
      * cbn [tl] in H. destruct (lines x) as [|l ls]; [reflexivity|].
        cbn [existsb] in H. apply orb_false_elim in H as [_ H]. exact H.
      * destruct (lines x) as [|l ls]; [reflexivity | exact H].
Qed.

Lemma after_close_lines (x rest : string) :
  has_dash_line x = false -> after_close (x +:+ CLOSE +:+ rest) = Some rest.
Proof.
  intros H. apply after_close_first. unfold has_dash_line in H.
  destruct (lines x) as [|l ls]; [reflexivity|].
  cbn [existsb] in H. now apply orb_false_elim in H.
Qed.

Lemma after_close_shorter (s s' : string) :
  after_close s = Some s' -> String.length s' < String.length s.
Proof.
  intros H. destruct (after_close_split _ _ H) as [w ->].
  rewrite !slength_app. simpl. lia.
Qed.

(** ** The link pattern *)

(** A lazy repeat of a class inside a group, before a continuation that
    fails wherever a character of [q] comes next: the characters of [w]
    are passed one by one. *)
Lemma lazy_cls_skip {X} (p q : ascii -> bool) (K : mstate -> list X)
    (n : nat) (F : string) (cs : list (nat * string)) :
  (forall st, starts_with q (rest st) = true -> K st = []) ->
  forall (w tail : string) (b : bool),
  str_forall p w = true -> str_forall q w = true ->
  flat_map K (map (set_cap n F)
                (matches (Star Lazy (Cls p)) (MState b (w +:+ tail) cs))) =
  flat_map K (map (set_cap n F)
                (matches (Star Lazy (Cls p))
                   (MState (b && negb (nonempty w)) tail cs))).
Proof.
  intros HK. induction w as [|c w IH]; intros tail b Hp Hq.
  - simpl. now rewrite andb_true_r.
  - cbn [str_forall] in Hp, Hq.
    apply andb_prop in Hp as [Hpc Hp]. apply andb_prop in Hq as [Hqc Hq].
    change (String c w +:+ tail) with (String c (w +:+ tail)).
    rewrite star_lazy_cls, Hpc. cbn [map flat_map].
    rewrite HK by exact Hqc. cbn [List.app].
    rewrite IH by assumption. cbn [nonempty negb]. now rewrite andb_false_r.
Qed.

Lemma lazy_cls_here {X} (p : ascii -> bool) (K : mstate -> list X)
    (n : nat) (F : string) (b : bool) (s : string) (cs : list (nat * string)) :
  exists tl,
    flat_map K (map (set_cap n F)
                  (matches (Star Lazy (Cls p)) (MState b s cs))) =
    K (set_cap n F (MState b s cs)) ++ tl.
Proof. rewrite star_lazy_cls. cbn [map flat_map]. eauto. Qed.

(** The group takes [w]: the continuation first runs where [w] ends,
    with [w] captured. *)
Lemma lazy_group_takes {X} (p q : ascii -> bool) (K : mstate -> list X)
    (n : nat) (w tail : string) (b : bool) (cs : list (nat * string)) :
  (forall st, starts_with q (rest st) = true -> K st = []) ->
  str_forall p w = true -> str_forall q w = true ->
  exists b' tl,
    flat_map K (matches (Grp n (Star Lazy (Cls p))) (MState b (w +:+ tail) cs)) =
    K (MState b' tail ((n, w) :: cs)) ++ tl.
Proof.
  intros HK Hp Hq. rewrite matches_grp. cbn [Re.rest].
  rewrite (lazy_cls_skip p q K n _ cs HK) by assumption.
  destruct (lazy_cls_here p K n (w +:+ tail) (b && negb (nonempty w)) tail cs)
    as [tl ->].
  unfold set_cap. cbn [Re.rest Re.caps Re.bos].
  rewrite consumed_length, str_take_app. eauto.
Qed.

Lemma alias_is_dot c : alias_char c = true -> dot c = true.
Proof. unfold alias_char. intros H. now apply andb_prop in H. Qed.

Lemma sub_is_alias c : sub_char c = true -> alias_char c = true.
Proof. unfold sub_char. intros H. now apply andb_prop in H. Qed.

Lemma target_is_sub c : target_char c = true -> sub_char c = true.
Proof. unfold target_char. intros H. now apply andb_prop in H. Qed.

Lemma alias_not_bracket c : alias_char c = true -> Ascii.eqb "]" c = false.
Proof.
  unfold alias_char. intros H. apply andb_prop in H as [_ H].
  now apply negb_true_iff in H.
Qed.

Lemma sub_not_bar c : sub_char c = true -> Ascii.eqb "|" c = false.
Proof.
  unfold sub_char. intros H. apply andb_prop in H as [_ H].
  now apply negb_true_iff in H.
Qed.

Lemma target_not_hash c : target_char c = true -> Ascii.eqb "#" c = false.
Proof.
  unfold target_char. intros H. apply andb_prop in H as [_ H].
  now apply negb_true_iff in H.
Qed.

Lemma link_pattern_eq :
  link_pattern = (Lit "[[" >> Grp 1 (Star Lazy (Cls dot)) >> link_sub)%re.
Proof. reflexivity. Qed.

Lemma close_dies (st : mstate) :
  starts_with alias_char (rest st) = true -> matches link_close st = [].
Proof.
  intros H. apply matches_lit_no. destruct (rest st) as [|c s]; [discriminate|].
  cbn [starts_with] in H. rewrite prefix_cons, (alias_not_bracket c H). reflexivity.
Qed.

Lemma close_here (b : bool) (post : string) cs :
  matches link_close (MState b ("]]" +:+ post) cs) = [MState false post cs].
Proof.
  unfold link_close. rewrite matches_lit_app. cbn [nonempty negb].
  now rewrite andb_false_r.
Qed.

Lemma alias_dies (st : mstate) :
  starts_with sub_char (rest st) = true -> matches link_alias st = [].
Proof.
  intros H. unfold link_alias, Opt. rewrite matches_seq, matches_alt, matches_seq.
  destruct st as [b [|c s] cs]; [discriminate|]. cbn [Re.rest starts_with] in H.
  rewrite matches_chr_cons, (sub_not_bar c H), matches_eps.
  cbn [flat_map List.app]. rewrite List.app_nil_r.
  apply close_dies. cbn [Re.rest starts_with]. now apply sub_is_alias.
Qed.

Lemma alias_match (alias : option string) (b : bool) (post : string) cs :
  opt_forall alias_char alias = true ->
  exists tl,
    matches link_alias (MState b (alias_text alias +:+ "]]" +:+ post) cs) =
    MState false post (alias_caps alias cs) :: tl.
Proof.
  intros Hok. unfold link_alias, Opt.
  rewrite matches_seq, matches_alt, matches_seq, flat_map_app.
  destruct alias as [a|]; cbn [alias_text alias_caps opt_forall] in *.
  - change (("|" +:+ a) +:+ "]]" +:+ post) with (String "|" (a +:+ "]]" +:+ post)).
    rewrite matches_chr_cons, Ascii.eqb_refl. cbn [flat_map].
    rewrite !List.app_nil_r.
    destruct (lazy_group_takes dot alias_char (matches link_close) 3 a
                ("]]" +:+ post) false cs close_dies) as (b' & tl & ->).
    + eapply str_forall_impl; [apply alias_is_dot | exact Hok].
    + exact Hok.
    + rewrite close_here. cbn [List.app]. eauto.
  - change ("" +:+ "]]" +:+ post) with (String "]" (String "]" post)).
    rewrite matches_chr_cons. cbn [Ascii.eqb flat_map List.app].
    rewrite matches_eps. cbn [flat_map].
    change (String "]" (String "]" post)) with ("]]" +:+ post).
    rewrite close_here. cbn [List.app]. eauto.
Qed.

Lemma sub_dies (st : mstate) :
  starts_with target_char (rest st) = true -> matches link_sub st = [].
Proof.
  intros H. unfold link_sub, Opt. rewrite matches_seq, matches_alt, matches_seq.
  destruct st as [b [|c s] cs]; [discriminate|]. cbn [Re.rest starts_with] in H.
  rewrite matches_chr_cons, (target_not_hash c H), matches_eps.
  cbn [flat_map List.app]. rewrite List.app_nil_r.
  apply alias_dies. cbn [Re.rest starts_with]. now apply target_is_sub.
Qed.

Lemma alias_text_no_hash (alias : option string) (post : string) :
  starts_with (Ascii.eqb "#") (alias_text alias +:+ "]]" +:+ post) = false.
Proof. now destruct alias. Qed.

Lemma sub_match (subheading alias : option string) (b : bool) (post : string) cs :
  opt_forall sub_char subheading = true ->
  opt_forall alias_char alias = true ->
  exists tl,
    matches link_sub
      (MState b (sub_text subheading +:+ alias_text alias +:+ "]]" +:+ post) cs) =
    MState false post (alias_caps alias (sub_caps subheading cs)) :: tl.
Proof.
  intros Hs Ha. unfold link_sub, Opt.
  rewrite matches_seq, matches_alt, matches_seq, flat_map_app.
  destruct subheading as [s|]; cbn [sub_text sub_caps opt_forall] in *.
  - rewrite sapp_assoc.
    change ("#" +:+ s +:+ alias_text alias +:+ "]]" +:+ post)
      with (String "#" (s +:+ alias_text alias +:+ "]]" +:+ post)).
    rewrite matches_chr_cons, Ascii.eqb_refl. cbn [flat_map].
    rewrite !List.app_nil_r.
    destruct (lazy_group_takes dot sub_char (matches link_alias) 2 s
                (alias_text alias +:+ "]]" +:+ post) false cs alias_dies)
      as (b' & tl & ->).
    + eapply str_forall_impl; [|exact Hs].
      intros c Hc. apply alias_is_dot. now apply sub_is_alias.
    + exact Hs.
    + destruct (alias_match alias b' post ((2, s) :: cs) Ha) as [tl' ->].
      cbn [List.app]. eauto.
  - change ("" +:+ alias_text alias +:+ "]]" +:+ post)
      with (alias_text alias +:+ "]]" +:+ post).
    pose proof (alias_text_no_hash alias post) as Hh.
    destruct (alias_text alias +:+ "]]" +:+ post) as [|c s'] eqn:E.
    + destruct alias; discriminate.
    + rewrite matches_chr_cons. cbn [starts_with] in Hh. rewrite Hh.
      cbn [flat_map List.app]. rewrite matches_eps. cbn [flat_map].
      rewrite List.app_nil_r. rewrite <- E.
      destruct (alias_match alias b post cs Ha) as [tl' ->]. eauto.
Qed.

(** A wiki-link whose parts hold no character of the link syntax is the
    match at its start, and its parts are the groups. *)
Lemma link_match (target : string) (subheading alias : option string)
    (b : bool) (post : string) :
  link_ok target subheading alias = true ->
  match_here link_pattern false b (wikilink target subheading alias +:+ post) =
    Some (RMatch (wikilink target subheading alias)
            (link_caps target subheading alias),
          String.length (wikilink target subheading alias)).
Proof.
  unfold link_ok. intros H. apply andb_prop in H as [H Ha].
  apply andb_prop in H as [Ht Hs].
  unfold match_here. rewrite link_pattern_eq, matches_seq.
  assert (E : wikilink target subheading alias +:+ post =
              "[[" +:+ target +:+ sub_text subheading +:+ alias_text alias
              +:+ "]]" +:+ post)
    by (unfold wikilink; now rewrite !sapp_assoc).
  rewrite E at 1. rewrite matches_lit_app. cbn [flat_map].
  rewrite List.app_nil_r, matches_seq.
  destruct (lazy_group_takes dot target_char (matches link_sub) 1 target
              (sub_text subheading +:+ alias_text alias +:+ "]]" +:+ post)
              (b && negb (nonempty "[[")) [] sub_dies) as (b' & tl & ->).
  - eapply str_forall_impl; [|exact Ht].
    intros c Hc. apply alias_is_dot, sub_is_alias. now apply target_is_sub.
  - exact Ht.
  - destruct (sub_match subheading alias b' post [(1, target)] Hs Ha) as [tl' ->].
    cbn [List.app]. unfold mk_match. cbn [Re.rest Re.caps].
    now rewrite consumed_length, str_take_app.
Qed.

Lemma wikilink_nonempty (target : string) (subheading alias : option string) :
  wikilink target subheading alias <> "".
Proof. unfold wikilink. discriminate. Qed.

(** ** Patterns that start with a literal *)

Lemma matches_lit_cons (c : ascii) (w : string) (st : mstate) :
  matches (Lit (String c w)) st = flat_map (matches (Lit w)) (matches (Chr c) st).
Proof. reflexivity. Qed.

Lemma lit_first_none (w : string) (r : regex) (ne b : bool) (s : string) :
  String.prefix w s = false -> match_here (Lit w >> r) ne b s = None.
Proof.
  intros H. unfold match_here. rewrite matches_seq, matches_lit_no by exact H.
  now destruct ne.
Qed.

Lemma prefix_lacks (c : ascii) (w s : string) :
  starts_with (Ascii.eqb c) s = false -> String.prefix (String c w) s = false.
Proof.
  destruct s as [|x s]; [reflexivity|]. cbn [starts_with]. intros H.
  now rewrite prefix_cons, H.
Qed.

Lemma quiet_lit_lacks (c : ascii) (w : string) (r : regex) (pre s : string) :
  forall b, lacks c pre = true -> quiet (Lit (String c w) >> r) b pre s.
Proof.
  induction pre as [|x pre IH]; intros b H; [exact I|].
  unfold lacks in H. cbn [str_forall] in H. apply andb_prop in H as [H1 H2].
  split; [|now apply IH].
  apply lit_first_none, prefix_lacks. cbn [String.append starts_with].
  now apply negb_true_iff in H1.
Qed.

(** Whether the subject starts here makes no difference to them. *)
Lemma lit_first_bos (c : ascii) (w : string) (r : regex)
    (ne b b' : bool) (s : string) :
  match_here (Lit (String c w) >> r) ne b s =
  match_here (Lit (String c w) >> r) ne b' s.
Proof.
  unfold match_here. rewrite !matches_seq, !matches_lit_cons.
  destruct s as [|x s]; [reflexivity|]. now rewrite !matches_chr_cons.
Qed.

Section SubLit.
Context {St : Type}.
Variables (c : ascii) (w : string) (r : regex).
Variable repl : rmatch -> St -> string * St.

Lemma sub_from_lit_bos (b b' : bool) (s : string) (acc : St) :
  sub_from (Lit (String c w) >> r) repl b 0 s acc =
  sub_from (Lit (String c w) >> r) repl b' 0 s acc.
Proof.
  destruct s as [|x s]; cbn [sub_from];
    now rewrite (lit_first_bos c w r false b b'), (lit_first_bos c w r true b b').
Qed.

(** A text without the first character of the literal is left as it is. *)
Lemma sub_from_lit_lacks (b : bool) (s : string) (acc : St) :
  lacks c s = true ->
  sub_from (Lit (String c w) >> r) repl b 0 s acc = (s, acc).
Proof.
  intros H. rewrite <- (sapp_nil_r s) at 1.
  rewrite sub_from_quiet by now apply quiet_lit_lacks.
  rewrite sub_from_none_nil; [|now apply lit_first_none].
  unfold prepend. cbn [fst snd]. now rewrite sapp_nil_r.
Qed.

(** A match after text without that character. *)
Lemma sub_from_lit_step (b : bool) (pre m_text post : string) (m : rmatch) (acc : St) :
  quiet (Lit (String c w) >> r) b pre (m_text +:+ post) -> m_text <> "" ->
  (forall b', match_here (Lit (String c w) >> r) false b' (m_text +:+ post) =
                Some (m, String.length m_text)) ->
  sub_from (Lit (String c w) >> r) repl b 0 (pre +:+ m_text +:+ post) acc =
    prepend (pre +:+ fst (repl m acc))
      (sub_from (Lit (String c w) >> r) repl true 0 post (snd (repl m acc))).
Proof.
  intros Hpre Hne Hm.
  rewrite sub_from_quiet by exact Hpre.
  erewrite sub_from_some; [|exact Hne|apply Hm].
  rewrite prepend_prepend. now rewrite (sub_from_lit_bos false true).
Qed.

End SubLit.

Lemma search_from_quiet (r : regex) (pre s : string) : forall b,
  quiet r b pre s ->
  search_from r b (pre +:+ s) = search_from r (b && negb (nonempty pre)) s.
Proof.
  induction pre as [|x pre IH]; intros b Hq.
  - simpl. now rewrite andb_true_r.
  - destruct Hq as [Hm Hq].
    change (String x pre +:+ s) with (String x (pre +:+ s)) in *.
    cbn [search_from]. rewrite Hm, IH by exact Hq.
    cbn [nonempty negb]. now rewrite andb_false_r.
Qed.

(** ** The identifier pattern *)

Lemma id_pattern_eq :
  id_pattern = (Lit ":ID:" >> Plus Greedy (Cls is_space)
                >> Grp 1 (Plus Greedy (Cls not_space)))%re.
Proof. reflexivity. Qed.

(** The marker, one blank and an identifier without whitespace that
    ends at whitespace: the group is the identifier. *)
Lemma id_match (b : bool) (uid rest : string) :
  nonempty uid = true -> str_forall not_space uid = true ->
  starts_with not_space rest = false ->
  match_here id_pattern false b (":ID: " +:+ uid +:+ rest) =
    Some (RMatch (":ID: " +:+ uid) [(1, uid)], String.length (":ID: " +:+ uid)).
Proof.
  intros Hne Hns Hrest.
  assert (Hu : starts_with not_space (uid +:+ rest) = true).
  { rewrite starts_with_app, Hne. now apply starts_with_all. }
  assert (Hus : starts_with is_space (uid +:+ rest) = false).
  { destruct (uid +:+ rest) as [|x s]; [reflexivity|]. cbn [starts_with] in *.
    unfold not_space in Hu. now apply negb_true_iff in Hu. }
  unfold match_here. rewrite id_pattern_eq, matches_seq.
  change (":ID: " +:+ uid +:+ rest) with (":ID:" +:+ String " " (uid +:+ rest)) at 1.
  rewrite matches_lit_app. cbn [flat_map]. rewrite List.app_nil_r, matches_seq.
  rewrite plus_greedy_cls_then by apply not_space_dies_at_space.
  cbn [starts_with drop_while]. change (is_space " ") with true. cbv iota.
  rewrite (drop_while_none is_space _ Hus).
  rewrite matches_grp.
  destruct (plus_greedy_cls not_space [] _ false Hu) as (tl & -> & _).
  rewrite drop_while_app by assumption.
  cbn [map]. unfold mk_match, set_cap. cbn [Re.rest Re.caps].
  rewrite consumed_length, str_take_app.
  replace (":ID: " +:+ uid +:+ rest) with ((":ID: " +:+ uid) +:+ rest)
    by now rewrite sapp_assoc.
  now rewrite consumed_length, str_take_app.
Qed.

Lemma lacks_app (c : ascii) (a b : string) :
  lacks c (a +:+ b) = lacks c a && lacks c b.
Proof. apply str_forall_app. Qed.

(** Without a capital I there is no marker. *)
Lemma id_search_lacks (s : string) : forall b,
  lacks "I" s = true -> search_from id_pattern b s = None.
Proof.
  induction s as [|c s IH]; intros b H; cbn [search_from].
  - reflexivity.
  - unfold lacks in H. cbn [str_forall] in H. apply andb_prop in H as [H1 H2].
    rewrite id_pattern_eq, lit_first_none.
    + rewrite <- id_pattern_eq. now apply IH.
    + change ":ID:" with (String ":" "ID:"). rewrite prefix_cons.
      destruct s as [|x s]; [now rewrite andb_false_r|].
      unfold lacks in H2. cbn [str_forall] in H2.
      apply andb_prop in H2 as [Hx _]. apply negb_true_iff in Hx.
      change "ID:" with (String "I" "D:"). rewrite prefix_cons, Hx.
      now rewrite andb_false_r.
Qed.

(** ** File names *)

Lemma rindex_dot_lacks (s : string) : lacks "." s = true -> rindex_dot s = None.
Proof.
  induction s as [|c s IH]; [reflexivity|].
  unfold lacks. cbn [str_forall rindex_dot]. intros H.
  apply andb_prop in H as [H1 H2]. rewrite (IH H2).
  apply negb_true_iff in H1. rewrite Ascii.eqb_sym. now rewrite H1.
Qed.

Lemma rindex_dot_ext (n ext : string) :
  lacks "." ext = true ->
  rindex_dot (n +:+ "." +:+ ext) = Some (String.length n).
Proof.
  intros H. induction n as [|c n IH].
  - change ("" +:+ "." +:+ ext) with (String "." ext).
    cbn [rindex_dot]. now rewrite rindex_dot_lacks.
  - change (String c n +:+ "." +:+ ext) with (String c (n +:+ "." +:+ ext)).
    cbn [rindex_dot]. now rewrite IH.
Qed.

Lemma splitext_root_ext (n ext : string) :
  lacks "." ext = true ->
  splitext_root (n +:+ "." +:+ ext) =
    if str_forall (Ascii.eqb ".") n then n +:+ "." +:+ ext else n.
Proof.
  intros H. unfold splitext_root. rewrite rindex_dot_ext by exact H.
  now rewrite str_take_app.
Qed.

Lemma str_take_drop (k : nat) (s : string) : str_take k s +:+ str_drop k s = s.
Proof.
  revert s. induction k as [|k IH]; intros [|c s]; simpl; try reflexivity.
  now rewrite IH.
Qed.

Lemma endswith_split (s suffix : string) :
  endswith s suffix = true -> exists n, s = n +:+ suffix.
Proof.
  unfold endswith. intros H. apply String.eqb_eq in H.
  exists (str_take (String.length s - String.length suffix) s).
  pose proof (str_take_drop (String.length s - String.length suffix) s) as E.
  rewrite H in E. now symmetry.
Qed.

Lemma endswith_app (n suffix : string) : endswith (n +:+ suffix) suffix = true.
Proof.
  unfold endswith. rewrite consumed_length, str_drop_app. apply String.eqb_refl.
Qed.

(** The title of a note survives the change of extension. *)
Lemma title_roundtrip (md_file : string) :
  endswith md_file ".md" = true ->
  splitext_root (splitext_root md_file +:+ ".org") = splitext_root md_file.
Proof.
  intros H. destruct (endswith_split _ _ H) as [n ->].
  change (n +:+ ".md") with (n +:+ "." +:+ "md").
  rewrite splitext_root_ext by reflexivity.
  destruct (str_forall (Ascii.eqb ".") n) eqn:E.
  - change ((n +:+ "." +:+ "md") +:+ ".org")
      with ((n +:+ "." +:+ "md") +:+ "." +:+ "org").
    rewrite splitext_root_ext by reflexivity.
    rewrite !str_forall_app. cbn [str_forall]. change (Ascii.eqb "." "m") with false.
    now rewrite !andb_false_r.
  - change (n +:+ ".org") with (n +:+ "." +:+ "org").
    rewrite splitext_root_ext by reflexivity. now rewrite E.
Qed.

(** ** [re.sub] with a callback that returns what it was given *)

Lemma match_here_group0 (r : regex) (ne b : bool) (s : string) (m : rmatch) (n : nat) :
  match_here r ne b s = Some (m, n) -> group0 m = str_take n s.
Proof.
  unfold match_here.
  destruct (if ne then _ else _) as [|st' l]; [discriminate|].
  unfold mk_match. now intros [= <- <-].
Qed.

Lemma step_texts (r : regex) (b : bool) (s : string) :
  texts (fst (step_matches r b s)) = str_take (snd (step_matches r b s)) s.
Proof.
  unfold step_matches.
  destruct (match_here r false b s) as [[m [|k]]|] eqn:E1.
  - apply match_here_group0 in E1.
    destruct (match_here r true b s) as [[m2 n2]|] eqn:E2; cbn.
    + apply match_here_group0 in E2. rewrite E1, E2, sapp_nil_r.
      now destruct s.
    + rewrite E1. now destruct s.
  - apply match_here_group0 in E1. cbn [fst snd texts]. now rewrite E1, sapp_nil_r.
  - now destruct s.
Qed.

Lemma finditer_eq (r : regex) (s : string) :
  finditer r s = snd (sub_from r keep true 0 s []).
Proof. reflexivity. Qed.

Section Steps.
Context {St : Type}.
Variable r : regex.
Variable repl : rmatch -> St -> string * St.

Lemma sub_from_step (b : bool) (s : string) (acc : St) :
  sub_from r repl b 0 s acc =
    let p := fold_repl repl (fst (step_matches r b s)) acc in
    match snd (step_matches r b s), s with
    | S k, String _ s' => prepend (fst p) (sub_from r repl false k s' (snd p))
    | _, String c s' =>
        prepend (fst p +:+ String c "") (sub_from r repl false 0 s' (snd p))
    | _, "" => p
    end.
Proof.
  unfold step_matches. destruct s as [|c s]; cbn [sub_from].
  - destruct (match_here r false b "") as [[m [|k]]|].
    + destruct (repl m acc) as [out acc1] eqn:R1.
      destruct (match_here r true b "") as [[m2 n2]|]; cbn [fst snd fold_repl].
      * rewrite R1. cbn [fst snd]. destruct (repl m2 acc1) as [out2 acc2].
        unfold prepend. cbn [fst snd]. destruct n2; now rewrite sapp_nil_r.
      * rewrite R1. unfold prepend. cbn [fst snd]. now rewrite sapp_nil_r.
    + destruct (repl m acc) as [out acc1] eqn:R1. cbn [fst snd fold_repl].
      rewrite R1. unfold prepend. cbn [fst snd]. now rewrite sapp_nil_r.
    + reflexivity.
  - destruct (match_here r false b (String c s)) as [[m [|k]]|].
    + destruct (repl m acc) as [out acc1] eqn:R1.
      destruct (match_here r true b (String c s)) as [[m2 n2]|];
        cbn [fst snd fold_repl].
      * rewrite R1. cbn [fst snd]. destruct (repl m2 acc1) as [out2 acc2].
        destruct n2; unfold prepend; cbn [fst snd]; now rewrite ?sapp_nil_r.
      * rewrite R1. unfold prepend. cbn [fst snd]. now rewrite ?sapp_nil_r.
    + destruct (repl m acc) as [out acc1] eqn:R1. cbn [fst snd fold_repl].
      rewrite R1. unfold prepend. cbn [fst snd]. now rewrite ?sapp_nil_r.
    + reflexivity.
Qed.

Lemma fold_repl_texts (ms : list rmatch) : forall acc,
  (forall m, In m ms -> forall a, fst (repl m a) = group0 m) ->
  fst (fold_repl repl ms acc) = texts ms.
Proof.
  induction ms as [|m ms IH]; intros acc H; [reflexivity|].
  cbn [fold_repl texts]. unfold prepend. cbn [fst].
  rewrite (H m) by now left. rewrite IH; [reflexivity|].
  intros m' Hm'. apply H. now right.
Qed.

End Steps.

Lemma fold_keep (ms : list rmatch) : forall acc,
  fold_repl keep ms acc = ("", acc ++ ms).
Proof.
  induction ms as [|m ms IH]; intros acc; cbn [fold_repl].
  - now rewrite List.app_nil_r.
  - rewrite IH. unfold prepend, keep. cbn [fst snd].
    now rewrite <- List.app_assoc.
Qed.

Lemma snd_prepend_keep (out : string) (p : string * list rmatch) :
  snd (prepend out p) = snd p.
Proof. reflexivity. Qed.

Lemma fst_prepend {St} (out : string) (p : string * St) :
  fst (prepend out p) = out +:+ fst p.
Proof. reflexivity. Qed.

Section Collect.
Variable r : regex.

(** The matches collected are those already there, then the new ones. *)
Lemma keep_acc (s : string) : forall (b : bool) (skip : nat) (acc : list rmatch),
  snd (sub_from r keep b skip s acc) = acc ++ snd (sub_from r keep b skip s []).
Proof.
  induction s as [|c s IH]; intros b skip acc.
  - destruct skip as [|k]; [|cbn [sub_from snd]; now rewrite List.app_nil_r].
    rewrite !sub_from_step. cbv zeta. rewrite !fold_keep.
    now destruct (snd (step_matches r b "")).
  - destruct skip as [|k]; [|cbn [sub_from]; apply IH].
    rewrite !sub_from_step. cbv zeta. rewrite !fold_keep. cbn [fst snd].
    destruct (snd (step_matches r b (String c s))) as [|k]; unfold prepend;
      cbn [snd]; rewrite IH; symmetry; rewrite IH;
      now rewrite List.app_assoc.
Qed.

Context {St : Type}.
Variable repl : rmatch -> St -> string * St.

(** Where the callback returns the text of every match it is given, the
    text is left as it is. *)
Lemma sub_from_identity (s : string) : forall (b : bool) (skip : nat) (acc : St),
  (forall m, In m (snd (sub_from r keep b skip s [])) ->
             forall a, fst (repl m a) = group0 m) ->
  fst (sub_from r repl b skip s acc) = str_drop skip s.
Proof.
  induction s as [|c s IH]; intros b skip acc H.
  - destruct skip as [|k]; [|reflexivity].
    rewrite sub_from_step. rewrite sub_from_step in H. cbv zeta in *.
    pose proof (step_texts r b "") as Ht.
    destruct (step_matches r b "") as [ms n]. cbn [fst snd] in *.
    assert (Hms : forall m, In m ms -> forall a, fst (repl m a) = group0 m).
    { intros m Hm. apply H. destruct n; now rewrite fold_keep. }
    assert (Ht' : texts ms = "") by (rewrite Ht; now destruct n).
    destruct n; now rewrite fold_repl_texts.
  - destruct skip as [|k]; [|cbn [sub_from] in *; now apply IH].
    rewrite sub_from_step. rewrite sub_from_step in H. cbv zeta in *.
    pose proof (step_texts r b (String c s)) as Ht.
    destruct (step_matches r b (String c s)) as [ms n]. cbn [fst snd] in *.
    destruct n as [|k]; rewrite snd_prepend_keep, fold_keep in H;
      cbn [snd List.app] in H; rewrite keep_acc in H;
      rewrite fst_prepend, fold_repl_texts, Ht
        by (intros m Hm; apply H, in_or_app; now left).
    + cbn [str_take String.append str_drop]. f_equal.
      apply (IH false 0). intros m Hm. apply H, in_or_app. now right.
    + cbn [str_take String.append str_drop]. f_equal. rewrite (IH false k).
      * apply str_take_drop.
      * intros m Hm. apply H, in_or_app. now right.
Qed.

End Collect.

(** ** Callbacks that drop the match and set the state *)

Lemma fold_drop_match (ms : list rmatch) : fold_repl drop_match ms tt = ("", tt).
Proof.
  induction ms as [|m ms IH]; [reflexivity|].
  cbn [fold_repl drop_match fst snd]. now rewrite IH.
Qed.

Section SetState.
Context {St : Type}.
Variable r : regex.
Variable g : rmatch -> St.

Lemma fold_set_state (ms : list rmatch) : forall acc,
  fold_repl (set_state g) ms acc = ("", default acc (g <$> last ms)).
Proof.
  induction ms as [|m ms IH]; intros acc; [reflexivity|].
  cbn [fold_repl]. rewrite IH. unfold prepend. cbn [fst snd set_state String.append].
  rewrite last_cons. now destruct (last ms).
Qed.

(** The state at the end is the one set for the last match. *)
Lemma sub_from_last (s : string) : forall (b : bool) (skip : nat) (acc : St),
  snd (sub_from r (set_state g) b skip s acc) =
    default acc (g <$> last (snd (sub_from r keep b skip s []))).
Proof.
  induction s as [|c s IH]; intros b skip acc.
  - destruct skip as [|k]; [|reflexivity].
    rewrite !sub_from_step. cbv zeta. rewrite fold_set_state, fold_keep.
    now destruct (snd (step_matches r b "")).
  - destruct skip as [|k]; [|cbn [sub_from]; apply IH].
    rewrite !sub_from_step. cbv zeta. rewrite fold_set_state, fold_keep.
    cbn [fst snd List.app].
    destruct (snd (step_matches r b (String c s))) as [|k];
      rewrite snd_prepend_keep, keep_acc, last_app;
      unfold prepend; cbn [snd]; rewrite IH;
      now destruct (last (snd (sub_from r keep false _ s []))).
Qed.

(** The text that comes out is the subject without the matches. *)
Lemma sub_from_removed (s : string) : forall (b : bool) (skip : nat) (acc : St),
  fst (sub_from r (set_state g) b skip s acc) =
  fst (sub_from r drop_match b skip s tt).
Proof.
  induction s as [|c s IH]; intros b skip acc.
  - destruct skip as [|k]; [|reflexivity].
    rewrite !sub_from_step. cbv zeta. rewrite fold_set_state, fold_drop_match.
    now destruct (snd (step_matches r b "")).
  - destruct skip as [|k]; [|cbn [sub_from]; apply IH].
    rewrite !sub_from_step. cbv zeta. rewrite fold_set_state, fold_drop_match.
    cbn [fst snd].
    destruct (snd (step_matches r b (String c s))) as [|k];
      rewrite !fst_prepend; now rewrite IH.
Qed.

End SetState.

(** ** Link rewriting, one occurrence *)

Lemma link_caps_groups (w target : string) (subheading alias : option string) :
  let m := RMatch w (link_caps target subheading alias) in
  group m 1 = Some target /\ group m 2 = subheading /\ group m 3 = alias.
Proof. destruct subheading, alias; repeat split; reflexivity. Qed.

(** Before a wiki-link no other match starts when the text holds no two
    opening brackets in a row and does not end with one. *)
Lemma quiet_free_of_open (r : regex) (pre s : string) : forall b,
  free_of_open pre = true -> quiet (Lit "[[" >> r) b pre s.
Proof.
  induction pre as [|c pre IH]; intros b H; [exact I|].
  cbn [free_of_open] in H. apply andb_prop in H as [H1 H2].
  split; [|now apply IH].
  apply lit_first_none.
  change (String c pre +:+ s) with (String c (pre +:+ s)).
  rewrite prefix_cons. destruct (Ascii.eqb "[" c); [|reflexivity].
  destruct pre as [|c' pre]; [discriminate|].
  change (String c' pre +:+ s) with (String c' (pre +:+ s)).
  rewrite prefix_cons. cbn [andb negb] in H1.
  apply negb_true_iff in H1. now rewrite H1.
Qed.

Section LinkStep.
Variable repl : rmatch -> string.

Lemma link_sub_step (pre target : string) (subheading alias : option string)
    (post : string) :
  free_of_open pre = true -> link_ok target subheading alias = true ->
  sub link_pattern repl (pre +:+ wikilink target subheading alias +:+ post) =
    pre +:+ repl (RMatch (wikilink target subheading alias)
                    (link_caps target subheading alias))
    +:+ sub link_pattern repl post.
Proof.
  intros Hpre Hok. unfold sub, sub_st. rewrite link_pattern_eq.
  erewrite (sub_from_lit_step "[" "[" _ _ true pre);
    [| now apply quiet_free_of_open | apply wikilink_nonempty
     | intros b'; rewrite <- link_pattern_eq; now apply link_match].
  unfold prepend. cbn [fst snd]. now rewrite sapp_assoc.
Qed.

End LinkStep.

Lemma roam_transform_resolved (ids : gmap string string) (w target : string)
    (subheading alias : option string) (U : string) :
  ids !! target = Some U ->
  Roam.transform_link ids (RMatch w (link_caps target subheading alias)) =
    "[[id:" +:+ U +:+ (if truthy subheading then "::" +:+ fmt subheading else "")
    +:+ "][" +:+ (if truthy alias then fmt alias else target) +:+ "]]".
Proof.
  intros HU. unfold Roam.transform_link.
  destruct (link_caps_groups w target subheading alias) as (-> & -> & ->).
  cbn [mbind option_bind]. rewrite HU.
  destruct (truthy subheading), (truthy alias); cbn [fmt default];
    now rewrite ?sapp_assoc, ?sapp_nil_r.
Qed.

Lemma roam_transform_unresolved (ids : gmap string string) (w target : string)
    (subheading alias : option string) :
  ids !! target = None ->
  Roam.transform_link ids (RMatch w (link_caps target subheading alias)) = w.
Proof.
  intros HU. unfold Roam.transform_link.
  destruct (link_caps_groups w target subheading alias) as (-> & _).
  cbn [mbind option_bind]. now rewrite HU.
Qed.

Lemma org_transform_alias (w target : string) (subheading : option string)
    (a : string) :
  nonempty a = true ->
  Org.transform_link (RMatch w (link_caps target subheading (Some a))) =
    "[[" +:+ target +:+ (if truthy subheading then "::" +:+ fmt subheading else "")
    +:+ "][" +:+ a +:+ "]]".
Proof.
  intros Ha. unfold Org.transform_link.
  destruct (link_caps_groups w target subheading (Some a)) as (-> & -> & ->).
  assert (truthy (Some a) = true) as -> by now destruct a.
  destruct (truthy subheading); cbn [fmt default];
    now rewrite ?sapp_assoc, ?sapp_nil_r.
Qed.

Lemma image_sub_lacks (s : string) :
  lacks "!" s = true -> sub image_pattern Roam.transform_image s = s.
Proof.
  intros H. unfold sub, sub_st.
  change image_pattern with
    (Lit (String "!" "[") >> Grp 1 (Star Lazy (Cls dot)) >> Lit "]("
     >> Grp 2 (Star Lazy (Cls dot)) >> Chr ")")%re.
  now rewrite sub_from_lit_lacks.
Qed.

Lemma sub_search_none (r : regex) (repl : rmatch -> string) (s : string) :
  search r s = None -> sub r repl s = s.
Proof.
  intros H. unfold sub, sub_st. now rewrite sub_from_search_none.
Qed.

Lemma sub_finditer_identity (r : regex) (repl : rmatch -> string) (s : string) :
  (forall m, In m (finditer r s) -> repl m = group0 m) -> sub r repl s = s.
Proof.
  intros H. unfold sub, sub_st.
  rewrite (sub_from_identity r (fun m (_ : unit) => (repl m, tt)) s true 0 tt).
  - reflexivity.
  - intros m Hm a. cbn [fst]. now apply H.
Qed.

(** * The claims *)

(** ** C5: the Header Stripper *)

Lemma remove_md_header_region (x rest : string) :
  has_dash_line x = false ->
  Roam.remove_md_header (OPEN +:+ x +:+ CLOSE +:+ rest) = rest.
Proof.
  intros H. rewrite remove_md_header_spec, prefix_app.
  change (str_drop 4 (OPEN +:+ x +:+ CLOSE +:+ rest)) with (x +:+ CLOSE +:+ rest).
  now rewrite after_close_lines.
Qed.

Lemma remove_md_header_other (text : string) :
  String.prefix OPEN text = false -> Roam.remove_md_header text = text.
Proof. intros H. now rewrite remove_md_header_spec, H. Qed.

(** C5. A text that begins with a line of three hyphens, a content [x]
    that has no line of three hyphens, and a closing line of three hyphens
    loses exactly that prefix; a text that does not begin with a line of
    three hyphens is returned unchanged; and a second delimited region
    later in the text stays. The three scripts share the function. *)
Theorem C5_header_stripper :
  (forall x rest : string,
     has_dash_line x = false ->
     Roam.remove_md_header ("---" +:+ LF +:+ x +:+ LF +:+ "---" +:+ LF +:+ rest) = rest)
  /\ (forall text : string,
        String.prefix ("---" +:+ LF) text = false ->
        Roam.remove_md_header text = text)
  /\ (forall x mid y rest : string,
        has_dash_line x = false ->
        Roam.remove_md_header
          ("---" +:+ LF +:+ x +:+ LF +:+ "---" +:+ LF
           +:+ mid +:+ "---" +:+ LF +:+ y +:+ LF +:+ "---" +:+ LF +:+ rest)
        = mid +:+ "---" +:+ LF +:+ y +:+ LF +:+ "---" +:+ LF +:+ rest)
  /\ Org.remove_md_header = Roam.remove_md_header
  /\ Root.remove_md_header = Roam.remove_md_header.
Proof.
  repeat split.
  - intros x rest H. apply (remove_md_header_region x rest H).
  - apply remove_md_header_other.
  - intros x mid y rest H.
    apply (remove_md_header_region x
             (mid +:+ "---" +:+ LF +:+ y +:+ LF +:+ "---" +:+ LF +:+ rest) H).
Qed.

Lemma C5_header_stripper_witness :
  Roam.remove_md_header
    ("---" +:+ LF +:+ ("title: x" +:+ LF +:+ "tags: y") +:+ LF +:+ "---" +:+ LF
     +:+ "Body") = "Body"
  /\ Roam.remove_md_header ("Body" +:+ LF +:+ "---" +:+ LF) = "Body" +:+ LF +:+ "---" +:+ LF
  /\ Roam.remove_md_header
       ("---" +:+ LF +:+ "a" +:+ LF +:+ "---" +:+ LF
        +:+ ("Body" +:+ LF) +:+ "---" +:+ LF +:+ "b" +:+ LF +:+ "---" +:+ LF +:+ "end")
     = ("Body" +:+ LF) +:+ "---" +:+ LF +:+ "b" +:+ LF +:+ "---" +:+ LF +:+ "end".
Proof.
  destruct C5_header_stripper as (Ha & Hb & Hc & _).
  split; [|split].
  - apply (Ha ("title: x" +:+ LF +:+ "tags: y") "Body"). reflexivity.
  - apply Hb. reflexivity.
  - apply (Hc "a" ("Body" +:+ LF) "b" "end"). reflexivity.
Defined.

(** ** The Tag Extractor on any text *)

(** The text comes back without the matches of the block pattern, the
    tags are those of the last match. *)
Lemma extract_last (render : list string -> string) (text : string) :
  sub_st tags_block_pattern (tags_callback render) text "" =
    (sub tags_block_pattern (fun _ => "") text,
     match last (finditer tags_block_pattern text) with
     | Some m => render (findall tag_pattern (group0 m))
     | None => ""
     end).
Proof.
  unfold sub_st.
  rewrite (surjective_pairing (sub_from _ _ _ _ _ _)). f_equal.
  - apply (sub_from_removed tags_block_pattern
             (fun m => render (findall tag_pattern (group0 m)))).
  - change (tags_callback render)
      with (set_state (fun m => render (findall tag_pattern (group0 m)))).
    rewrite sub_from_last, finditer_eq.
    now destruct (last _).
Qed.

(** ** C8, C10: the Tag Extractor on well-formed blocks *)

(** C10. For every text, one call removes every match of the block
    pattern, and the tags returned are those read from the last match
    (none when there is no match): what was read from the matches before
    it is lost. For a text that holds two or more well-formed blocks this
    gives the text between the blocks and the words of the last block. *)
Theorem C10_last_block_wins :
  (forall text : string,
     Roam.extract_and_convert_tags text =
       (sub tags_block_pattern (fun _ => "") text,
        match last (finditer tags_block_pattern text) with
        | Some m => ":" +:+ join ":" (findall tag_pattern (group0 m)) +:+ ":"
        | None => ""
        end)
     /\ Org.extract_and_convert_tags text =
          (sub tags_block_pattern (fun _ => "") text,
           match last (finditer tags_block_pattern text) with
           | Some m =>
               "#+FILETAGS: "
               +:+ join " " (map (fun tag => ":" +:+ tag +:+ ":")
                               (findall tag_pattern (group0 m)))
           | None => ""
           end))
  /\ (forall (pre : string) (blocks : list (tags_block * string)) (B : tags_block),
     2 <= List.length blocks ->
     no_tags_start pre (doc_text blocks) = true ->
     doc_ok blocks = true ->
     last_block blocks = Some B ->
     Roam.extract_and_convert_tags (pre +:+ doc_text blocks) =
       (pre +:+ doc_body blocks, ":" +:+ join ":" (tag_words B) +:+ ":")
     /\ Org.extract_and_convert_tags (pre +:+ doc_text blocks) =
          (pre +:+ doc_body blocks,
           "#+FILETAGS: "
           +:+ join " " (map (fun tag => ":" +:+ tag +:+ ":") (tag_words B))))
  /\ Roam.extract_and_convert_tags
       ("tags:" +:+ LF +:+ "- a" +:+ LF +:+ "x" +:+ LF
        +:+ "tags:" +:+ LF +:+ "- b" +:+ LF)
     = ("x" +:+ LF, ":b:").
Proof.
  split; [|split; [|reflexivity]].
  { intros text. split.
    - rewrite roam_extract_eq. apply (extract_last roam_render).
    - rewrite org_extract_eq. apply (extract_last org_render). }
  intros pre blocks B _ Hpre Hok Hlast. split.
  - rewrite roam_extract_eq, (extract_pre_doc roam_render) by assumption.
    now rewrite Hlast.
  - rewrite org_extract_eq, (extract_pre_doc org_render) by assumption.
    now rewrite Hlast.
Qed.

Lemma C10_last_block_wins_witness :
  let B1 := TagsBlock LF [TagItem " " "a" LF] in
  let B2 := TagsBlock " " [TagItem " " "b" LF; TagItem " " "c" ""] in
  Roam.extract_and_convert_tags
    ("intro" +:+ LF +:+ block_text B1 +:+ ("x" +:+ LF) +:+ block_text B2 +:+ "" +:+ "")
  = ("intro" +:+ LF +:+ ("x" +:+ LF) +:+ "" +:+ "", ":b:c:").
Proof.
  destruct C10_last_block_wins as (_ & H & _).
  exact (proj1 (H ("intro" +:+ LF)
                  [(TagsBlock LF [TagItem " " "a" LF], "x" +:+ LF);
                   (TagsBlock " " [TagItem " " "b" LF; TagItem " " "c" ""], "")]
                  (TagsBlock " " [TagItem " " "b" LF; TagItem " " "c" ""])
                  (le_n 2) eq_refl eq_refl eq_refl)).
Defined.

(** ** C9: input that does not match *)



(** ** C3: blocks that are not list items of bare words *)

Lemma tags_block_at_first_item (ws x : string) :
  str_forall is_space ws = true -> starts_with is_space x = false ->
  tags_block_at ("tags:" +:+ ws +:+ x) = tags_item_at x.
Proof.
  intros Hws Hx. unfold tags_block_at.
  rewrite prefix_app.
  change (str_drop 5 ("tags:" +:+ ws +:+ x)) with (ws +:+ x).
  now rewrite drop_while_app.
Qed.

(** C3, against the claim: a multi-word tag, and a second item with
    another list marker. The block is recognized up to the first word,
    that part is removed and its tag extracted. *)
Lemma C3_partly_recognized :
  Roam.extract_and_convert_tags ("tags:" +:+ LF +:+ "- foo bar" +:+ LF)
  = ("bar" +:+ LF, ":foo:")
  /\ Roam.extract_and_convert_tags ("tags:" +:+ LF +:+ "- a" +:+ LF +:+ "* b" +:+ LF)
     = ("* b" +:+ LF, ":a:").
Proof. split; reflexivity. Qed.

(** C3, amended. The Tag Extractor returns a text unchanged and without
    tags exactly when no place in it reads [tags:], optional whitespace,
    a hyphen, whitespace and a word character. After [tags:] and
    whitespace such a place is there exactly when the first list item is
    a hyphen, whitespace and a word character: a first item that is
    quoted or has another marker makes no block. A block whose first
    items are bare words is recognized up to the last of them, whatever
    follows (the second word of a tag, a quoted item, another marker):
    that part is removed, its tags are extracted, the rest stays. *)
Theorem C3_recognition_exact :
  (forall text : string,
     Roam.extract_and_convert_tags text = (text, "")
     <-> has_tags_block text = false)
  /\ (forall text : string,
        Org.extract_and_convert_tags text = (text, "")
        <-> has_tags_block text = false)
  /\ (forall ws x : string,
        str_forall is_space ws = true -> starts_with is_space x = false ->
        tags_block_at ("tags:" +:+ ws +:+ x) = tags_item_at x)
  /\ (forall (B : tags_block) (post : string),
        block_ok B = true -> block_ends B post = true ->
        has_tags_block post = false ->
        Roam.extract_and_convert_tags (block_text B +:+ post) =
          (post, ":" +:+ join ":" (tag_words B) +:+ ":")).
Proof.
  split; [|split; [|split]].
  - intros text. split.
    + intros H. destruct (has_tags_block text) eqn:E; [|reflexivity].
      apply roam_extract_found in E. rewrite H in E. now contradiction E.
    + intros H. rewrite roam_extract_eq. now apply extract_none.
  - intros text. split.
    + intros H. destruct (has_tags_block text) eqn:E; [|reflexivity].
      apply org_extract_found in E. rewrite H in E. now contradiction E.
    + intros H. rewrite org_extract_eq. now apply extract_none.
  - apply tags_block_at_first_item.
  - intros B post HB Hend Hpost. rewrite roam_extract_eq.
    now apply (extract_one_block roam_render "").
Qed.

Lemma C3_recognition_exact_witness :
  Roam.extract_and_convert_tags ("tags:" +:+ LF +:+ "* foo" +:+ LF)
  = ("tags:" +:+ LF +:+ "* foo" +:+ LF, "")
  /\ tags_block_at ("tags:" +:+ LF +:+ "- 'foo'") = false
  /\ Roam.extract_and_convert_tags
       (block_text (TagsBlock LF [TagItem " " "foo" " "]) +:+ ("bar" +:+ LF))
     = ("bar" +:+ LF, ":foo:").
Proof.
  destruct C3_recognition_exact as (H1 & _ & H3 & H4).
  split; [|split].
  - apply (proj2 (H1 ("tags:" +:+ LF +:+ "* foo" +:+ LF))). reflexivity.
  - apply (H3 LF "- 'foo'"); reflexivity.
  - apply (H4 (TagsBlock LF [TagItem " " "foo" " "]) ("bar" +:+ LF)); reflexivity.
Defined.

(** ** C6, C7: one wiki-link occurrence *)

(** C6. For every match of the link pattern whose target is in the
    Identifier Index, the identifier-resolving rewrite gives a link
    addressed by the identifier, with the subheading after a double colon
    when there is one, and with the alias as display text when there is
    one and the target otherwise. In a text, a wiki-link occurrence that
    comes after text holding no two opening brackets in a row and not
    ending with one is replaced by that link, and the text after the
    occurrence is rewritten in turn. The whole function on
    [[[Note]]] alone gives the link addressed by the identifier of Note
    with display text Note (an identifier holds no exclamation mark, so
    the image pass leaves it). *)
Theorem C6_resolved_link :
  (forall (existing_ids : gmap string string) (m : rmatch) (target U : string),
     group m 1 = Some target -> existing_ids !! target = Some U ->
     Roam.transform_link existing_ids m =
       "[[id:" +:+ U
       +:+ (if truthy (group m 2) then "::" +:+ fmt (group m 2) else "")
       +:+ "][" +:+ (if truthy (group m 3) then fmt (group m 3) else target)
       +:+ "]]")
  /\ (forall (existing_ids : gmap string string) (pre target : string)
          (subheading alias : option string) (post U : string),
     free_of_open pre = true -> link_ok target subheading alias = true ->
     existing_ids !! target = Some U ->
     sub link_pattern (Roam.transform_link existing_ids)
       (pre +:+ wikilink target subheading alias +:+ post) =
     pre
     +:+ ("[[id:" +:+ U
          +:+ (if truthy subheading then "::" +:+ fmt subheading else "")
          +:+ "][" +:+ (if truthy alias then fmt alias else target) +:+ "]]")
     +:+ sub link_pattern (Roam.transform_link existing_ids) post)
  /\ (forall (existing_ids : gmap string string) (U : string),
        existing_ids !! "Note" = Some U -> lacks "!" U = true ->
        Roam.convert_links_and_images "[[Note]]" existing_ids =
          "[[id:" +:+ U +:+ "][Note]]").
Proof.
  split; [|split].
  - intros ids m target U Ht HU. unfold Roam.transform_link.
    rewrite Ht. cbn [mbind option_bind]. rewrite HU.
    destruct (truthy (group m 2)), (truthy (group m 3)); cbn [fmt default];
      now rewrite ?sapp_assoc, ?sapp_nil_r.
  - intros ids pre target subheading alias post U Hpre Hok HU.
    rewrite link_sub_step by assumption.
    now rewrite (roam_transform_resolved ids _ target subheading alias U HU).
  - intros ids U HU Hbang. unfold Roam.convert_links_and_images.
    pose proof (link_sub_step (Roam.transform_link ids) "" "Note" None None ""
                  eq_refl eq_refl) as H.
    change ("" +:+ wikilink "Note" None None +:+ "") with "[[Note]]" in H.
    rewrite H, (roam_transform_resolved ids _ "Note" None None U HU).
    cbn [truthy fmt default String.append].
    change (sub link_pattern (Roam.transform_link ids) "") with "".
    rewrite image_sub_lacks; [now rewrite ?sapp_assoc, ?sapp_nil_r|].
    rewrite ?sapp_assoc, ?sapp_nil_r.
    change (lacks "!" (String "[" (String "[" (String "i" (String "d"
              (String ":" (U +:+ "][Note]]")))))) = true).
    unfold lacks in *. cbn [str_forall]. rewrite str_forall_app, Hbang.
    reflexivity.
Qed.

Lemma C6_resolved_link_witness :
  sub link_pattern
    (Roam.transform_link {[ "Note" := "123e4567-e89b-42d3-a456-426614174000" ]})
    ("see " +:+ wikilink "Note" (Some "Part") (Some "here") +:+ " and [[Other]]")
  = "see "
    +:+ ("[[id:" +:+ "123e4567-e89b-42d3-a456-426614174000"
         +:+ ("::" +:+ "Part") +:+ "][" +:+ "here" +:+ "]]")
    +:+ sub link_pattern
          (Roam.transform_link {[ "Note" := "123e4567-e89b-42d3-a456-426614174000" ]})
          " and [[Other]]"
  /\ Roam.convert_links_and_images "[[Note]]"
       {[ "Note" := "123e4567-e89b-42d3-a456-426614174000" ]}
     = "[[id:" +:+ "123e4567-e89b-42d3-a456-426614174000" +:+ "][Note]]".
Proof.
  destruct C6_resolved_link as (_ & H1 & H2). split.
  - apply (H1 {[ "Note" := "123e4567-e89b-42d3-a456-426614174000" ]}
              "see " "Note" (Some "Part") (Some "here") " and [[Other]]"
              "123e4567-e89b-42d3-a456-426614174000");
      reflexivity.
  - apply H2; reflexivity.
Defined.

(** C7. For every match of the link pattern with an alias whose target
    is not in the Identifier Index: the plain rewrite gives a link
    addressed by the target as written (the subheading after a double
    colon when there is one) with the alias as display text; the
    identifier-resolving rewrite gives the text of the match. In a text,
    a wiki-link occurrence that comes after text holding no two opening
    brackets in a row and not ending with one is replaced so by the
    plain rewrite and left as it is by the other. So
    [[[Note|Alias]]] becomes [[[Note][Alias]]] in the plain script and
    stays in the other. *)
Theorem C7_unresolved_alias_link :
  (forall (m : rmatch) (target a : string),
     group m 1 = Some target -> group m 3 = Some a -> nonempty a = true ->
     Org.transform_link m =
       "[[" +:+ target
       +:+ (if truthy (group m 2) then "::" +:+ fmt (group m 2) else "")
       +:+ "][" +:+ a +:+ "]]")
  /\ (forall (existing_ids : gmap string string) (m : rmatch) (target : string),
        group m 1 = Some target -> existing_ids !! target = None ->
        Roam.transform_link existing_ids m = group0 m)
  /\ (forall (pre target : string) (subheading : option string) (a post : string),
     free_of_open pre = true -> link_ok target subheading (Some a) = true ->
     nonempty a = true ->
     Org.convert_links (pre +:+ wikilink target subheading (Some a) +:+ post) =
     pre
     +:+ ("[[" +:+ target
          +:+ (if truthy subheading then "::" +:+ fmt subheading else "")
          +:+ "][" +:+ a +:+ "]]")
     +:+ Org.convert_links post)
  /\ (forall (existing_ids : gmap string string) (pre target : string)
             (subheading alias : option string) (post : string),
        free_of_open pre = true -> link_ok target subheading alias = true ->
        existing_ids !! target = None ->
        sub link_pattern (Roam.transform_link existing_ids)
          (pre +:+ wikilink target subheading alias +:+ post) =
        pre +:+ wikilink target subheading alias
        +:+ sub link_pattern (Roam.transform_link existing_ids) post)
  /\ Org.convert_links "[[Note|Alias]]" = "[[Note][Alias]]"
  /\ (forall existing_ids : gmap string string,
        existing_ids !! "Note" = None ->
        Roam.convert_links_and_images "[[Note|Alias]]" existing_ids
        = "[[Note|Alias]]").
Proof.
  split; [|split; [|split; [|split; [|split]]]].
  - intros m target a Ht Ha Hne. unfold Org.transform_link.
    rewrite Ht, Ha.
    assert (truthy (Some a) = true) as -> by now destruct a.
    destruct (truthy (group m 2)); cbn [fmt default];
      now rewrite ?sapp_assoc, ?sapp_nil_r.
  - intros ids m target Ht HU. unfold Roam.transform_link.
    rewrite Ht. cbn [mbind option_bind]. now rewrite HU.
  - intros pre target subheading a post Hpre Hok Ha.
    unfold Org.convert_links. rewrite link_sub_step by assumption.
    now rewrite (org_transform_alias _ target subheading a Ha).
  - intros ids pre target subheading alias post Hpre Hok HU.
    rewrite link_sub_step by assumption.
    now rewrite (roam_transform_unresolved ids _ target subheading alias HU).
  - reflexivity.
  - intros ids HU. unfold Roam.convert_links_and_images.
    pose proof (link_sub_step (Roam.transform_link ids) "" "Note" None (Some "Alias") ""
                  eq_refl eq_refl) as H.
    change ("" +:+ wikilink "Note" None (Some "Alias") +:+ "") with "[[Note|Alias]]" in H.
    rewrite H, (roam_transform_unresolved ids _ "Note" None (Some "Alias") HU).
    reflexivity.
Qed.

Lemma C7_unresolved_alias_link_witness :
  Org.convert_links ("see " +:+ wikilink "Note" (Some "Part") (Some "here") +:+ ".")
  = "see " +:+ ("[[" +:+ "Note" +:+ ("::" +:+ "Part") +:+ "][" +:+ "here" +:+ "]]")
    +:+ Org.convert_links "."
  /\ sub link_pattern (Roam.transform_link {[ "Other" := "u" ]})
       ("see " +:+ wikilink "Note" None (Some "here") +:+ ".")
     = "see " +:+ wikilink "Note" None (Some "here")
       +:+ sub link_pattern (Roam.transform_link {[ "Other" := "u" ]}) "."
  /\ Roam.convert_links_and_images "[[Note|Alias]]" {[ "Other" := "u" ]}
     = "[[Note|Alias]]".
Proof.
  destruct C7_unresolved_alias_link as (_ & _ & H1 & H2 & _ & H4).
  split; [|split].
  - apply (H1 "see " "Note" (Some "Part") "here" "."); reflexivity.
  - apply (H2 {[ "Other" := "u" ]} "see " "Note" None (Some "here") ".");
      reflexivity.
  - apply H4. reflexivity.
Defined.

(** ** C4: a second application *)

Lemma header_at_changes (o : string) :
  Roam.remove_md_header o = o <-> header_at o = false.
Proof.
  rewrite remove_md_header_spec. unfold header_at.
  destruct (String.prefix OPEN o) eqn:Hp; [|now split].
  destruct (after_close (str_drop 4 o)) as [s'|] eqn:Hc; [|now split].
  split; [|discriminate]. intros ->.
  apply after_close_shorter in Hc. pose proof (str_drop_length 4 o). lia.
Qed.

Lemma roam_links_fixed (o : string) (ids : gmap string string) :
  forallb (unresolved ids) (finditer link_pattern o) = true ->
  search image_pattern o = None ->
  Roam.convert_links_and_images o ids = o.
Proof.
  intros Hl Hi. unfold Roam.convert_links_and_images.
  rewrite (sub_finditer_identity link_pattern).
  - apply sub_search_none. exact Hi.
  - intros m Hm. rewrite List.forallb_forall in Hl. specialize (Hl m Hm).
    unfold unresolved in Hl. unfold Roam.transform_link.
    now destruct (group m 1 ≫= (ids !!.)).
Qed.

Lemma org_links_fixed (o : string) :
  forallb (fun m => String.eqb (Org.transform_link m) (group0 m))
    (finditer link_pattern o) = true ->
  Org.convert_links o = o.
Proof.
  intros Hl. unfold Org.convert_links. apply sub_finditer_identity.
  intros m Hm. rewrite List.forallb_forall in Hl. now apply String.eqb_eq, Hl.
Qed.


(** ** C1: the identifier in the generated header *)

Lemma search_from_here (r : regex) (b : bool) (s : string) (m : rmatch) (n : nat) :
  match_here r false b s = Some (m, n) -> search_from r b s = Some m.
Proof. intros H. destruct s; cbn [search_from]; now rewrite H. Qed.

Lemma drawer_search (uid tail : string) :
  nonempty uid = true -> str_forall not_space uid = true ->
  search id_pattern
    (":PROPERTIES:" +:+ LF +:+ ":ID: " +:+ uid +:+ LF +:+ tail) =
  Some (RMatch (":ID: " +:+ uid) [(1, uid)]).
Proof.
  intros Hne Hns. unfold search.
  replace (":PROPERTIES:" +:+ LF +:+ ":ID: " +:+ uid +:+ LF +:+ tail)
    with ((":PROPERTIES:" +:+ LF) +:+ ":ID: " +:+ uid +:+ LF +:+ tail)
    by now rewrite !sapp_assoc.
  rewrite search_from_quiet.
  - apply (search_from_here _ _ _ _ _ (id_match _ uid (LF +:+ tail) Hne Hns eq_refl)).
  - cbn [quiet]. repeat split; apply lit_first_none; reflexivity.
Qed.

Lemma roam_header_scan (pandoc : string -> string)
    (md_file content uid : string) (ids ids0 : gmap string string) :
  endswith md_file ".md" = true ->
  nonempty uid = true -> str_forall not_space uid = true ->
  Roam.scan_files [fst (Roam.convert_file pandoc md_file content uid ids)] ids0
  = <[splitext_root md_file := uid]> ids0.
Proof.
  intros Hmd Hne Hns. unfold Roam.convert_file.
  destruct (Roam.extract_and_convert_tags content) as [c1 tags].
  unfold Roam.generate_org_roam_header. cbn [fst Roam.scan_files].
  rewrite endswith_app, !sapp_assoc.
  rewrite (drawer_search uid _ Hne Hns). cbn [group groups assoc Nat.eqb].
  now rewrite (title_roundtrip md_file Hmd).
Qed.

Lemma root_header_search (file_path tags uid body : string) :
  lacks "I" (splitext_root file_path) = true -> lacks "I" tags = true ->
  lacks "I" uid = true -> lacks "I" body = true ->
  search id_pattern (Root.generate_org_roam_header file_path tags uid +:+ body)
  = None.
Proof.
  intros Ht Hg Hu Hb. apply id_search_lacks.
  unfold Root.generate_org_roam_header.
  destruct (nonempty tags); rewrite !lacks_app, ?Ht, ?Hg, ?Hu, ?Hb; reflexivity.
Qed.

(** C1, against the claim: the header of the inline-directive style
    carries the identifier in a [#+id:] line, and the Index Builder,
    which looks for [:ID:], records nothing for the file. *)
Lemma C1_inline_header_not_found :
  Roam.build_existing_ids_map
    [("A.org",
      Root.generate_org_roam_header "A.org" ""
        "123e4567-e89b-42d3-a456-426614174000" +:+ "Body")] !! "A"
  = None.
Proof. reflexivity. Qed.

(** ** C2: the Identifier Index within a run *)

Lemma convert_file_index (pandoc : string -> string)
    (md_file content uid : string) (ids : gmap string string) :
  snd (Roam.convert_file pandoc md_file content uid ids)
  = <[splitext_root md_file := uid]> ids.
Proof.
  unfold Roam.convert_file.
  now destruct (Roam.extract_and_convert_tags content).
Qed.

Lemma convert_all_index (pandoc : string -> string)
    (notes : list (string * string * string)) :
  forall (ids : gmap string string) (t : string),
  snd (Roam.convert_all pandoc notes ids) !! t =
    match last_id t notes with
    | Some u => Some u
    | None => ids !! t
    end.
Proof.
  induction notes as [|[[md_file content] uid] notes IH]; intros ids t.
  - reflexivity.
  - cbn [Roam.convert_all last_id].
    pose proof (convert_file_index pandoc md_file content uid ids) as E.
    destruct (Roam.convert_file pandoc md_file content uid ids) as [out ids1].
    cbn [snd] in E. subst ids1.
    specialize (IH (<[splitext_root md_file := uid]> ids) t).
    destruct (Roam.convert_all pandoc notes (<[splitext_root md_file := uid]> ids))
      as [outs ids2].
    cbn [snd] in *. rewrite IH.
    destruct (last_id t notes); [reflexivity|].
    destruct (String.eqb_spec (splitext_root md_file) t) as [->|Hne].
    + apply lookup_insert_eq.
    + now apply lookup_insert_ne.
Qed.

(** C2, against the claim: a title that has an identifier (from the scan
    of the output directory, or from a file converted before) gets the
    new identifier when a file with that title is converted. *)
Lemma C2_later_file_overwrites :
  snd (Roam.convert_file (fun s => s) "A.md" "" "u2" {[ "A" := "u1" ]}) !! "A"
  = Some "u2"
  /\ snd (Roam.convert_all (fun s => s)
            [("A.md", "", "u1"); ("A.md", "x", "u2")] ∅) !! "A"
     = Some "u2".
Proof. split; reflexivity. Qed.

(** ** The Header Stripper on every text *)

(** X1. The Header Stripper as a function of the text: a text that
    starts with a line of three hyphens and holds, after it, a newline,
    three hyphens and a newline loses everything up to the first such
    place, that place included; every other text is returned as it is. *)
Theorem X1_header_stripper_exact :
  forall text : string,
    Roam.remove_md_header text =
      if String.prefix ("---" +:+ LF) text
      then match after_close (str_drop 4 text) with
           | Some rest => rest
           | None => text
           end
      else text.
Proof. intros text. apply remove_md_header_spec. Qed.

(** * Further properties of the scripts *)

(** ** Tokens: what [\s+(\S+)] reads *)

Lemma str_take_consumed (p : ascii -> bool) (s : string) :
  str_take (String.length s - String.length (drop_while p s)) s = take_while p s.
Proof.
  rewrite <- (take_drop_while p s) at 1 3.
  now rewrite consumed_length, str_take_app.
Qed.

Lemma take_while_nonempty (p : ascii -> bool) (s : string) :
  starts_with p s = true -> nonempty (take_while p s) = true.
Proof.
  destruct s as [|c s]; [discriminate|]. cbn [starts_with take_while].
  now intros ->.
Qed.

Lemma token_of_is_token (s : string) :
  token_at s = true -> is_token (token_of s) = true.
Proof.
  unfold token_at, token_of, is_token. intros H.
  apply andb_prop in H as [_ H].
  now rewrite take_while_nonempty, take_while_all.
Qed.

(** The ways of [\s+(\S+)]: none without a token, the whole token first. *)
Lemma token_ways (b : bool) (s : string) (cs : list (nat * string)) :
  exists tl,
    matches (Plus Greedy (Cls is_space) >> Grp 1 (Plus Greedy (Cls not_space)))
      (MState b s cs) =
    if token_at s
    then MState false (drop_while not_space (drop_while is_space s))
           ((1, token_of s) :: cs) :: tl
    else [].
Proof.
  rewrite matches_seq.
  rewrite plus_greedy_cls_then by apply not_space_dies_at_space.
  unfold token_at, token_of.
  destruct (starts_with is_space s); [|now exists []].
  rewrite matches_grp. cbn [andb Re.rest].
  destruct (starts_with not_space (drop_while is_space s)) eqn:E.
  - destruct (plus_greedy_cls not_space cs _ false E) as (tl & -> & _).
    exists (map (set_cap 1 (drop_while is_space s)) tl).
    cbn [map]. unfold set_cap. cbn [Re.rest Re.caps Re.bos].
    now rewrite str_take_consumed.
  - rewrite plus_cls_none by exact E. now exists [].
Qed.

(** ** The identifier pattern on every text *)

Lemma id_match_exact (b : bool) (s : string) :
  match_here id_pattern false b s =
    if String.prefix ":ID:" s && token_at (str_drop 4 s)
    then Some (mk_match s
                 (MState false
                    (drop_while not_space (drop_while is_space (str_drop 4 s)))
                    [(1, token_of (str_drop 4 s))]))
    else None.
Proof.
  destruct (String.prefix ":ID:" s) eqn:Hp.
  - pose proof (prefix_split _ _ Hp) as Hs.
    change (String.length ":ID:") with 4 in Hs.
    unfold match_here. rewrite id_pattern_eq, matches_seq.
    rewrite Hs at 1. rewrite matches_lit_app. cbn [flat_map].
    rewrite List.app_nil_r.
    destruct (token_ways (b && negb (nonempty ":ID:")) (str_drop 4 s) [])
      as [tl ->].
    now destruct (token_at (str_drop 4 s)).
  - cbn [andb]. rewrite id_pattern_eq. now apply lit_first_none.
Qed.

Lemma search_first_id (s : string) : forall b,
  (fun m => group m 1) <$> search_from id_pattern b s = Some <$> first_id s.
Proof.
  induction s as [|c s IH]; intros b; cbn [search_from first_id];
    rewrite id_match_exact.
  - reflexivity.
  - destruct (String.prefix ":ID:" (String c s) && token_at (str_drop 4 (String c s))).
    + reflexivity.
    + apply IH.
Qed.

Lemma first_id_is_token (s : string) (u : string) :
  first_id s = Some u -> is_token u = true.
Proof.
  induction s as [|c s IH]; cbn [first_id].
  - cbn. discriminate.
  - destruct (String.prefix ":ID:" (String c s) && token_at (str_drop 4 (String c s)))
      eqn:E.
    + intros [= <-]. apply andb_prop in E as [_ E]. now apply token_of_is_token.
    + exact IH.
Qed.

(** ** The Identifier Index Builder *)

Lemma scan_step (file content : string) (files : list (string * string))
    (ids : gmap string string) :
  Roam.scan_files ((file, content) :: files) ids =
    Roam.scan_files files
      (if endswith file ".org"
       then match first_id content with
            | Some u => <[splitext_root file := u]> ids
            | None => ids
            end
       else ids).
Proof.
  cbn [Roam.scan_files]. f_equal.
  destruct (endswith file ".org"); [|reflexivity].
  pose proof (search_first_id content true) as H. unfold search.
  destruct (search_from id_pattern true content) as [m|],
    (first_id content) as [u|]; cbn in H; try discriminate; [|reflexivity].
  injection H as H. now rewrite H.
Qed.

Lemma scan_lookup (files : list (string * string)) :
  forall (ids : gmap string string) (t : string),
  Roam.scan_files files ids !! t =
    match last_scanned t files with
    | Some u => Some u
    | None => ids !! t
    end.
Proof.
  induction files as [|[file content] files IH]; intros ids t.
  - reflexivity.
  - rewrite scan_step, IH. cbn [last_scanned].
    destruct (last_scanned t files); [reflexivity|].
    destruct (endswith file ".org"); [|reflexivity]. cbn [andb].
    destruct (String.eqb_spec (splitext_root file) t) as [->|Hne].
    + destruct (first_id content); [apply lookup_insert_eq | reflexivity].
    + destruct (first_id content); [now apply lookup_insert_ne | reflexivity].
Qed.

Lemma last_scanned_from (t : string) (files : list (string * string)) (u : string) :
  last_scanned t files = Some u ->
  exists file content,
    In (file, content) files /\ endswith file ".org" = true
    /\ splitext_root file = t /\ first_id content = Some u.
Proof.
  induction files as [|[file content] files IH]; cbn [last_scanned]; [discriminate|].
  destruct (last_scanned t files) as [u'|].
  - intros [= <-]. destruct (IH eq_refl) as (f & c & Hin & H).
    exists f, c. split; [now right | exact H].
  - destruct (endswith file ".org") eqn:E; [|discriminate]. cbn [andb].
    destruct (String.eqb_spec (splitext_root file) t) as [Ht|]; [|discriminate].
    intros H. exists file, content. repeat split; try assumption. now left.
Qed.

(** ** A run of the identifier-resolving script *)

Lemma convert_file_out (pandoc : string -> string)
    (md_file content uid : string) (ids : gmap string string) :
  exists body,
    fst (Roam.convert_file pandoc md_file content uid ids) =
      (org_name md_file,
       ":PROPERTIES:" +:+ LF +:+ ":ID: " +:+ uid +:+ LF +:+ body).
Proof.
  unfold Roam.convert_file.
  destruct (Roam.extract_and_convert_tags content) as [c1 tags].
  unfold Roam.generate_org_roam_header. cbn [fst].
  eexists. unfold org_name. f_equal. now rewrite !sapp_assoc.
Qed.

Lemma drawer_first_id (uid tail : string) :
  is_token uid = true ->
  first_id (":PROPERTIES:" +:+ LF +:+ ":ID: " +:+ uid +:+ LF +:+ tail) = Some uid.
Proof.
  unfold is_token. intros H. apply andb_prop in H as [Hne Hns].
  pose proof (search_first_id
                (":PROPERTIES:" +:+ LF +:+ ":ID: " +:+ uid +:+ LF +:+ tail) true) as H.
  fold (search id_pattern
          (":PROPERTIES:" +:+ LF +:+ ":ID: " +:+ uid +:+ LF +:+ tail)) in H.
  rewrite (drawer_search uid tail Hne Hns) in H.
  destruct (first_id _) as [u|]; [|discriminate H].
  cbn [fmap option_fmap option_map group groups assoc Nat.eqb] in H.
  now injection H as <-.
Qed.

Lemma org_name_scan (md_file : string) :
  endswith md_file ".md" = true ->
  endswith (org_name md_file) ".org" = true
  /\ splitext_root (org_name md_file) = splitext_root md_file.
Proof.
  intros H. unfold org_name. split.
  - apply endswith_app.
  - now apply title_roundtrip.
Qed.

(** Scanning the file written for a note sets the entry of its title. *)
Lemma scan_converted (pandoc : string -> string)
    (md_file content uid : string) (ids : gmap string string)
    (outs : list (string * string)) (ids0 : gmap string string) :
  endswith md_file ".md" = true -> is_token uid = true ->
  Roam.scan_files (fst (Roam.convert_file pandoc md_file content uid ids) :: outs) ids0
  = Roam.scan_files outs (<[splitext_root md_file := uid]> ids0).
Proof.
  intros Hmd Hu.
  destruct (convert_file_out pandoc md_file content uid ids) as [body ->].
  rewrite scan_step. destruct (org_name_scan md_file Hmd) as [-> ->].
  now rewrite drawer_first_id.
Qed.

Lemma convert_all_cons (pandoc : string -> string)
    (md_file content uid : string) (notes : list (string * string * string))
    (ids : gmap string string) :
  Roam.convert_all pandoc ((md_file, content, uid) :: notes) ids =
    (fst (Roam.convert_file pandoc md_file content uid ids)
       :: fst (Roam.convert_all pandoc notes (<[splitext_root md_file := uid]> ids)),
     snd (Roam.convert_all pandoc notes (<[splitext_root md_file := uid]> ids))).
Proof.
  cbn [Roam.convert_all].
  pose proof (convert_file_index pandoc md_file content uid ids) as E.
  destruct (Roam.convert_file pandoc md_file content uid ids) as [out ids1].
  cbn [snd fst] in *. subst ids1.
  now destruct (Roam.convert_all pandoc notes (<[splitext_root md_file := uid]> ids)).
Qed.

Lemma convert_all_app (pandoc : string -> string)
    (before after : list (string * string * string)) :
  forall ids : gmap string string,
  Roam.convert_all pandoc (before ++ after) ids =
    (fst (Roam.convert_all pandoc before ids)
       ++ fst (Roam.convert_all pandoc after (snd (Roam.convert_all pandoc before ids))),
     snd (Roam.convert_all pandoc after (snd (Roam.convert_all pandoc before ids)))).
Proof.
  induction before as [|[[f c] u] before IH]; intros ids.
  - cbn [List.app Roam.convert_all fst snd].
    now destruct (Roam.convert_all pandoc after ids).
  - change (((f, c, u) :: before) ++ after) with ((f, c, u) :: (before ++ after)).
    rewrite !convert_all_cons, IH. reflexivity.
Qed.

Lemma walk_convert_all (pandoc : string -> string)
    (files : list (string * string * string)) :
  forall ids : gmap string string,
  Roam.walk pandoc files ids =
  Roam.convert_all pandoc (List.filter md_note files) ids.
Proof.
  induction files as [|[[f c] u] files IH]; intros ids; [reflexivity|].
  cbn [Roam.walk List.filter]. unfold md_note at 1. cbn [fst].
  destruct (endswith f ".md"); [|apply IH].
  cbn [Roam.convert_all].
  destruct (Roam.convert_file pandoc f c u ids) as [out ids1].
  now rewrite IH.
Qed.

Lemma convert_all_names (pandoc : string -> string)
    (notes : list (string * string * string)) :
  forall ids : gmap string string,
  map fst (fst (Roam.convert_all pandoc notes ids)) =
  map (fun n => org_name (fst (fst n))) notes.
Proof.
  induction notes as [|[[f c] u] notes IH]; intros ids; [reflexivity|].
  rewrite convert_all_cons. cbn [fst map]. rewrite IH. f_equal.
  destruct (convert_file_out pandoc f c u ids) as [body ->]. reflexivity.
Qed.

Lemma rescan_convert_all (pandoc : string -> string)
    (notes : list (string * string * string)) :
  forall ids ids0 : gmap string string,
  forallb md_note notes = true -> forallb uid_ok notes = true ->
  Roam.scan_files (fst (Roam.convert_all pandoc notes ids)) ids0 =
  snd (Roam.convert_all pandoc notes ids0).
Proof.
  induction notes as [|[[f c] u] notes IH]; intros ids ids0 Hmd Hu; [reflexivity|].
  cbn [forallb] in Hmd, Hu.
  apply andb_prop in Hmd as [Hf Hmd]. apply andb_prop in Hu as [Hu1 Hu].
  rewrite !convert_all_cons. cbn [fst snd].
  rewrite scan_converted by assumption. now apply IH.
Qed.



(** ** The transforms one after the other *)



(** The Tag Extractor on a front matter that holds a tags block: the
    block goes, the delimiters and the other lines stay. *)
Lemma extract_front_matter (render : list string -> string)
    (x : string) (B : tags_block) (y body : string) :
  no_tags_start (OPEN +:+ x) (block_text B +:+ y +:+ "---" +:+ LF +:+ body) = true ->
  block_ok B = true ->
  block_ends B (y +:+ "---" +:+ LF +:+ body) = true ->
  has_tags_block (y +:+ "---" +:+ LF +:+ body) = false ->
  sub_st tags_block_pattern (tags_callback render)
    (OPEN +:+ x +:+ block_text B +:+ y +:+ "---" +:+ LF +:+ body) "" =
  (OPEN +:+ x +:+ y +:+ "---" +:+ LF +:+ body, render (tag_words B)).
Proof.
  intros Hpre HB Hend Hpost.
  pose proof (extract_one_block render (OPEN +:+ x) B
                (y +:+ "---" +:+ LF +:+ body) Hpre HB Hend Hpost) as H.
  now rewrite !sapp_assoc in H.
Qed.

Lemma header_stripped (x y z body : string) :
  x +:+ y = z +:+ LF -> has_dash_line z = false ->
  Roam.remove_md_header (OPEN +:+ x +:+ y +:+ "---" +:+ LF +:+ body) = body.
Proof.
  intros E Hz.
  replace (OPEN +:+ x +:+ y +:+ "---" +:+ LF +:+ body)
    with (OPEN +:+ z +:+ CLOSE +:+ body).
  - now apply remove_md_header_region.
  - rewrite <- (sapp_assoc x y), E. unfold CLOSE. now rewrite !sapp_assoc.
Qed.




Lemma org_remove_md_header_eq : Org.remove_md_header = Roam.remove_md_header.
Proof. reflexivity. Qed.

(** ** A text of wiki-links *)

Lemma sub_free_of_open (repl : rmatch -> string) (tail : string) :
  free_of_open tail = true -> sub link_pattern repl tail = tail.
Proof.
  intros H. unfold sub, sub_st. rewrite link_pattern_eq.
  rewrite <- (sapp_nil_r tail) at 1.
  rewrite sub_from_quiet by now apply quiet_free_of_open.
  cbn [sub_from]. rewrite lit_first_none by reflexivity.
  unfold prepend. cbn [fst snd]. now rewrite sapp_nil_r.
Qed.

Lemma sub_links_text (repl : rmatch -> string) (l : list link_seg) (tail : string) :
  forallb seg_ok l = true -> free_of_open tail = true ->
  sub link_pattern repl (links_text l tail) =
  links_render
    (fun target subheading alias =>
       repl (RMatch (wikilink target subheading alias)
               (link_caps target subheading alias)))
    l tail.
Proof.
  intros Hl Ht. induction l as [|g l IH]; cbn [links_text links_render].
  - now apply sub_free_of_open.
  - cbn [forallb] in Hl. apply andb_prop in Hl as [Hg Hl].
    unfold seg_ok in Hg. apply andb_prop in Hg as [Hb Hok].
    rewrite link_sub_step by assumption. now rewrite IH.
Qed.

Lemma links_render_ext (f g : string -> option string -> option string -> string)
    (l : list link_seg) (tail : string) :
  (forall t s a, f t s a = g t s a) -> links_render f l tail = links_render g l tail.
Proof.
  intros H. induction l as [|x l IH]; cbn [links_render]; [reflexivity|].
  now rewrite H, IH.
Qed.

Lemma org_transform_caps (w target : string) (subheading alias : option string) :
  Org.transform_link (RMatch w (link_caps target subheading alias)) =
  org_link target subheading alias.
Proof.
  unfold Org.transform_link, org_link.
  destruct (link_caps_groups w target subheading alias) as (-> & -> & ->).
  destruct (truthy subheading), (truthy alias); cbn [fmt default];
    now rewrite ?sapp_assoc, ?sapp_nil_r.
Qed.

Lemma roam_transform_caps (ids : gmap string string) (target : string)
    (subheading alias : option string) :
  Roam.transform_link ids
    (RMatch (wikilink target subheading alias) (link_caps target subheading alias)) =
  roam_link ids target subheading alias.
Proof.
  unfold roam_link. destruct (ids !! target) as [U|] eqn:E.
  - now apply roam_transform_resolved.
  - now apply roam_transform_unresolved.
Qed.

(** ** A Markdown image *)

Lemma path_is_dot c : path_char c = true -> dot c = true.
Proof. unfold path_char. intros H. now apply andb_prop in H. Qed.

Lemma paren_dies (st : mstate) :
  starts_with path_char (rest st) = true -> matches (Chr ")") st = [].
Proof.
  destruct st as [b [|c s] cs]; [discriminate|]. cbn [Re.rest starts_with].
  intros H. rewrite matches_chr_cons.
  unfold path_char in H. apply andb_prop in H as [_ H].
  apply negb_true_iff in H. now rewrite H.
Qed.

Lemma image_close_dies (st : mstate) :
  starts_with alias_char (rest st) = true ->
  matches (Lit "](" >> Grp 2 (Star Lazy (Cls dot)) >> Chr ")") st = [].
Proof.
  intros H. rewrite matches_seq, matches_lit_no; [reflexivity|].
  destruct (rest st) as [|c s]; [discriminate|].
  cbn [starts_with] in H. rewrite prefix_cons, (alias_not_bracket c H). reflexivity.
Qed.

Lemma image_match (alt path : string) (b : bool) (post : string) :
  image_ok alt path = true ->
  match_here image_pattern false b (image alt path +:+ post) =
    Some (RMatch (image alt path) [(2, path); (1, alt)],
          String.length (image alt path)).
Proof.
  unfold image_ok. intros H. apply andb_prop in H as [Ha Hp].
  unfold match_here.
  change image_pattern with
    (Lit "![" >> Grp 1 (Star Lazy (Cls dot))
     >> (Lit "](" >> Grp 2 (Star Lazy (Cls dot)) >> Chr ")"))%re.
  rewrite matches_seq.
  assert (E : image alt path +:+ post =
              "![" +:+ alt +:+ "](" +:+ path +:+ ")" +:+ post)
    by (unfold image; now rewrite !sapp_assoc).
  rewrite E at 1. rewrite matches_lit_app. cbn [flat_map].
  rewrite List.app_nil_r, matches_seq.
  destruct (lazy_group_takes dot alias_char
              (matches (Lit "](" >> Grp 2 (Star Lazy (Cls dot)) >> Chr ")"))
              1 alt ("](" +:+ path +:+ ")" +:+ post)
              (b && negb (nonempty "![")) [] image_close_dies) as (b' & tl & ->).
  - eapply str_forall_impl; [apply alias_is_dot | exact Ha].
  - exact Ha.
  - rewrite matches_seq, matches_lit_app. cbn [flat_map].
    rewrite List.app_nil_r, matches_seq.
    destruct (lazy_group_takes dot path_char (matches (Chr ")")) 2 path
                (")" +:+ post) (b' && negb (nonempty "](")) [(1, alt)] paren_dies)
      as (b2 & tl2 & ->).
    + eapply str_forall_impl; [apply path_is_dot | exact Hp].
    + exact Hp.
    + change (")" +:+ post) with (String ")" post).
      rewrite matches_chr_cons, Ascii.eqb_refl. cbn [List.app].
      unfold mk_match, advance. cbn [Re.rest Re.caps].
      now rewrite consumed_length, str_take_app.
Qed.

Lemma image_sub_step (pre alt path post : string) :
  lacks "!" pre = true -> image_ok alt path = true ->
  sub image_pattern Roam.transform_image (pre +:+ image alt path +:+ post) =
    pre +:+ ("[[file:" +:+ path +:+ "][" +:+ alt +:+ "]]")
    +:+ sub image_pattern Roam.transform_image post.
Proof.
  intros Hpre Hok. unfold sub, sub_st.
  change image_pattern with
    (Lit (String "!" "[") >> Grp 1 (Star Lazy (Cls dot)) >> Lit "]("
     >> Grp 2 (Star Lazy (Cls dot)) >> Chr ")")%re.
  erewrite (sub_from_lit_step "!" "[" _ _ true pre);
    [| now apply quiet_lit_lacks | unfold image; discriminate
     | intros b'; now apply (image_match alt path b' post)].
  unfold prepend. cbn [fst snd]. now rewrite sapp_assoc.
Qed.

(** ** The state of [re.sub] at the end, from the matches *)

Lemma snd_fold_repl {St} (repl : rmatch -> St -> string * St)
    (ms : list rmatch) : forall acc,
  snd (fold_repl repl ms acc) = fold_left (fun a m => snd (repl m a)) ms acc.
Proof.
  induction ms as [|m ms IH]; intros acc; [reflexivity|].
  cbn [fold_repl fold_left]. unfold prepend. cbn [snd]. apply IH.
Qed.

Lemma snd_prepend {St} (out : string) (p : string * St) :
  snd (prepend out p) = snd p.
Proof. reflexivity. Qed.

Section State.
Context {St : Type}.
Variable r : regex.
Variable repl : rmatch -> St -> string * St.

(** The callback is run on the matches of [finditer], in order. *)
Lemma sub_from_state (s : string) : forall (b : bool) (skip : nat) (acc : St),
  snd (sub_from r repl b skip s acc) =
    fold_left (fun a m => snd (repl m a)) (snd (sub_from r keep b skip s [])) acc.
Proof.
  induction s as [|c s IH]; intros b skip acc.
  - destruct skip as [|k]; [|reflexivity].
    rewrite !sub_from_step. cbv zeta. rewrite fold_keep. cbn [List.app fst snd].
    destruct (snd (step_matches r b "")); apply snd_fold_repl.
  - destruct skip as [|k]; [|cbn [sub_from]; apply IH].
    rewrite !sub_from_step. cbv zeta. rewrite fold_keep. cbn [List.app fst snd].
    destruct (snd (step_matches r b (String c s))) as [|k];
      rewrite !snd_prepend, keep_acc, fold_left_app, IH, snd_fold_repl;
      reflexivity.
Qed.

End State.

Lemma fold_left_snoc {A B} (f : A -> B) (l : list A) : forall acc,
  fold_left (fun a m => a ++ [f m]) l acc = acc ++ map f l.
Proof.
  induction l as [|x l IH]; intros acc; cbn [fold_left map].
  - now rewrite List.app_nil_r.
  - rewrite IH. now rewrite <- List.app_assoc.
Qed.

Lemma findall_finditer (r : regex) (s : string) :
  findall r s = map (fun m => default "" (group m 1)) (finditer r s).
Proof.
  unfold findall, finditer, sub_st.
  rewrite (sub_from_state r (fun m acc => ("", acc ++ [default "" (group m 1)]))).
  cbn [snd]. now rewrite fold_left_snoc.
Qed.

(** Every match of [finditer] is the match at some place; where the
    pattern has no empty match, the first one there. *)
Lemma step_matches_from (r : regex) (b : bool) (s : string) (m : rmatch) :
  (forall b s m, match_here r false b s <> Some (m, 0)) ->
  In m (fst (step_matches r b s)) ->
  exists n, match_here r false b s = Some (m, n).
Proof.
  intros Hne. unfold step_matches.
  destruct (match_here r false b s) as [[m1 [|k]]|] eqn:E.
  - now contradiction (Hne b s m1).
  - cbn [fst]. intros [<-|[]]. eauto.
  - intros [].
Qed.

Lemma finditer_from (r : regex) (m : rmatch) :
  (forall b s m, match_here r false b s <> Some (m, 0)) ->
  forall (s : string) (b : bool) (skip : nat),
  In m (snd (sub_from r keep b skip s [])) ->
  exists b' s' n, match_here r false b' s' = Some (m, n).
Proof.
  intros Hne. induction s as [|c s IH]; intros b skip.
  - destruct skip as [|k]; [|intros []].
    rewrite sub_from_step. cbv zeta. rewrite fold_keep. cbn [List.app fst snd].
    intros H.
    assert (Hin : In m (fst (step_matches r b ""))) by
      (now destruct (snd (step_matches r b ""))).
    destruct (step_matches_from r b "" m Hne Hin) as [n Hn]. eauto.
  - destruct skip as [|k]; [|cbn [sub_from]; apply IH].
    rewrite sub_from_step. cbv zeta. rewrite fold_keep. cbn [List.app fst snd].
    intros H.
    assert (Hin : In m (fst (step_matches r b (String c s)))
                  \/ exists k, In m (snd (sub_from r keep false k s []))).
    { destruct (snd (step_matches r b (String c s))) as [|k];
        rewrite snd_prepend, keep_acc in H; apply in_app_or in H as [H|H]; eauto. }
    destruct Hin as [Hin|[k Hin]].
    + destruct (step_matches_from r b _ m Hne Hin) as [n Hn]. eauto.
    + now apply (IH false k).
Qed.

(** ** The tag pattern on every text *)

Lemma tag_match_exact (b : bool) (s : string) :
  match_here tag_pattern false b s =
    if starts_with (Ascii.eqb "-") s && token_at (str_drop 1 s)
    then Some (mk_match s
                 (MState false
                    (drop_while not_space (drop_while is_space (str_drop 1 s)))
                    [(1, token_of (str_drop 1 s))]))
    else None.
Proof.
  destruct s as [|c s]; [reflexivity|].
  cbn [starts_with str_drop]. unfold match_here, tag_pattern.
  rewrite matches_seq, matches_chr_cons.
  destruct (Ascii.eqb "-" c); [|reflexivity].
  cbn [flat_map andb]. rewrite List.app_nil_r.
  destruct (token_ways false s []) as [tl ->].
  now destruct (token_at s).
Qed.

Lemma tag_match_not_empty (b : bool) (s : string) (m : rmatch) :
  match_here tag_pattern false b s <> Some (m, 0).
Proof.
  rewrite tag_match_exact. destruct s as [|c s]; [discriminate|].
  destruct (starts_with (Ascii.eqb "-") (String c s) && token_at (str_drop 1 (String c s)));
    [|discriminate].
  unfold mk_match. cbn [Re.rest str_drop String.length]. intros [= _ H].
  pose proof (drop_while_length not_space (drop_while is_space s)).
  pose proof (drop_while_length is_space s). lia.
Qed.

Lemma tag_match_group (b : bool) (s : string) (m : rmatch) (n : nat) :
  match_here tag_pattern false b s = Some (m, n) ->
  exists u, group m 1 = Some u /\ is_token u = true.
Proof.
  rewrite tag_match_exact.
  destruct (starts_with (Ascii.eqb "-") s && token_at (str_drop 1 s)) eqn:E;
    [|discriminate].
  apply andb_prop in E as [_ E].
  unfold mk_match. intros [= <- _]. exists (token_of (str_drop 1 s)).
  split; [reflexivity | now apply token_of_is_token].
Qed.

Lemma findall_tokens (s : string) :
  forallb is_token (findall tag_pattern s) = true.
Proof.
  rewrite findall_finditer. apply List.forallb_forall. intros u Hu.
  apply in_map_iff in Hu as (m & <- & Hm).
  destruct (finditer_from tag_pattern m tag_match_not_empty s true 0 Hm)
    as (b' & s' & n & Hn).
  destruct (tag_match_group b' s' m n Hn) as (u & -> & Hu). exact Hu.
Qed.

(** ** A recognized block holds a tag *)

Lemma str_take_app_ge (a b : string) : forall k,
  String.length a <= k ->
  str_take k (a +:+ b) = a +:+ str_take (k - String.length a) b.
Proof.
  induction a as [|c a IH]; intros k Hk.
  - cbn [String.append String.length]. now rewrite Nat.sub_0_r.
  - destruct k as [|k]; cbn [String.length] in Hk; [lia|].
    change (String c a +:+ b) with (String c (a +:+ b)).
    cbn [str_take String.length Nat.sub]. rewrite IH by lia. reflexivity.
Qed.

Lemma tags_match_form (b : bool) (s : string) (m : rmatch) (n : nat) :
  match_here tags_block_pattern false b s = Some (m, n) ->
  tags_block_at s = true
  /\ exists s',
       items_to (item_end (drop_while is_space (str_drop 5 s))) s'
       /\ group0 m = str_take (String.length s - String.length s') s
       /\ n = String.length s - String.length s'.
Proof.
  intros H. destruct (tags_block_at s) eqn:E.
  - split; [reflexivity|].
    destruct (items_to_total (item_end (drop_while is_space (str_drop 5 s))))
      as [s' Hs'].
    destruct (tags_match_some b s s' E Hs') as [cs Hm].
    rewrite Hm in H. injection H as <- <-. now exists s'.
  - now rewrite tags_match_none in H.
Qed.

Lemma tags_match_not_empty (b : bool) (s : string) (m : rmatch) :
  match_here tags_block_pattern false b s <> Some (m, 0).
Proof.
  intros H. destruct (tags_match_form b s m 0 H) as (E & s' & Hto & _ & Hn).
  pose proof (tags_block_shorter s s' E Hto). lia.
Qed.

(** The part of a text up to the end of its first list item, or beyond,
    holds a match of the tag pattern. *)
Lemma prefix_has_tag (s : string) (k : nat) :
  tags_block_at s = true ->
  String.length s
    - String.length (item_end (drop_while is_space (str_drop 5 s))) <= k ->
  search tag_pattern (str_take k s) <> None.
Proof.
  unfold tags_block_at. intros H Hk. apply andb_prop in H as [Hp Hi].
  pose proof (prefix_split _ _ Hp) as Hs. change (String.length "tags:") with 5 in Hs.
  set (s5 := str_drop 5 s) in *. clearbody s5. subst s.
  pose proof (take_drop_while is_space s5) as Hws.
  pose proof (take_while_all is_space s5) as Hws1.
  set (ws := take_while is_space s5) in *. clearbody ws.
  set (x := drop_while is_space s5) in *. clearbody x. subst s5.
  destruct x as [|c x1]; [discriminate|]. cbn [tags_item_at] in Hi.
  apply andb_prop in Hi as [Hi Hw]. apply andb_prop in Hi as [Hc Hsp].
  apply Ascii.eqb_eq in Hc. subst c.
  unfold item_end in Hk. cbn [str_drop] in Hk.
  pose proof (take_drop_while is_space x1) as Hx1.
  pose proof (take_while_all is_space x1) as Hsp1.
  pose proof (take_while_nonempty is_space x1 Hsp) as Hsp2.
  set (sp := take_while is_space x1) in *. clearbody sp.
  set (x2 := drop_while is_space x1) in *. clearbody x2. subst x1.
  pose proof (take_drop_while is_word x2) as Hx2.
  pose proof (take_while_all is_word x2) as Hw1.
  pose proof (take_while_nonempty is_word x2 Hw) as Hw2.
  set (w := take_while is_word x2) in *. clearbody w.
  set (x3 := drop_while is_word x2) in *. clearbody x3. subst x2.
  pose proof (drop_while_length is_space x3) as Hl.
  assert (E : "tags:" +:+ ws +:+ String "-" (sp +:+ w +:+ x3) =
              (("tags:" +:+ ws) +:+ String "-" (sp +:+ w)) +:+ x3).
  { rewrite !sapp_assoc. do 2 f_equal.
    change (String "-" (sp +:+ w) +:+ x3) with (String "-" ((sp +:+ w) +:+ x3)).
    now rewrite sapp_assoc. }
  rewrite E in *. clear E.
  rewrite slength_app in Hk.
  rewrite str_take_app_ge by lia.
  set (z := str_take _ x3). clearbody z.
  rewrite sapp_assoc. unfold search.
  rewrite search_from_quiet.
  - change (String "-" (sp +:+ w) +:+ z) with (String "-" ((sp +:+ w) +:+ z)).
    rewrite sapp_assoc.
    assert (Hm : exists m n,
               match_here tag_pattern false (true && negb (nonempty ("tags:" +:+ ws)))
                 (String "-" (sp +:+ w +:+ z)) = Some (m, n)).
    { rewrite tag_match_exact. cbn [starts_with str_drop].
      rewrite Ascii.eqb_refl. unfold token_at.
      rewrite starts_with_app, Hsp2, (starts_with_all is_space sp Hsp2 Hsp1).
      assert (Hwz : starts_with is_word (w +:+ z) = true)
        by (rewrite starts_with_app, Hw2; now apply starts_with_all).
      rewrite drop_while_app;
        [|exact Hsp1|now apply starts_word_not_space].
      assert (starts_with not_space (w +:+ z) = true) as ->.
      { destruct (w +:+ z) as [|c s]; [discriminate|]. cbn [starts_with] in *.
        now apply word_is_not_space. }
      cbn [andb]. eauto. }
    destruct Hm as (m & n & Hm). now rewrite (search_from_here _ _ _ _ _ Hm).
  - apply quiet_lacks. rewrite lacks_app. cbn [andb].
    change (lacks "-" "tags:") with true. cbn [andb].
    eapply str_forall_impl; [|exact Hws1]. apply space_lacks_hyphen.
Qed.

Lemma block_has_tag (b : bool) (s : string) (m : rmatch) (n : nat) :
  match_here tags_block_pattern false b s = Some (m, n) ->
  findall tag_pattern (group0 m) <> [].
Proof.
  intros H. destruct (tags_match_form b s m n H) as (E & s' & Hto & -> & _).
  apply items_to_length in Hto.
  apply (sub_from_found tag_pattern collect (fun acc => acc <> [])).
  - intros m' acc. unfold collect. cbn [snd]. now destruct acc.
  - apply prefix_has_tag; [exact E | lia].
Qed.

(** With a tags block there is a last match, without one there is no
    match. *)
Lemma finditer_tags_some (text : string) :
  has_tags_block text = true ->
  exists m, last (finditer tags_block_pattern text) = Some m.
Proof.
  intros H.
  assert (Hne : finditer tags_block_pattern text <> []).
  { rewrite finditer_eq.
    apply (sub_from_found tags_block_pattern keep (fun acc => acc <> [])).
    - intros m acc. unfold keep. cbn [snd]. now destruct acc.
    - now apply tags_search_some. }
  destruct (last (finditer tags_block_pattern text)) as [m|] eqn:E; [eauto|].
  apply last_None in E. contradiction.
Qed.

Lemma finditer_tags_none (text : string) :
  has_tags_block text = false -> finditer tags_block_pattern text = [].
Proof.
  intros H. rewrite finditer_eq.
  now rewrite sub_from_search_none by now apply tags_search_none.
Qed.

Lemma last_In {A} (l : list A) (x : A) : last l = Some x -> In x l.
Proof.
  induction l as [|y l IH]; [discriminate|].
  rewrite last_cons. destruct (last l) as [z|].
  - intros [= <-]. right. now apply IH.
  - intros [= <-]. now left.
Qed.

(** ** What the removers leave *)

Lemma header_suffix (text : string) :
  exists pre,
    text = pre +:+ Roam.remove_md_header text
    /\ (pre = "" \/ exists w, pre = OPEN +:+ w +:+ CLOSE).
Proof.
  rewrite remove_md_header_spec.
  destruct (String.prefix OPEN text) eqn:Hp; [|exists ""; auto].
  destruct (after_close (str_drop 4 text)) as [s'|] eqn:Hc; [|exists ""; auto].
  destruct (after_close_split _ _ Hc) as [w Hw].
  pose proof (prefix_split _ _ Hp) as Hs. change (String.length OPEN) with 4 in Hs.
  exists (OPEN +:+ w +:+ CLOSE). split; [|eauto].
  rewrite Hs at 1. rewrite Hw. now rewrite !sapp_assoc.
Qed.

Lemma removed_length (r : regex) (s : string) : forall (b : bool) (skip : nat),
  String.length (fst (sub_from r drop_match b skip s tt)) <= String.length s.
Proof.
  induction s as [|c s IH]; intros b skip.
  - destruct skip as [|k]; [|cbn; lia].
    rewrite sub_from_step. cbv zeta. rewrite fold_drop_match.
    destruct (snd (step_matches r b "")); cbn; lia.
  - destruct skip as [|k].
    + rewrite sub_from_step. cbv zeta. rewrite fold_drop_match. cbn [fst snd].
      destruct (snd (step_matches r b (String c s))) as [|k];
        rewrite fst_prepend, slength_app; cbn [String.length String.append].
      * specialize (IH false 0). lia.
      * specialize (IH false k). lia.
    + cbn [sub_from String.length]. specialize (IH false k). lia.
Qed.

Lemma extract_length (render : list string -> string) (text : string) :
  String.length (fst (sub_st tags_block_pattern (tags_callback render) text ""))
  <= String.length text.
Proof.
  rewrite extract_last. cbn [fst]. apply removed_length.
Qed.

(** ** The Identifier Index Builder *)

(** X2. What the Index Builder reads and keeps. In a file it reads the
    token after the first [:ID:] that is followed by whitespace and a
    token. The index it returns maps a title to the identifier read in
    the last [.org] file of that title that holds one; a file with
    another extension or without an identifier leaves the index as it
    is. *)
Theorem X2_index_builder_lookup :
  (forall content : string,
     (fun m => group m 1) <$> search id_pattern content
     = Some <$> first_id content)
  /\ (forall (files : list (string * string)) (existing_ids : gmap string string)
             (t : string),
        Roam.scan_files files existing_ids !! t =
          match last_scanned t files with
          | Some u => Some u
          | None => existing_ids !! t
          end)
  /\ (forall (files : list (string * string)) (t : string),
        Roam.build_existing_ids_map files !! t = last_scanned t files).
Proof.
  split; [|split].
  - intros content. apply search_first_id.
  - intros files ids t. apply scan_lookup.
  - intros files t. unfold Roam.build_existing_ids_map. rewrite scan_lookup.
    destruct (last_scanned t files); [reflexivity | apply lookup_empty].
Qed.

(** X3. Every entry of the index built from a directory is a token (not
    empty, no whitespace), read in an [.org] file whose name without the
    extension is the title. *)
Theorem X3_index_entries :
  forall (files : list (string * string)) (t u : string),
    Roam.build_existing_ids_map files !! t = Some u ->
    is_token u = true
    /\ exists file content,
         In (file, content) files /\ endswith file ".org" = true
         /\ splitext_root file = t /\ first_id content = Some u.
Proof.
  intros files t u H. unfold Roam.build_existing_ids_map in H.
  rewrite scan_lookup in H.
  destruct (last_scanned t files) as [v|] eqn:E.
  - injection H as <-. destruct (last_scanned_from t files v E)
      as (file & content & Hin & Horg & Ht & Hid).
    split; [now apply (first_id_is_token content) | eauto 10].
  - now rewrite lookup_empty in H.
Qed.

Lemma X3_index_entries_witness :
  is_token "b42" = true
  /\ exists file content,
       In (file, content)
         [("A.org", "* Heading" +:+ LF +:+ ":ID:" +:+ LF +:+ "  b42 rest");
          ("A.md", ":ID: x")]
       /\ endswith file ".org" = true
       /\ splitext_root file = "A" /\ first_id content = Some "b42".
Proof.
  apply (X3_index_entries
           [("A.org", "* Heading" +:+ LF +:+ ":ID:" +:+ LF +:+ "  b42 rest");
            ("A.md", ":ID: x")] "A" "b42").
  reflexivity.
Defined.

(** ** A run *)

(** X5. The notes of a run are converted one after the other, each
    against the index as it stands when its turn comes: the entries of
    the scan, overwritten by the notes converted before it. A note
    converted later in the run is not in that index: a link to its title
    resolves to the identifier of the scan if there is one (which the
    later conversion replaces), and stays as written otherwise. *)
Theorem X5_run_in_order :
  forall (pandoc : string -> string)
         (before after : list (string * string * string))
         (md_file content unique_id : string) (ids0 : gmap string string),
    let ids1 := snd (Roam.convert_all pandoc before ids0) in
    let ids2 := <[splitext_root md_file := unique_id]> ids1 in
    Roam.convert_all pandoc (before ++ (md_file, content, unique_id) :: after) ids0
    = (fst (Roam.convert_all pandoc before ids0)
         ++ fst (Roam.convert_file pandoc md_file content unique_id ids1)
         :: fst (Roam.convert_all pandoc after ids2),
       snd (Roam.convert_all pandoc after ids2))
    /\ (forall t : string,
          ids1 !! t = match last_id t before with
                      | Some u => Some u
                      | None => ids0 !! t
                      end)
    /\ (forall (pre target : string) (subheading alias : option string)
               (post : string),
          free_of_open pre = true -> link_ok target subheading alias = true ->
          last_id target before = None -> ids0 !! target = None ->
          sub link_pattern (Roam.transform_link ids1)
            (pre +:+ wikilink target subheading alias +:+ post)
          = pre +:+ wikilink target subheading alias
            +:+ sub link_pattern (Roam.transform_link ids1) post).
Proof.
  intros pandoc before after md_file content uid ids0 ids1 ids2.
  assert (Hidx : forall t, ids1 !! t = match last_id t before with
                                       | Some u => Some u
                                       | None => ids0 !! t
                                       end)
    by (intros t; apply convert_all_index).
  split; [|split].
  - rewrite convert_all_app, convert_all_cons. reflexivity.
  - exact Hidx.
  - intros pre target subheading alias post Hpre Hok Hlast Hids.
    rewrite link_sub_step by assumption.
    rewrite (roam_transform_unresolved ids1 _ target subheading alias);
      [reflexivity|].
    now rewrite Hidx, Hlast.
Qed.

Lemma X5_run_in_order_witness :
  map snd (fst (Roam.convert_all (fun s => s)
                  [("A.md", "see [[B]]", "u1"); ("B.md", "see [[A]]", "u2")] ∅))
  = [":PROPERTIES:" +:+ LF +:+ ":ID: u1" +:+ LF +:+ ":END:" +:+ LF
     +:+ "#+title: A" +:+ LF +:+ "#+ROAM_TAGS: " +:+ LF +:+ LF +:+ "see [[B]]";
     ":PROPERTIES:" +:+ LF +:+ ":ID: u2" +:+ LF +:+ ":END:" +:+ LF
     +:+ "#+title: B" +:+ LF +:+ "#+ROAM_TAGS: " +:+ LF +:+ LF
     +:+ "see [[id:u1][A]]"]
  /\ sub link_pattern
       (Roam.transform_link (snd (Roam.convert_all (fun s => s) [] ∅)))
       ("see " +:+ wikilink "B" None None +:+ "")
     = "see " +:+ wikilink "B" None None
       +:+ sub link_pattern
             (Roam.transform_link (snd (Roam.convert_all (fun s => s) [] ∅))) "".
Proof.
  destruct (X5_run_in_order (fun s => s) [] [("B.md", "see [[A]]", "u2")]
              "A.md" "see [[B]]" "u1" ∅) as (H1 & _ & H3).
  split.
  - cbn [List.app] in H1. rewrite H1. reflexivity.
  - apply (H3 "see " "B" None None ""); reflexivity.
Defined.

(** X6. A run over a directory converts the files whose name ends in
    [.md], in the order in which they are met, and no other file; each
    is written under its title with the extension [.org]. *)
Theorem X6_md_files_only :
  (forall (pandoc : string -> string) (files : list (string * string * string))
          (existing_ids : gmap string string),
     Roam.walk pandoc files existing_ids
     = Roam.convert_all pandoc (List.filter md_note files) existing_ids
     /\ map fst (fst (Roam.walk pandoc files existing_ids))
        = map (fun n => org_name (fst (fst n))) (List.filter md_note files))
  /\ (forall (pandoc : string -> string) (files : list (string * string)),
        Org.walk pandoc files
        = map (fun n => Org.convert_file pandoc (fst n) (snd n))
            (List.filter md_name files)
        /\ map fst (Org.walk pandoc files)
           = map (fun n => org_name (fst n)) (List.filter md_name files))
  /\ (forall (pandoc : string -> string) (files : list (string * string * string)),
        Root.walk pandoc files
        = map (fun n => Root.convert_file pandoc (fst (fst n)) (snd (fst n)) (snd n))
            (List.filter md_note files)
        /\ map fst (Root.walk pandoc files)
           = map (fun n => org_name (fst (fst n))) (List.filter md_note files)).
Proof.
  split; [|split].
  - intros pandoc files ids. split.
    + apply walk_convert_all.
    + rewrite walk_convert_all. apply convert_all_names.
  - intros pandoc files.
    assert (E : Org.walk pandoc files
                = map (fun n => Org.convert_file pandoc (fst n) (snd n))
                    (List.filter md_name files)).
    { induction files as [|[f c] files IH]; [reflexivity|].
      cbn [Org.walk List.filter]. unfold md_name at 1. cbn [fst].
      destruct (endswith f ".md"); [|exact IH]. cbn [map fst snd]. now rewrite IH. }
    split; [exact E|]. rewrite E, map_map. apply map_ext.
    intros [f c]. unfold Org.convert_file. cbn [fst snd].
    now destruct (Org.extract_and_convert_tags c).
  - intros pandoc files.
    assert (E : Root.walk pandoc files
                = map (fun n => Root.convert_file pandoc (fst (fst n)) (snd (fst n)) (snd n))
                    (List.filter md_note files)).
    { induction files as [|[[f c] u] files IH]; [reflexivity|].
      cbn [Root.walk List.filter]. unfold md_note at 1. cbn [fst].
      destruct (endswith f ".md"); [|exact IH]. cbn [map fst snd]. now rewrite IH. }
    split; [exact E|]. rewrite E, map_map. apply map_ext.
    intros [[f c] u]. unfold Root.convert_file. cbn [fst snd].
    now destruct (Root.extract_and_convert_tags c).
Qed.

(** ** One note through the transforms *)

(** X7. A note whose front matter holds a tags block among other lines:
    the Tag Extractor takes the block out, the Header Stripper then
    removes the whole front matter, and what is rewritten and handed to
    the renderer is the body alone. The three scripts put in front of
    the renderer's output their header with the tags of the block (the
    plain script its [#+FILETAGS:] line and an empty line). [x] and [y]
    are the lines before and after the block; together they end with a
    line end and hold no line of three hyphens. *)
Theorem X7_front_matter :
  forall (pandoc : string -> string) (x y z body : string) (B : tags_block)
         (md_file unique_id : string) (existing_ids : gmap string string),
    x +:+ y = z +:+ LF -> has_dash_line z = false ->
    no_tags_start ("---" +:+ LF +:+ x)
      (block_text B +:+ y +:+ "---" +:+ LF +:+ body) = true ->
    block_ok B = true ->
    block_ends B (y +:+ "---" +:+ LF +:+ body) = true ->
    has_tags_block (y +:+ "---" +:+ LF +:+ body) = false ->
    let content :=
      "---" +:+ LF +:+ x +:+ block_text B +:+ y +:+ "---" +:+ LF +:+ body in
    Roam.convert_file pandoc md_file content unique_id existing_ids
    = ((org_name md_file,
        fst (Roam.generate_org_roam_header (org_name md_file)
               (":" +:+ join ":" (tag_words B) +:+ ":") unique_id)
        +:+ pandoc (Roam.convert_links_and_images body existing_ids)),
       <[splitext_root md_file := unique_id]> existing_ids)
    /\ Org.convert_file pandoc md_file content
       = (org_name md_file,
          "#+FILETAGS: "
          +:+ join " " (map (fun tag => ":" +:+ tag +:+ ":") (tag_words B))
          +:+ LF +:+ LF +:+ pandoc (Org.convert_links body))
    /\ Root.convert_file pandoc md_file content unique_id
       = (org_name md_file,
          Root.generate_org_roam_header (org_name md_file)
            (":" +:+ join ":" (tag_words B) +:+ ":") unique_id
          +:+ pandoc body).
Proof.
  intros pandoc x y z body B md_file uid ids E Hz Hpre HB Hend Hpost content.
  subst content.
  assert (E1 : "---" +:+ LF +:+ x +:+ block_text B +:+ y +:+ "---" +:+ LF +:+ body
               = OPEN +:+ x +:+ block_text B +:+ y +:+ "---" +:+ LF +:+ body)
    by reflexivity.
  rewrite E1. clear E1.
  change ("---" +:+ LF +:+ x) with (OPEN +:+ x) in Hpre.
  pose proof (extract_front_matter roam_render x B y body Hpre HB Hend Hpost) as Hr.
  pose proof (extract_front_matter org_render x B y body Hpre HB Hend Hpost) as Ho.
  pose proof (header_stripped x y z body E Hz) as Hh.
  split; [|split].
  - unfold Roam.convert_file. rewrite roam_extract_eq, Hr, Hh. reflexivity.
  - unfold Org.convert_file. rewrite org_extract_eq, Ho.
    rewrite org_remove_md_header_eq. rewrite Hh.
    unfold org_render. cbn [nonempty String.append]. reflexivity.
  - unfold Root.convert_file, Root.extract_and_convert_tags, Root.remove_md_header.
    rewrite roam_extract_eq, Hr, Hh. reflexivity.
Qed.

Lemma X7_front_matter_witness :
  Org.convert_file (fun s => s) "Note.md"
    ("---" +:+ LF +:+ ("title: T" +:+ LF)
     +:+ block_text (TagsBlock LF [TagItem " " "a" LF; TagItem " " "b" LF])
     +:+ "" +:+ "---" +:+ LF +:+ "See [[Other|it]].")
  = (org_name "Note.md",
     "#+FILETAGS: " +:+ join " " (map (fun tag => ":" +:+ tag +:+ ":") ["a"; "b"])
     +:+ LF +:+ LF +:+ Org.convert_links "See [[Other|it]].").
Proof.
  exact (proj1 (proj2
    (X7_front_matter (fun s => s) ("title: T" +:+ LF) "" "title: T"
       "See [[Other|it]]."
       (TagsBlock LF [TagItem " " "a" LF; TagItem " " "b" LF])
       "Note.md" "u" ∅ eq_refl eq_refl eq_refl eq_refl eq_refl eq_refl))).
Defined.



(** X9. A note without a tags block and without a front matter goes to
    the renderer as it is when the script rewrites nothing in it: always
    in the script that has no Link Rewriter, and where the link pattern
    (and, in the identifier-resolving script, the image pattern) has no
    match in the others. The plain script then writes the renderer's
    output and nothing else; the two others put their header, with an
    empty tags field, in front of it. *)
Theorem X9_plain_note :
  forall (pandoc : string -> string) (md_file content unique_id : string)
         (existing_ids : gmap string string),
    has_tags_block content = false -> header_at content = false ->
    Root.convert_file pandoc md_file content unique_id
    = (org_name md_file,
       Root.generate_org_roam_header (org_name md_file) "" unique_id
       +:+ pandoc content)
    /\ (search link_pattern content = None ->
        Org.convert_file pandoc md_file content = (org_name md_file, pandoc content)
        /\ (search image_pattern content = None ->
            Roam.convert_file pandoc md_file content unique_id existing_ids
            = ((org_name md_file,
                fst (Roam.generate_org_roam_header (org_name md_file) "" unique_id)
                +:+ pandoc content),
               <[splitext_root md_file := unique_id]> existing_ids))).
Proof.
  intros pandoc md_file content uid ids Ht Hh.
  pose proof (extract_none roam_render content Ht) as Hr.
  pose proof (extract_none org_render content Ht) as Ho.
  pose proof (proj2 (header_at_changes content) Hh) as Hs.
  split; [|intros Hl; split; [|intros Hi]].
  - unfold Root.convert_file, Root.extract_and_convert_tags, Root.remove_md_header.
    now rewrite roam_extract_eq, Hr, Hs.
  - unfold Org.convert_file. rewrite org_extract_eq, Ho.
    rewrite org_remove_md_header_eq. rewrite Hs.
    unfold Org.convert_links. now rewrite (sub_search_none _ _ _ Hl).
  - unfold Roam.convert_file. rewrite roam_extract_eq, Hr, Hs.
    unfold Roam.convert_links_and_images.
    now rewrite (sub_search_none _ _ _ Hl), (sub_search_none _ _ _ Hi).
Qed.

Lemma X9_plain_note_witness :
  Root.convert_file (fun s => s) "Note.md" "See [[Other]]." "u"
  = (org_name "Note.md",
     Root.generate_org_roam_header (org_name "Note.md") "" "u" +:+ "See [[Other]].")
  /\ Org.convert_file (fun s => s) "Note.md" ("# Title" +:+ LF +:+ "Text.")
     = (org_name "Note.md", "# Title" +:+ LF +:+ "Text.").
Proof.
  split.
  - exact (proj1 (X9_plain_note (fun s => s) "Note.md" "See [[Other]]." "u" ∅
                    eq_refl eq_refl)).
  - exact (proj1 (proj2 (X9_plain_note (fun s => s) "Note.md"
                           ("# Title" +:+ LF +:+ "Text.") "u" ∅ eq_refl eq_refl)
                    eq_refl)).
Defined.

(** ** The Link Rewriters on a whole text *)

(** X10. The plain Link Rewriter on a text made of wiki-links and the
    text around them: every link becomes [[[target]]],
    [[[target::subheading]]], [[[target][alias]]] or
    [[[target::subheading][alias]]], an empty subheading or alias left
    out, and the text around the links stays. *)
Theorem X10_org_links_text :
  forall (l : list link_seg) (tail : string),
    forallb seg_ok l = true -> free_of_open tail = true ->
    Org.convert_links (links_text l tail) = links_render org_link l tail.
Proof.
  intros l tail Hl Ht. unfold Org.convert_links.
  rewrite sub_links_text by assumption.
  apply links_render_ext. intros t s a. apply org_transform_caps.
Qed.

Lemma X10_org_links_text_witness :
  Org.convert_links
    (links_text [LinkSeg "See " "A" None None; LinkSeg ", " "B" (Some "h") None;
                 LinkSeg " and " "C" None (Some "")] ".")
  = links_render org_link
      [LinkSeg "See " "A" None None; LinkSeg ", " "B" (Some "h") None;
       LinkSeg " and " "C" None (Some "")] ".".
Proof.
  apply (X10_org_links_text
           [LinkSeg "See " "A" None None; LinkSeg ", " "B" (Some "h") None;
            LinkSeg " and " "C" None (Some "")] "."); reflexivity.
Defined.

(** X11. The identifier-resolving Link Rewriter on such a text: a link
    whose target is in the index becomes the link addressed by its
    identifier, every other link stays as written, and so does the text
    around the links. Where the result holds no exclamation mark the
    image pass that follows changes nothing. *)
Theorem X11_roam_links_text :
  forall (existing_ids : gmap string string) (l : list link_seg) (tail : string),
    forallb seg_ok l = true -> free_of_open tail = true ->
    sub link_pattern (Roam.transform_link existing_ids) (links_text l tail)
    = links_render (roam_link existing_ids) l tail
    /\ (lacks "!" (links_render (roam_link existing_ids) l tail) = true ->
        Roam.convert_links_and_images (links_text l tail) existing_ids
        = links_render (roam_link existing_ids) l tail).
Proof.
  intros ids l tail Hl Ht.
  assert (E : sub link_pattern (Roam.transform_link ids) (links_text l tail)
              = links_render (roam_link ids) l tail).
  { rewrite sub_links_text by assumption.
    apply links_render_ext. intros t s a. apply roam_transform_caps. }
  split; [exact E|]. intros Hb.
  unfold Roam.convert_links_and_images. rewrite E. now apply image_sub_lacks.
Qed.

Lemma X11_roam_links_text_witness :
  Roam.convert_links_and_images
    (links_text [LinkSeg "See " "A" (Some "h") None; LinkSeg " and " "B" None None] ".")
    {[ "A" := "u1" ]}
  = links_render (roam_link {[ "A" := "u1" ]})
      [LinkSeg "See " "A" (Some "h") None; LinkSeg " and " "B" None None] ".".
Proof.
  apply (X11_roam_links_text {[ "A" := "u1" ]}
           [LinkSeg "See " "A" (Some "h") None; LinkSeg " and " "B" None None] ".");
    reflexivity.
Defined.

(** X12. A Markdown image [![alt](path)] whose alt text holds no closing
    bracket and whose path holds no closing parenthesis (neither a line
    end), after text without an exclamation mark, becomes
    [[[file:path][alt]]] in the identifier-resolving script; the text
    after it is rewritten in turn. Where the link pattern has no match,
    that is the whole function. *)
Theorem X12_image_rewritten :
  forall (pre alt path post : string),
    lacks "!" pre = true -> image_ok alt path = true ->
    sub image_pattern Roam.transform_image (pre +:+ image alt path +:+ post)
    = pre +:+ ("[[file:" +:+ path +:+ "][" +:+ alt +:+ "]]")
      +:+ sub image_pattern Roam.transform_image post
    /\ (forall existing_ids : gmap string string,
          search link_pattern (pre +:+ image alt path +:+ post) = None ->
          Roam.convert_links_and_images (pre +:+ image alt path +:+ post) existing_ids
          = pre +:+ ("[[file:" +:+ path +:+ "][" +:+ alt +:+ "]]")
            +:+ sub image_pattern Roam.transform_image post).
Proof.
  intros pre alt path post Hpre Hok.
  pose proof (image_sub_step pre alt path post Hpre Hok) as E.
  split; [exact E|]. intros ids Hl.
  unfold Roam.convert_links_and_images.
  now rewrite (sub_search_none _ _ _ Hl).
Qed.

Lemma X12_image_rewritten_witness :
  Roam.convert_links_and_images
    ("Figure: " +:+ image "" "img/a.png" +:+ " end") ∅
  = "Figure: " +:+ ("[[file:" +:+ "img/a.png" +:+ "][" +:+ "" +:+ "]]")
    +:+ sub image_pattern Roam.transform_image " end".
Proof.
  exact (proj2 (X12_image_rewritten "Figure: " "" "img/a.png" " end"
                  eq_refl eq_refl) ∅ eq_refl).
Defined.

(** ** The tags *)

(** X13. When a text holds a tags block, the tags returned are those of
    a list that is not empty and whose members are tokens: not empty,
    without whitespace. *)
Theorem X13_tags_are_tokens :
  forall text : string,
    has_tags_block text = true ->
    exists tag_list : list string,
      tag_list <> [] /\ forallb is_token tag_list = true
      /\ snd (Roam.extract_and_convert_tags text)
         = ":" +:+ join ":" tag_list +:+ ":"
      /\ snd (Org.extract_and_convert_tags text)
         = "#+FILETAGS: "
           +:+ join " " (map (fun tag => ":" +:+ tag +:+ ":") tag_list).
Proof.
  intros text H. destruct (finditer_tags_some text H) as [m Hm].
  exists (findall tag_pattern (group0 m)). split; [|split; [|split]].
  - pose proof (last_In _ _ Hm) as Hin. rewrite finditer_eq in Hin.
    destruct (finditer_from tags_block_pattern m tags_match_not_empty text true 0 Hin)
      as (b' & s' & n & Hn).
    now apply (block_has_tag b' s' m n).
  - apply findall_tokens.
  - rewrite roam_extract_eq, (extract_last roam_render), Hm. reflexivity.
  - rewrite org_extract_eq, (extract_last org_render), Hm. reflexivity.
Qed.

Lemma X13_tags_are_tokens_witness :
  exists tag_list : list string,
    tag_list <> [] /\ forallb is_token tag_list = true
    /\ snd (Roam.extract_and_convert_tags
              ("x tags:- a- b" +:+ LF +:+ "- c d"))
       = ":" +:+ join ":" tag_list +:+ ":"
    /\ snd (Org.extract_and_convert_tags
              ("x tags:- a- b" +:+ LF +:+ "- c d"))
       = "#+FILETAGS: "
         +:+ join " " (map (fun tag => ":" +:+ tag +:+ ":") tag_list).
Proof.
  exact (X13_tags_are_tokens ("x tags:- a- b" +:+ LF +:+ "- c d") eq_refl).
Defined.

(** ** What the removers leave *)

(** X14. The Header Stripper returns the end of the text it is given:
    the whole text, or what follows a first part that is an opening
    delimiter line, some content and a closing delimiter line. The Tag
    Extractors return a text that is not longer than the one given. *)
Theorem X14_removers_only_remove :
  forall text : string,
    (exists pre : string,
       text = pre +:+ Roam.remove_md_header text
       /\ (pre = ""
           \/ exists w, pre = ("---" +:+ LF) +:+ w +:+ (LF +:+ "---" +:+ LF)))
    /\ String.length (fst (Roam.extract_and_convert_tags text)) <= String.length text
    /\ String.length (fst (Org.extract_and_convert_tags text)) <= String.length text.
Proof.
  intros text. split; [|split].
  - apply header_suffix.
  - rewrite roam_extract_eq. apply extract_length.
  - rewrite org_extract_eq. apply extract_length.
Qed.

(** ** Titles *)

(** X15. The title of a note is the name of its file without the
    extension: for a file [stem.md] whose stem holds a character other
    than a dot, the output file is [stem.org], the title line of its
    header reads [stem], and [stem] is the key under which the
    identifier enters the index. A name made of dots and [.md] has no
    extension for [os.path.splitext]: the whole name is the title. *)
Theorem X15_titles :
  forall (pandoc : string -> string) (stem content unique_id : string)
         (existing_ids : gmap string string),
    let r := Roam.convert_file pandoc (stem +:+ ".md") content unique_id
               existing_ids in
    (str_forall (Ascii.eqb ".") stem = false ->
     fst (fst r) = stem +:+ ".org"
     /\ snd r !! stem = Some unique_id
     /\ exists tags,
          snd (fst r) =
            ":PROPERTIES:" +:+ LF +:+ ":ID: " +:+ unique_id +:+ LF
            +:+ ":END:" +:+ LF +:+ "#+title: " +:+ stem +:+ LF
            +:+ "#+ROAM_TAGS: " +:+ tags +:+ LF +:+ LF
            +:+ pandoc
                  (Roam.convert_links_and_images
                     (Roam.remove_md_header
                        (fst (Roam.extract_and_convert_tags content)))
                     existing_ids))
    /\ (str_forall (Ascii.eqb ".") stem = true ->
        fst (fst r) = stem +:+ ".md.org"
        /\ snd r !! (stem +:+ ".md") = Some unique_id).
Proof.
  intros pandoc stem content uid ids r. subst r.
  assert (Hs : splitext_root (stem +:+ ".md") =
               if str_forall (Ascii.eqb ".") stem then stem +:+ ".md" else stem).
  { change (stem +:+ ".md") with (stem +:+ "." +:+ "md").
    now rewrite splitext_root_ext. }
  pose proof (title_roundtrip (stem +:+ ".md") (endswith_app stem ".md")) as Ht.
  rewrite convert_file_index. unfold Roam.convert_file.
  destruct (Roam.extract_and_convert_tags content) as [c1 tags].
  unfold Roam.generate_org_roam_header. cbn [fst snd]. rewrite Ht, Hs.
  split; intros E; rewrite E.
  - split; [reflexivity|]. split; [apply lookup_insert_eq|].
    exists (if nonempty tags then tags else "").
    now rewrite !sapp_assoc.
  - split; [now rewrite sapp_assoc | apply lookup_insert_eq].
Qed.

Lemma X15_titles_witness :
  fst (fst (Roam.convert_file (fun s => s) ("My.Note" +:+ ".md") "Body" "u" ∅))
  = "My.Note" +:+ ".org"
  /\ fst (fst (Roam.convert_file (fun s => s) ("" +:+ ".md") "Body" "u" ∅))
     = "" +:+ ".md.org".
Proof.
  split.
  - exact (proj1 (proj1 (X15_titles (fun s => s) "My.Note" "Body" "u" ∅) eq_refl)).
  - exact (proj1 (proj2 (X15_titles (fun s => s) "" "Body" "u" ∅) eq_refl)).
Defined.

(** ** A second run *)

Lemma last_id_app (t : string) (a b : list (string * string * string)) :
  last_id t (a ++ b) =
    match last_id t b with
    | Some u => Some u
    | None => last_id t a
    end.
Proof.
  induction a as [|[[f c] u] a IH]; cbn [List.app last_id].
  - now destruct (last_id t b).
  - rewrite IH. now destruct (last_id t b).
Qed.

(** * The claims, continued *)

(** ** C8: what is read from a recognized block *)

(** Outside the block shape of the specification: items that follow
    each other without whitespace are taken by the block pattern, and
    the tag pattern reads a word up to the next whitespace. *)
Lemma adjacent_items_read_to_whitespace :
  map group0 (finditer tags_block_pattern ("tags:" +:+ LF +:+ "- a- b" +:+ LF))
  = ["tags:" +:+ LF +:+ "- a- b" +:+ LF]
  /\ findall tag_pattern ("tags:" +:+ LF +:+ "- a- b" +:+ LF) = ["a-"].
Proof. repeat split. Qed.

(** C8. A tags block in the shape of the specification is [tags:],
    optional whitespace, and list items each made of a hyphen,
    whitespace and one bare word, with whitespace between the items.
    - For every match of the block pattern that is such a block, in
      whatever text, the callback of either script reads the words of
      the items in their order, repeated ones kept, sets the Tag Set to
      them and replaces the match by nothing.
    - Such a block is matched as a whole when it is complete: what
      follows it is no whitespace, no further item and, after a last
      word without whitespace behind it, no word character.
    - In every text every match is removed, and the tags returned are
      those of the block matched last.
    - So a text with one such block, complete, where no tags block
      starts in the text before it and none in the text after it, comes
      back without the block (and without the whitespace that ends it),
      the text before and after it kept, together with the words of the
      block.
    The example of the specification closes the statement. *)
Theorem C8_block_extracted :
  (forall (m : rmatch) (B : tags_block) (tags : string),
     group0 m = block_text B -> block_ok B = true ->
     findall tag_pattern (group0 m) = tag_words B
     /\ Roam.transform_tags_block m tags
        = ("", ":" +:+ join ":" (tag_words B) +:+ ":")
     /\ Org.transform_tags_block m tags
        = ("",
           "#+FILETAGS: "
           +:+ join " " (map (fun tag => ":" +:+ tag +:+ ":") (tag_words B))))
  /\ (forall (B : tags_block) (post : string),
        block_ok B = true -> block_ends B post = true ->
        exists m,
          search tags_block_pattern (block_text B +:+ post) = Some m
          /\ group0 m = block_text B)
  /\ (forall text : string,
        fst (Roam.extract_and_convert_tags text)
        = sub tags_block_pattern (fun _ => "") text
        /\ fst (Org.extract_and_convert_tags text)
           = sub tags_block_pattern (fun _ => "") text)
  /\ (forall (text : string) (m : rmatch) (B : tags_block),
        last (finditer tags_block_pattern text) = Some m ->
        group0 m = block_text B -> block_ok B = true ->
        snd (Roam.extract_and_convert_tags text)
        = ":" +:+ join ":" (tag_words B) +:+ ":"
        /\ snd (Org.extract_and_convert_tags text)
           = "#+FILETAGS: "
             +:+ join " " (map (fun tag => ":" +:+ tag +:+ ":") (tag_words B)))
  /\ (forall (pre : string) (B : tags_block) (post : string),
        no_tags_start pre (block_text B +:+ post) = true ->
        block_ok B = true -> block_ends B post = true ->
        has_tags_block post = false ->
        findall tag_pattern (block_text B) = tag_words B
        /\ Roam.extract_and_convert_tags (pre +:+ block_text B +:+ post) =
             (pre +:+ post, ":" +:+ join ":" (tag_words B) +:+ ":")
        /\ Org.extract_and_convert_tags (pre +:+ block_text B +:+ post) =
             (pre +:+ post,
              "#+FILETAGS: "
              +:+ join " " (map (fun tag => ":" +:+ tag +:+ ":") (tag_words B))))
  /\ findall tag_pattern ("tags:" +:+ LF +:+ "- a" +:+ LF +:+ "- b" +:+ LF) = ["a"; "b"]
  /\ Roam.extract_and_convert_tags ("tags:" +:+ LF +:+ "- a" +:+ LF +:+ "- b" +:+ LF)
     = ("", ":a:b:").
Proof.
  split; [|split; [|split; [|split; [|split; [|split; reflexivity]]]]].
  - intros m B tags Hm HB.
    unfold Roam.transform_tags_block, Org.transform_tags_block.
    rewrite Hm, (findall_block B HB). auto.
  - intros B post HB Hend.
    destruct (tags_block_match true B post HB Hend) as [cs Hm].
    exists (RMatch (block_text B) cs). split; [|reflexivity].
    unfold search. exact (search_from_here _ _ _ _ _ Hm).
  - intros text. rewrite roam_extract_eq, org_extract_eq.
    now rewrite (extract_last roam_render), (extract_last org_render).
  - intros text m B Hlast Hm HB. rewrite roam_extract_eq, org_extract_eq.
    rewrite (extract_last roam_render), (extract_last org_render), Hlast.
    cbn [snd]. rewrite Hm, (findall_block B HB). auto.
  - intros pre B post Hpre HB Hend Hpost. split; [|split].
    + now apply findall_block.
    + rewrite roam_extract_eq. now apply (extract_one_block roam_render).
    + rewrite org_extract_eq. now apply (extract_one_block org_render).
Qed.

Lemma C8_block_extracted_witness :
  findall tag_pattern
    (block_text (TagsBlock LF [TagItem " " "a" LF; TagItem " " "a" LF]))
  = ["a"; "a"]
  /\ Roam.extract_and_convert_tags
       (("---" +:+ LF +:+ "title: x" +:+ LF)
        +:+ block_text (TagsBlock LF [TagItem " " "a" LF; TagItem " " "a" LF])
        +:+ ("---" +:+ LF +:+ "Body"))
     = (("---" +:+ LF +:+ "title: x" +:+ LF) +:+ ("---" +:+ LF +:+ "Body"), ":a:a:")
  /\ Org.transform_tags_block
       (RMatch (block_text (TagsBlock " " [TagItem " " "b" " "; TagItem LF "c" ""])) [])
       ":old:"
     = ("", "#+FILETAGS: " +:+ join " " (map (fun tag => ":" +:+ tag +:+ ":") ["b"; "c"])).
Proof.
  destruct C8_block_extracted as (H0 & _ & _ & _ & H5 & _).
  destruct (H5 ("---" +:+ LF +:+ "title: x" +:+ LF)
              (TagsBlock LF [TagItem " " "a" LF; TagItem " " "a" LF])
              ("---" +:+ LF +:+ "Body")
              eq_refl eq_refl eq_refl eq_refl) as (H1 & H2 & _).
  split; [exact H1 | split; [exact H2|]].
  exact (proj2 (proj2
    (H0 (RMatch (block_text (TagsBlock " " [TagItem " " "b" " "; TagItem LF "c" ""])) [])
        (TagsBlock " " [TagItem " " "b" " "; TagItem LF "c" ""]) ":old:"
        eq_refl eq_refl))).
Defined.

(** ** C2: the Identifier Index within a run, and the links *)

(** C2, amended. The index maps a title to at most one identifier, and
    the last writer wins: converting a file sets the entry of its title
    to the identifier generated for it, whatever was there, and leaves
    every other entry; after a run the entry of a title is the
    identifier of the last converted file with that title, and the entry
    from before the run when there is none. A link to a title, rewritten
    against the index after files were converted, is addressed by the
    identifier of the last converted file with that title. *)
Theorem C2_index_last_writer :
  (forall (pandoc : string -> string) (md_file content unique_id : string)
          (existing_ids : gmap string string),
     let ids := snd (Roam.convert_file pandoc md_file content unique_id existing_ids) in
     ids !! splitext_root md_file = Some unique_id
     /\ forall t, t <> splitext_root md_file -> ids !! t = existing_ids !! t)
  /\ (forall (pandoc : string -> string) (notes : list (string * string * string))
             (existing_ids : gmap string string) (t : string),
        snd (Roam.convert_all pandoc notes existing_ids) !! t =
          match last_id t notes with
          | Some u => Some u
          | None => existing_ids !! t
          end)
  /\ (forall (pandoc : string -> string) (notes : list (string * string * string))
             (existing_ids : gmap string string) (t u : string)
             (m : rmatch),
        last_id t notes = Some u -> group m 1 = Some t ->
        Roam.transform_link (snd (Roam.convert_all pandoc notes existing_ids)) m
        = "[[id:" +:+ u
          +:+ (if truthy (group m 2) then "::" +:+ fmt (group m 2) else "")
          +:+ "][" +:+ (if truthy (group m 3) then fmt (group m 3) else t)
          +:+ "]]")
  /\ (forall (pandoc : string -> string) (notes : list (string * string * string))
             (existing_ids : gmap string string) (t u pre : string)
             (subheading alias : option string) (post : string),
        last_id t notes = Some u ->
        free_of_open pre = true -> link_ok t subheading alias = true ->
        let ids := snd (Roam.convert_all pandoc notes existing_ids) in
        sub link_pattern (Roam.transform_link ids)
          (pre +:+ wikilink t subheading alias +:+ post)
        = pre
          +:+ ("[[id:" +:+ u
               +:+ (if truthy subheading then "::" +:+ fmt subheading else "")
               +:+ "][" +:+ (if truthy alias then fmt alias else t) +:+ "]]")
          +:+ sub link_pattern (Roam.transform_link ids) post).
Proof.
  split; [|split; [|split]].
  - intros pandoc md_file content uid ids0 ids. subst ids.
    rewrite convert_file_index. split.
    + apply lookup_insert_eq.
    + intros t Ht. now apply lookup_insert_ne.
  - intros pandoc notes ids t. apply convert_all_index.
  - intros pandoc notes ids t u m Hlast Ht.
    assert (Hu : snd (Roam.convert_all pandoc notes ids) !! t = Some u)
      by now rewrite convert_all_index, Hlast.
    unfold Roam.transform_link. rewrite Ht. cbn [mbind option_bind]. rewrite Hu.
    destruct (truthy (group m 2)), (truthy (group m 3)); cbn [fmt default];
      now rewrite ?sapp_assoc, ?sapp_nil_r.
  - intros pandoc notes ids0 t u pre subheading alias post Hlast Hpre Hok ids.
    assert (Hu : ids !! t = Some u)
      by (subst ids; now rewrite convert_all_index, Hlast).
    rewrite link_sub_step by assumption.
    now rewrite (roam_transform_resolved ids _ t subheading alias u Hu).
Qed.

Lemma C2_index_last_writer_witness :
  snd (Roam.convert_file (fun s => s) "B.md" "" "u2" {[ "A" := "u1" ]}) !! "A"
  = Some "u1"
  /\ snd (Roam.convert_all (fun s => s)
            [("A.md", "", "u1"); ("B.md", "", "u2"); ("A.md", "x", "u3")]
            {[ "C" := "u0" ]}) !! "A"
     = Some "u3"
  /\ sub link_pattern
       (Roam.transform_link
          (snd (Roam.convert_all (fun s => s)
                  [("A.md", "", "u1"); ("A.md", "x", "u3")] {[ "A" := "u0" ]})))
       ("see " +:+ wikilink "A" None (Some "it") +:+ ".")
     = "see " +:+ ("[[id:" +:+ "u3" +:+ "" +:+ "][" +:+ "it" +:+ "]]")
       +:+ sub link_pattern
             (Roam.transform_link
                (snd (Roam.convert_all (fun s => s)
                        [("A.md", "", "u1"); ("A.md", "x", "u3")] {[ "A" := "u0" ]})))
             ".".
Proof.
  destruct C2_index_last_writer as (H1 & H2 & _ & H4). split; [|split].
  - rewrite (proj2 (H1 (fun s => s) "B.md" "" "u2" {[ "A" := "u1" ]}) "A").
    + reflexivity.
    + intros E. vm_compute in E. discriminate E.
  - rewrite H2. reflexivity.
  - apply (H4 (fun s => s) [("A.md", "", "u1"); ("A.md", "x", "u3")]
              {[ "A" := "u0" ]} "A" "u3" "see " None (Some "it") ".");
      reflexivity.
Defined.

(** ** C1: what a scan reads in a file with the inline-directive header *)

Lemma prefix_nil (s : string) : String.prefix "" s = true.
Proof. now destruct s. Qed.

Lemma prefix_app_le (w : string) : forall a x : string,
  String.length w <= String.length a ->
  String.prefix w (a +:+ x) = String.prefix w a.
Proof.
  induction w as [|c w IH]; intros a x H.
  - now rewrite !prefix_nil.
  - destruct a as [|y a]; cbn [String.length] in H; [lia|].
    change (String y a +:+ x) with (String y (a +:+ x)).
    rewrite !prefix_cons, IH by lia. reflexivity.
Qed.

(** A word that lacks [c] is no prefix across a [c]. *)
Lemma prefix_app_stop (c : ascii) (w : string) : forall a z : string,
  lacks c w = true ->
  String.prefix w (a +:+ String c z) = String.prefix w a.
Proof.
  induction w as [|x w IH]; intros a z H.
  - now rewrite !prefix_nil.
  - unfold lacks in H. cbn [str_forall] in H. apply andb_prop in H as [Hx H].
    apply negb_true_iff in Hx. destruct a as [|y a].
    + cbn [String.append]. rewrite prefix_cons, Ascii.eqb_sym, Hx. reflexivity.
    + change (String y a +:+ String c z) with (String y (a +:+ String c z)).
      rewrite !prefix_cons, IH by exact H. reflexivity.
Qed.

Lemma str_drop_app_le (n : nat) : forall a x : string,
  n <= String.length a -> str_drop n (a +:+ x) = str_drop n a +:+ x.
Proof.
  induction n as [|n IH]; intros a x H.
  - reflexivity.
  - destruct a as [|y a]; cbn [String.length] in H; [lia|].
    change (String y a +:+ x) with (String y (a +:+ x)).
    cbn [str_drop]. apply IH. lia.
Qed.

Lemma drop_while_app_stop (p : ascii -> bool) (c : ascii) (z : string) :
  p c = false ->
  forall a, drop_while p (a +:+ String c z) = drop_while p a +:+ String c z.
Proof.
  intros Hc. induction a as [|y a IH].
  - cbn [String.append drop_while]. now rewrite Hc.
  - change (String y a +:+ String c z) with (String y (a +:+ String c z)).
    cbn [drop_while]. destruct (p y); [exact IH | reflexivity].
Qed.

Lemma take_while_app_stop (q : ascii -> bool) (c : ascii) (z z' : string) :
  q c = false ->
  forall a, take_while q (a +:+ String c z) = take_while q (a +:+ String c z').
Proof.
  intros Hc. induction a as [|y a IH].
  - cbn [String.append take_while]. now rewrite Hc.
  - change (String y a +:+ String c ?t) with (String y (a +:+ String c t)).
    cbn [String.append take_while]. destruct (q y); [now rewrite IH | reflexivity].
Qed.

Lemma starts_with_app_cons (p : ascii -> bool) (a : string) (c : ascii) (z z' : string) :
  starts_with p (a +:+ String c z) = starts_with p (a +:+ String c z').
Proof. now destruct a. Qed.

(** What follows a character that is no whitespace and a blank after it
    has no part in the token read before them. *)
Lemma token_sealed (r : string) (c : ascii) (x : string) :
  is_space c = false ->
  token_at (r +:+ String c (String " " x)) = token_at (r +:+ String c " ")
  /\ token_of (r +:+ String c (String " " x)) = token_of (r +:+ String c " ").
Proof.
  intros Hc. unfold token_at, token_of.
  rewrite !(drop_while_app_stop is_space c _ Hc).
  rewrite (starts_with_app_cons is_space r c _ " ").
  rewrite (starts_with_app_cons not_space (drop_while is_space r) c _ " ").
  split; [reflexivity|].
  replace (drop_while is_space r +:+ String c (String " " x))
    with ((drop_while is_space r +:+ String c "") +:+ String " " x)
    by now rewrite sapp_assoc.
  replace (drop_while is_space r +:+ String c " ")
    with ((drop_while is_space r +:+ String c "") +:+ String " " "")
    by now rewrite sapp_assoc.
  now apply take_while_app_stop.
Qed.

Lemma first_id_cons (c : ascii) (s : string) :
  first_id (String c s) =
    if String.prefix ":ID:" (String c s) && token_at (str_drop 4 (String c s))
    then Some (token_of (str_drop 4 (String c s)))
    else first_id s.
Proof. reflexivity. Qed.

(** A scan up to the [#+id: ] of the inline-directive header reads the
    same whatever follows. *)
Lemma first_id_before_id (q x : string) :
  first_id (q +:+ "#+id: " +:+ x) =
    match first_id (q +:+ "#+id: ") with
    | Some u => Some u
    | None => first_id x
    end.
Proof.
  induction q as [|c q IH].
  - reflexivity.
  - change (String c q +:+ ?t) with (String c (q +:+ t)).
    rewrite !first_id_cons, IH.
    assert (E : forall t, String c (q +:+ "#+id: " +:+ t)
                          = (String c q +:+ "#+id") +:+ String ":" (String " " t)).
    { intros t. rewrite sapp_assoc. reflexivity. }
    assert (E0 : String c (q +:+ "#+id: ")
                 = (String c q +:+ "#+id") +:+ String ":" (String " " "")).
    { rewrite sapp_assoc. reflexivity. }
    rewrite (E x), E0.
    assert (Hl : 4 <= String.length (String c q +:+ "#+id"))
      by (rewrite slength_app; cbn [String.length]; lia).
    rewrite (prefix_app_le ":ID:" _ (String ":" (String " " x)) Hl).
    rewrite (prefix_app_le ":ID:" _ (String ":" (String " " "")) Hl).
    rewrite (str_drop_app_le 4 _ (String ":" (String " " x)) Hl).
    rewrite (str_drop_app_le 4 _ (String ":" (String " " "")) Hl).
    destruct (token_sealed (str_drop 4 (String c q +:+ "#+id")) ":" x eq_refl)
      as [-> ->].
    now destruct (String.prefix ":ID:" (String c q +:+ "#+id")
                  && token_at (str_drop 4 (String c q +:+ "#+id") +:+ ": ")).
Qed.

Lemma no_marker_first_id (s : string) :
  holds_id_marker s = false -> first_id s = None.
Proof.
  induction s as [|c s IH]; intros H; [reflexivity|].
  cbn [holds_id_marker] in H. apply orb_false_elim in H as [H1 H2].
  rewrite first_id_cons, H1. now apply IH.
Qed.

(** A text without the marker, before a line end, holds no identifier. *)
Lemma first_id_skip (v z : string) :
  holds_id_marker v = false ->
  first_id (v +:+ String "010" z) = first_id (String "010" z).
Proof.
  induction v as [|c v IH]; intros H; [reflexivity|].
  cbn [holds_id_marker] in H. apply orb_false_elim in H as [H1 H2].
  change (String c v +:+ ?t) with (String c (v +:+ t)).
  rewrite first_id_cons.
  change (String c (v +:+ String "010" z)) with (String c v +:+ String "010" z).
  rewrite (prefix_app_stop "010" ":ID:") by reflexivity.
  rewrite H1. now apply IH.
Qed.

(** The part of the inline-directive header before the identifier. *)
Lemma root_header_parts (file_path tags uid body : string) :
  Root.generate_org_roam_header file_path tags uid +:+ body =
  ("#+title: " +:+ splitext_root file_path +:+ LF
   +:+ (if nonempty tags then "#+filetags: " +:+ tags else "#+filetags:")
   +:+ LF +:+ "#+roam_aliases: " +:+ LF)
  +:+ "#+id: " +:+ uid +:+ String "010" (LF +:+ body).
Proof.
  unfold Root.generate_org_roam_header. rewrite !sapp_assoc. reflexivity.
Qed.

Lemma root_first_id (file_path tags uid body : string) :
  holds_id_marker uid = false ->
  first_id (Root.generate_org_roam_header file_path tags uid +:+ body) =
    match first_id (Root.generate_org_roam_header file_path tags "") with
    | Some u => Some u
    | None => first_id body
    end.
Proof.
  intros Hu.
  rewrite <- (sapp_nil_r (Root.generate_org_roam_header file_path tags "")).
  rewrite !root_header_parts, !first_id_before_id.
  destruct (first_id (_ +:+ "#+id: ")); [reflexivity|].
  rewrite first_id_skip by exact Hu. reflexivity.
Qed.

Lemma first_id_skip_char (c : ascii) (s : string) :
  Ascii.eqb ":" c = false -> first_id (String c s) = first_id s.
Proof.
  intros H. rewrite first_id_cons. change ":ID:" with (String ":" "ID:").
  now rewrite prefix_cons, H.
Qed.

Lemma first_id_skip_colon (c : ascii) (s : string) :
  Ascii.eqb "I" c = false -> first_id (String ":" (String c s)) = first_id (String c s).
Proof.
  intros H. rewrite first_id_cons. change ":ID:" with (String ":" (String "I" "D:")).
  now rewrite !prefix_cons, H, andb_false_r.
Qed.

Ltac skip_fixed :=
  repeat first [ rewrite first_id_skip_char by reflexivity
               | rewrite first_id_skip_colon by reflexivity ].

(** Without the marker in title and tags the header holds no identifier
    for the scan. *)
Lemma root_header_no_id (file_path tags : string) :
  holds_id_marker (splitext_root file_path) = false ->
  holds_id_marker tags = false ->
  first_id (Root.generate_org_roam_header file_path tags "") = None.
Proof.
  intros Ht Hg. unfold Root.generate_org_roam_header, LF.
  destruct (nonempty tags); cbn [String.append]; skip_fixed;
    rewrite first_id_skip by exact Ht; skip_fixed.
  - rewrite first_id_skip by exact Hg. skip_fixed. reflexivity.
  - reflexivity.
Qed.

Lemma scan_one (file content : string) (ids0 : gmap string string) :
  Roam.scan_files [(file, content)] ids0 =
    if endswith file ".org"
    then match first_id content with
         | Some u => <[splitext_root file := u]> ids0
         | None => ids0
         end
    else ids0.
Proof. now rewrite scan_step. Qed.

(** C1, amended. Under the property-drawer style (the script that has
    the Identifier Index) the output file of a converted note, scanned by
    the Index Builder, records the title of the note with the identifier
    that was generated for it, the one the run itself holds for the
    title. Under the inline-directive style (the script without an
    index) the identifier stands on a [#+id:] line, which the Index
    Builder does not read: what a scan records for the output file of a
    note does not depend on the identifier generated for it. Where title
    and tags hold no [:ID:], the scan reads the file as it reads the text
    after the header alone: it records the token after the first [:ID:]
    marker of that text, and nothing when the text holds no [:ID:]. (An
    identifier holds no [:ID:]; one drawn by [uuid.uuid4()] never
    does.) *)
Theorem C1_identifier_extractable :
  (forall (pandoc : string -> string) (md_file content unique_id : string)
          (existing_ids ids0 : gmap string string),
     endswith md_file ".md" = true ->
     nonempty unique_id = true -> str_forall not_space unique_id = true ->
     let out := fst (Roam.convert_file pandoc md_file content unique_id existing_ids) in
     let title := splitext_root md_file in
     Roam.scan_files [out] ids0 = <[title := unique_id]> ids0
     /\ Roam.build_existing_ids_map [out] !! title = Some unique_id
     /\ snd (Roam.convert_file pandoc md_file content unique_id existing_ids)
          !! title = Some unique_id)
  /\ (forall (pandoc : string -> string)
             (md_file content unique_id unique_id' : string)
             (ids0 : gmap string string),
        holds_id_marker unique_id = false -> holds_id_marker unique_id' = false ->
        Roam.scan_files [Root.convert_file pandoc md_file content unique_id] ids0
        = Roam.scan_files [Root.convert_file pandoc md_file content unique_id'] ids0)
  /\ (forall (file_path tags unique_id body file : string)
             (ids0 : gmap string string),
        holds_id_marker (splitext_root file_path) = false ->
        holds_id_marker tags = false ->
        holds_id_marker unique_id = false ->
        Roam.scan_files
          [(file, Root.generate_org_roam_header file_path tags unique_id +:+ body)]
          ids0
        = Roam.scan_files [(file, body)] ids0
        /\ (holds_id_marker body = false ->
            Roam.scan_files
              [(file, Root.generate_org_roam_header file_path tags unique_id +:+ body)]
              ids0
            = ids0)).
Proof.
  split; [|split].
  - intros pandoc md_file content uid ids ids0 Hmd Hne Hns out title.
    subst out title. split; [|split].
    + now apply roam_header_scan.
    + unfold Roam.build_existing_ids_map.
      rewrite (roam_header_scan pandoc md_file content uid ids ∅ Hmd Hne Hns).
      apply lookup_insert_eq.
    + unfold Roam.convert_file.
      destruct (Roam.extract_and_convert_tags content) as [c1 tags].
      cbn [snd Roam.generate_org_roam_header]. apply lookup_insert_eq.
  - intros pandoc md_file content uid uid' ids0 Hu Hu'.
    unfold Root.convert_file.
    destruct (Root.extract_and_convert_tags content) as [c1 tags].
    rewrite !scan_one, !root_first_id by assumption. reflexivity.
  - intros file_path tags uid body file ids0 Ht Hg Hu.
    assert (E : Roam.scan_files
                  [(file, Root.generate_org_roam_header file_path tags uid +:+ body)]
                  ids0
                = Roam.scan_files [(file, body)] ids0).
    { rewrite !scan_one, root_first_id by exact Hu.
      now rewrite root_header_no_id. }
    split; [exact E|]. intros Hb. rewrite E, scan_one.
    rewrite (no_marker_first_id body Hb). now destruct (endswith file ".org").
Qed.

Lemma C1_identifier_extractable_witness :
  Roam.build_existing_ids_map
    [fst (Roam.convert_file (fun s => s) "Note.md"
            ("tags:" +:+ LF +:+ "- a" +:+ LF +:+ "Body")
            "123e4567-e89b-42d3-a456-426614174000" ∅)] !! splitext_root "Note.md"
  = Some "123e4567-e89b-42d3-a456-426614174000"
  /\ Roam.scan_files
       [Root.convert_file (fun s => s) "Ideas.md" "I think, see :ID: zzz"
          "123e4567-e89b-42d3-a456-426614174000"] ∅
     = Roam.scan_files
         [Root.convert_file (fun s => s) "Ideas.md" "I think, see :ID: zzz"
            "00000000-0000-4000-8000-000000000000"] ∅
  /\ Roam.scan_files
       [("Ideas.org",
         Root.generate_org_roam_header "Ideas.org" ":a:"
           "123e4567-e89b-42d3-a456-426614174000" +:+ "I think so.")] ∅
     = ∅.
Proof.
  destruct C1_identifier_extractable as (Ha & Hb & Hc). split; [|split].
  - apply (Ha (fun s => s) "Note.md" ("tags:" +:+ LF +:+ "- a" +:+ LF +:+ "Body")
              "123e4567-e89b-42d3-a456-426614174000" ∅ ∅); reflexivity.
  - apply Hb; reflexivity.
  - apply (Hc "Ideas.org" ":a:" "123e4567-e89b-42d3-a456-426614174000"
              "I think so." "Ideas.org" ∅); reflexivity.
Defined.

(** ** The scan of a directory without two files of one title *)

Lemma existsb_eqb_In (x : string) (l : list string) :
  existsb (String.eqb x) l = true <-> In x l.
Proof.
  rewrite existsb_exists. split.
  - intros (y & Hy & E). apply String.eqb_eq in E. now subst y.
  - intros H. exists x. split; [exact H | apply String.eqb_refl].
Qed.

Lemma distinct_NoDup (l : list string) : distinct l = true <-> List.NoDup l.
Proof.
  induction l as [|x l IH]; cbn [distinct].
  - split; [constructor | reflexivity].
  - rewrite andb_true_iff, negb_true_iff, IH. split.
    + intros [H1 H2]. constructor; [|exact H2].
      intros Hin. apply existsb_eqb_In in Hin. congruence.
    + intros H. inversion H as [|y l' Hn Hd]; subst. split; [|exact Hd].
      destruct (existsb (String.eqb x) l) eqn:E; [|reflexivity].
      apply existsb_eqb_In in E. contradiction.
Qed.

Lemma distinct_perm (l l' : list string) :
  Permutation l l' -> distinct l = true -> distinct l' = true.
Proof.
  intros Hp H. apply distinct_NoDup. apply distinct_NoDup in H.
  exact (Permutation_NoDup Hp H).
Qed.

Lemma org_titles_perm (l l' : list (string * string)) :
  Permutation l l' -> Permutation (org_titles l) (org_titles l').
Proof.
  intros Hp. unfold org_titles. apply Permutation_map.
  induction Hp as [|x l l' Hp IH|x y l|l l' l'' H1 IH1 H2 IH2]; cbn [List.filter].
  - constructor.
  - destruct (is_org x); [now constructor | exact IH].
  - destruct (is_org x), (is_org y); try apply Permutation_refl. apply perm_swap.
  - now apply perm_trans with (List.filter is_org l').
Qed.

Lemma org_titles_cons (f c : string) (l : list (string * string)) :
  org_titles ((f, c) :: l) =
    if endswith f ".org" then splitext_root f :: org_titles l else org_titles l.
Proof.
  unfold org_titles. cbn [List.filter]. unfold is_org at 1. cbn [fst].
  now destruct (endswith f ".org").
Qed.


Lemma org_titles_In (f c : string) (l : list (string * string)) :
  In (f, c) l -> endswith f ".org" = true -> In (splitext_root f) (org_titles l).
Proof.
  intros Hin Ho. unfold org_titles.
  apply (in_map (fun x => splitext_root (fst x)) _ (f, c)).
  apply filter_In. split; [exact Hin | exact Ho].
Qed.

Lemma last_scanned_cons (t f c : string) (l : list (string * string)) :
  last_scanned t ((f, c) :: l) =
    match last_scanned t l with
    | Some u => Some u
    | None =>
        if endswith f ".org" && String.eqb (splitext_root f) t
        then first_id c else None
    end.
Proof. reflexivity. Qed.


(** Without two files of one title, the file of a title decides its
    entry, wherever it stands. *)
Lemma last_scanned_In (l : list (string * string)) (f c u : string) :
  distinct (org_titles l) = true ->
  In (f, c) l -> endswith f ".org" = true -> first_id c = Some u ->
  last_scanned (splitext_root f) l = Some u.
Proof.
  induction l as [|[f' c'] l IH]; intros Hd Hin Ho Hu; [contradiction|].
  rewrite last_scanned_cons. rewrite org_titles_cons in Hd.
  destruct Hin as [E|Hin].
  - injection E as -> ->. rewrite Ho in Hd. cbn [distinct] in Hd.
    apply andb_prop in Hd as [Hn Hd]. apply negb_true_iff in Hn.
    destruct (last_scanned (splitext_root f) l) as [v|] eqn:Ev.
    + destruct (last_scanned_from _ _ _ Ev) as (f2 & c2 & Hin2 & Ho2 & Ht2 & _).
      pose proof (org_titles_In f2 c2 l Hin2 Ho2) as Hin3. rewrite Ht2 in Hin3.
      apply existsb_eqb_In in Hin3. congruence.
    + now rewrite Ho, String.eqb_refl.
  - assert (Hd' : distinct (org_titles l) = true).
    { destruct (endswith f' ".org"); [|exact Hd].
      cbn [distinct] in Hd. now apply andb_prop in Hd as [_ Hd]. }
    now rewrite (IH Hd' Hin Ho Hu).
Qed.

(** So the order in which the files are met does not matter. *)
Lemma last_scanned_perm (t : string) (l l' : list (string * string)) :
  Permutation l l' -> distinct (org_titles l) = true ->
  last_scanned t l = last_scanned t l'.
Proof.
  intros Hp Hd.
  assert (Hd' : distinct (org_titles l') = true)
    by exact (distinct_perm _ _ (org_titles_perm l l' Hp) Hd).
  destruct (last_scanned t l) as [u|] eqn:E.
  - destruct (last_scanned_from _ _ _ E) as (f & c & Hin & Ho & Ht & Hu).
    subst t. symmetry. apply (last_scanned_In l' f c u Hd'); try assumption.
    exact (Permutation_in _ Hp Hin).
  - destruct (last_scanned t l') as [u|] eqn:E'; [|reflexivity].
    destruct (last_scanned_from _ _ _ E') as (f & c & Hin & Ho & Ht & Hu).
    subst t.
    rewrite (last_scanned_In l f c u Hd) in E; try assumption; [discriminate|].
    exact (Permutation_in _ (Permutation_sym Hp) Hin).
Qed.

Lemma build_lookup (dir : list (string * string)) (t : string) :
  Roam.build_existing_ids_map dir !! t = last_scanned t dir.
Proof.
  unfold Roam.build_existing_ids_map. rewrite scan_lookup.
  destruct (last_scanned t dir); [reflexivity | apply lookup_empty].
Qed.

(** ** The files of a run, scanned *)

Lemma last_scanned_outs (pandoc : string -> string)
    (notes : list (string * string * string)) (ids : gmap string string) (t : string) :
  forallb md_note notes = true -> forallb uid_ok notes = true ->
  last_scanned t (fst (Roam.convert_all pandoc notes ids)) = last_id t notes.
Proof.
  intros Hmd Hu.
  pose proof (rescan_convert_all pandoc notes ids ∅ Hmd Hu) as R.
  apply (f_equal (fun m : gmap string string => m !! t)) in R.
  rewrite scan_lookup, convert_all_index, lookup_empty in R.
  now destruct (last_scanned t _), (last_id t notes).
Qed.






(** ** A run and the scan of its output directory *)



(** X16. A second run over an output directory that holds the files of
    a first run, no two [.org] files of it sharing a title, met by the
    scan in whatever order. When a note is converted, a title whose note
    comes later in the second run still has in the index the identifier
    that the first run gave it, and a link to that title is rewritten to
    a link addressed by that identifier. At the end of the run the title
    has the identifier drawn in the second run. *)
Theorem X16_second_run :
  forall (pandoc : string -> string)
         (first_run before after : list (string * string * string))
         (dir : list (string * string))
         (md_file content unique_id target old new : string),
    forallb md_note first_run = true -> forallb uid_ok first_run = true ->
    Permutation dir (fst (Roam.convert_all pandoc first_run ∅)) ->
    distinct (org_titles dir) = true ->
    last_id target first_run = Some old ->
    last_id target before = None ->
    last_id target after = Some new ->
    let ids0 := Roam.build_existing_ids_map dir in
    let ids1 := snd (Roam.convert_all pandoc before ids0) in
    ids0 !! target = Some old
    /\ ids1 !! target = Some old
    /\ (forall m : rmatch,
          group m 1 = Some target ->
          Roam.transform_link ids1 m
          = "[[id:" +:+ old
            +:+ (if truthy (group m 2) then "::" +:+ fmt (group m 2) else "")
            +:+ "][" +:+ (if truthy (group m 3) then fmt (group m 3) else target)
            +:+ "]]")
    /\ (forall (pre : string) (subheading alias : option string) (post : string),
          free_of_open pre = true -> link_ok target subheading alias = true ->
          sub link_pattern (Roam.transform_link ids1)
            (pre +:+ wikilink target subheading alias +:+ post)
          = pre
            +:+ ("[[id:" +:+ old
                 +:+ (if truthy subheading then "::" +:+ fmt subheading else "")
                 +:+ "][" +:+ (if truthy alias then fmt alias else target) +:+ "]]")
            +:+ sub link_pattern (Roam.transform_link ids1) post)
    /\ snd (Roam.convert_all pandoc
              (before ++ (md_file, content, unique_id) :: after) ids0) !! target
       = Some new.
Proof.
  intros pandoc first_run before after dir md_file content uid target old new
    Hmd Hu Hp Hd Hold Hb Ha ids0 ids1.
  assert (H0 : ids0 !! target = Some old).
  { subst ids0. rewrite build_lookup, (last_scanned_perm target _ _ Hp Hd).
    now rewrite last_scanned_outs. }
  assert (H1 : ids1 !! target = Some old).
  { subst ids1. now rewrite convert_all_index, Hb. }
  split; [exact H0|]. split; [exact H1|]. split; [|split].
  - intros m Ht. unfold Roam.transform_link. rewrite Ht.
    cbn [mbind option_bind]. rewrite H1.
    destruct (truthy (group m 2)), (truthy (group m 3)); cbn [fmt default];
      now rewrite ?sapp_assoc, ?sapp_nil_r.
  - intros pre subheading alias post Hpre Hok.
    rewrite link_sub_step by assumption.
    now rewrite (roam_transform_resolved ids1 _ target subheading alias old H1).
  - rewrite convert_all_index, last_id_app. cbn [last_id]. now rewrite Ha.
Qed.

Lemma X16_second_run_witness :
  Roam.build_existing_ids_map
    (rev (fst (Roam.convert_all (fun s => s)
                 [("A.md", "see [[B]]", "u1"); ("B.md", "see [[A]]", "u2")] ∅)))
    !! "B"
  = Some "u2"
  /\ sub link_pattern
       (Roam.transform_link
          (snd (Roam.convert_all (fun s => s) []
                  (Roam.build_existing_ids_map
                     (rev (fst (Roam.convert_all (fun s => s)
                                  [("A.md", "see [[B]]", "u1");
                                   ("B.md", "see [[A]]", "u2")] ∅)))))))
       ("see " +:+ wikilink "B" None None +:+ "")
     = "see " +:+ ("[[id:" +:+ "u2" +:+ "" +:+ "][" +:+ "B" +:+ "]]")
       +:+ sub link_pattern
             (Roam.transform_link
                (snd (Roam.convert_all (fun s => s) []
                        (Roam.build_existing_ids_map
                           (rev (fst (Roam.convert_all (fun s => s)
                                        [("A.md", "see [[B]]", "u1");
                                         ("B.md", "see [[A]]", "u2")] ∅)))))))
             ""
  /\ snd (Roam.convert_all (fun s => s)
            ([] ++ ("A.md", "see [[B]]", "v1") :: [("B.md", "see [[A]]", "v2")])
            (Roam.build_existing_ids_map
               (rev (fst (Roam.convert_all (fun s => s)
                            [("A.md", "see [[B]]", "u1");
                             ("B.md", "see [[A]]", "u2")] ∅))))) !! "B"
     = Some "v2".
Proof.
  destruct (X16_second_run (fun s => s)
              [("A.md", "see [[B]]", "u1"); ("B.md", "see [[A]]", "u2")]
              [] [("B.md", "see [[A]]", "v2")]
              (rev (fst (Roam.convert_all (fun s => s)
                           [("A.md", "see [[B]]", "u1");
                            ("B.md", "see [[A]]", "u2")] ∅)))
              "A.md" "see [[B]]" "v1" "B" "u2" "v2"
              eq_refl eq_refl (Permutation_sym (Permutation_rev _))
              eq_refl eq_refl eq_refl eq_refl) as (H1 & _ & _ & H4 & H5).
  split; [exact H1 | split; [|exact H5]].
  apply (H4 "see " None None ""); reflexivity.
Defined.

(** ** C4: a second application, by the shape of the input *)

(** *** The Tag Extractor *)









(** *** The Link Rewriters *)




























(** *** One image *)









